(** * Doctor-patient queue backend (run.py): model and verified properties

    The Flask module keeps three tables (User, Queue, Consultation) behind
    SQLAlchemy and answers each request with a JSON body and a status code.
    The tables are modelled as lists of rows in storage order, the session as
    a unit of work that [commit] applies in one step, and every handler as a
    function from the store (and the request) to a response and a store.
    The completion handler is modelled a second time on a store that may
    refuse statements and keys, to say that its two writes are one
    transaction.

    Python's built-ins are modelled first: [sorted] with a key function,
    tuple comparison, [datetime] subtraction, and the float arithmetic behind
    [/], [*] and [int], taken from the IEEE-754 binary64 operations of
    [SpecFloat]. *)

From Stdlib Require Import ZArith List String Bool Lia.
From Stdlib Require Import Sorted Permutation SpecFloat.
Import ListNotations.

Local Open Scope string_scope.
Local Open Scope list_scope.
Local Open Scope Z_scope.

(** ** Python values *)

(** Exceptions the modelled code can raise. *)
Inductive exn := ZeroDivisionError | OverflowError | ValueError.

Inductive result (A : Type) : Type :=
| Ok (a : A)
| Raise (e : exn).
Arguments Ok {A} a.
Arguments Raise {A} e.

Definition bind {A B : Type} (r : result A) (k : A -> result B) : result B :=
  match r with
  | Ok a => k a
  | Raise e => Raise e
  end.

Notation "x <- c ;; k" := (bind c (fun x => k))
  (at level 61, c at next level, right associativity).

(** [sorted(l, key=key)]: a stable sort that compares keys with [<] only.
    Equal keys keep their input order, which fixes the result uniquely, so
    insertion from the right stands for Timsort. *)
Section PySorted.
Context {A K : Type}.
Variable lt : K -> K -> bool.
Variable key : A -> K.

Fixpoint insort (x : A) (l : list A) : list A :=
  match l with
  | [] => [x]
  | y :: l' => if lt (key y) (key x) then y :: insort x l' else x :: y :: l'
  end.

Definition sorted (l : list A) : list A := fold_right insort [] l.

(** [x] may stand before [y] in a sorted list: the key of [y] is not
    below the key of [x]. *)
Definition key_le (x y : A) : Prop := lt (key y) (key x) = false.
End PySorted.

(** [False < True] on bool. *)
Definition bool_lt (a b : bool) : bool := negb a && b.

(** Lexicographic [<] on 2-tuples: the first components decide unless they
    are equal. *)
Definition tuple_lt {A B : Type} (eqA ltA : A -> A -> bool)
    (ltB : B -> B -> bool) (p q : A * B) : bool :=
  if eqA (fst p) (fst q) then ltB (snd p) (snd q) else ltA (fst p) (fst q).

(** A naive [datetime], counted in microseconds from a fixed origin. *)
Definition datetime := Z.

(** [timedelta], normalised as Python does: [0 <= seconds < 86400] and
    [0 <= microseconds < 10^6]; [days] carries the sign. *)
Record timedelta := {
  days : Z;
  seconds : Z;
  microseconds : Z
}.

Definition datetime_sub (a b : datetime) : timedelta :=
  let us := a - b in
  let total_s := us / 1000000 in
  {| days := total_s / 86400;
     seconds := total_s mod 86400;
     microseconds := us mod 1000000 |}.

(** [timedelta.total_seconds()], rounded down to whole seconds. *)
Definition whole_seconds (d : timedelta) : Z := days d * 86400 + seconds d.

(** *** Floats: IEEE-754 binary64 *)

Definition float := spec_float.
Definition prec : Z := 53.
Definition emax : Z := 1024.

(** An int seen as an unrounded binary number with exponent 0. *)
Definition Z_to_SF (n : Z) : spec_float :=
  match n with
  | Z0 => S754_zero false
  | Zpos p => S754_finite false p 0
  | Zneg p => S754_finite true p 0
  end.

Definition no_overflow (x : spec_float) : result float :=
  match x with
  | S754_infinity _ => Raise OverflowError
  | _ => Ok x
  end.

(** [float(n)]: the nearest double, ties to even; too large an int raises. *)
Definition py_float_of_int (n : Z) : result float :=
  no_overflow (binary_normalize prec emax n 0 false).

(** [a / b] on ints: the correctly rounded quotient. *)
Definition py_truediv (a b : Z) : result float :=
  if b =? 0 then Raise ZeroDivisionError
  else no_overflow (SFdiv prec emax (Z_to_SF a) (Z_to_SF b)).

(** [n * x] with an int [n] and a float [x]: [n] is converted first. *)
Definition py_int_mul_float (n : Z) (x : float) : result float :=
  fn <- py_float_of_int n ;;
  Ok (SFmul prec emax fn x).

(** [int(x)]: truncation toward zero. *)
Definition py_int_of_float (x : float) : result Z :=
  match x with
  | S754_nan => Raise ValueError
  | S754_infinity _ => Raise OverflowError
  | S754_zero _ => Ok 0
  | S754_finite s m e =>
      Ok (cond_Zopp s (match e with
                       | Zneg p => Zpos m / 2 ^ Zpos p
                       | _ => Zpos m * 2 ^ e
                       end))
  end.

(** The double that holds the positive integer [p] exactly, when [p]
    has at most 53 binary digits: the mantissa is [p] shifted up to 53
    digits. *)
Definition normal (s : bool) (p : positive) : float :=
  let d := Zpos (digits2_pos p) in
  S754_finite s (Z.to_pos (Zpos p * 2 ^ (prec - d))) (d - prec).

(** The rounding record of a number with no bits shifted out. *)
Definition exact_rec (z : Z) : shr_record :=
  {| shr_m := z; shr_r := false; shr_s := false |}.

(** [f"{x}"] of a nullable string column. *)
Definition py_str (o : option string) : string :=
  match o with
  | Some s => s
  | None => "None"
  end.

(** ** JSON bodies *)

#[local] Set Warnings "-register-all".

Inductive json :=
| JNull
| JBool (b : bool)
| JInt (n : Z)
| JStr (s : string)
| JDatetime (t : datetime)
| JArr (items : list json)
| JObj (fields : list (string * json)).

Definition JOpt (o : option string) : json :=
  match o with
  | Some s => JStr s
  | None => JNull
  end.

(** A handler's return value: [jsonify(body), status]. *)
Definition response := (json * Z)%type.

Fixpoint assoc (k : string) (kv : list (string * json)) : option json :=
  match kv with
  | [] => None
  | (k', v) :: kv' => if String.eqb k' k then Some v else assoc k kv'
  end.

(** [body[k]] when the body is an object. *)
Definition field (k : string) (j : json) : option json :=
  match j with
  | JObj kv => assoc k kv
  | _ => None
  end.

Definition keys (j : json) : list string :=
  match j with
  | JObj kv => map fst kv
  | _ => []
  end.

Definition items_of (j : json) : list json :=
  match j with
  | JArr l => l
  | _ => []
  end.

(** ** Database models *)

Module User.
(** A patient, doctor or admin. [first_name], [last_name] and [specialty]
    are nullable columns. *)
Record t := {
  id : string;
  email : string;
  password : string;
  role : string;
  first_name : option string;
  last_name : option string;
  specialty : option string
}.

Definition to_dict (self : t) : json :=
  JObj [ ("id", JStr (id self));
         ("email", JStr (email self));
         ("role", JStr (role self));
         ("first_name", JOpt (first_name self));
         ("last_name", JOpt (last_name self));
         ("specialty", JOpt (specialty self)) ].
End User.

Module Queue.
(** A patient waiting in one doctor's line. [id] is the integer primary
    key; [joined_at] is filled by the column default when the row is
    inserted. *)
Record t := {
  id : Z;
  user_id : string;
  doctor_id : string;
  joined_at : datetime;
  is_emergency : bool
}.
End Queue.

Module Consultation.
(** A completed visit. Every column but the key is nullable; the code
    only ever tests [duration_minutes] for null. *)
Record t := {
  id : Z;
  patient_id : string;
  doctor_id : string;
  start_time : datetime;
  end_time : datetime;
  duration_minutes : option Z
}.
End Consultation.

(** ** The store and the session *)

(** The three tables, each in storage (rowid) order. *)
Record Store := {
  User_table : list User.t;
  Queue_table : list Queue.t;
  Consultation_table : list Consultation.t
}.

(** An integer primary key left to the store: one more than the largest
    key in the table. *)
Definition next_id (ids : list Z) : Z := 1 + fold_right Z.max 0 ids.

(** What a session holds until [commit]: objects added and objects marked
    for deletion. Columns the constructor call leaves out ([id], and
    [joined_at] for a queue entry) are filled when the row is written. *)
Inductive pending :=
| New_Queue (user_id doctor_id : string) (is_emergency : bool)
| New_Consultation (patient_id doctor_id : string)
    (start_time end_time : datetime) (duration_minutes : Z)
| Deleted_Queue (entry : Queue.t).

Definition session := list pending.

Definition session_add (obj : pending) (s : session) : session := s ++ [obj].

Definition session_delete (entry : Queue.t) (s : session) : session :=
  s ++ [Deleted_Queue entry].

Definition flush (now : datetime) (db : Store) (op : pending) : Store :=
  match op with
  | New_Queue u d e =>
      {| User_table := User_table db;
         Queue_table := Queue_table db ++
           [ {| Queue.id := next_id (map Queue.id (Queue_table db));
                Queue.user_id := u;
                Queue.doctor_id := d;
                Queue.joined_at := now;
                Queue.is_emergency := e |} ];
         Consultation_table := Consultation_table db |}
  | New_Consultation p d st en dur =>
      {| User_table := User_table db;
         Queue_table := Queue_table db;
         Consultation_table := Consultation_table db ++
           [ {| Consultation.id :=
                  next_id (map Consultation.id (Consultation_table db));
                Consultation.patient_id := p;
                Consultation.doctor_id := d;
                Consultation.start_time := st;
                Consultation.end_time := en;
                Consultation.duration_minutes := Some dur |} ] |}
  | Deleted_Queue entry =>
      {| User_table := User_table db;
         Queue_table :=
           filter (fun x => negb (Queue.id x =? Queue.id entry))
                  (Queue_table db);
         Consultation_table := Consultation_table db |}
  end.

(** [db.session.commit()]: the whole unit of work is written in one
    transaction. *)
Definition commit (now : datetime) (db : Store) (s : session) : Store :=
  fold_left (flush now) s db.

(** *** Queries *)

(** [query.first()]. *)
Definition first {A : Type} (rows : list A) : option A := hd_error rows.

(** [query.count()] and [len]. *)
Definition count {A : Type} (rows : list A) : Z := Z.of_nat (List.length rows).

(** [User.query.get(pk)]. *)
Definition User_get (db : Store) (pk : string) : option User.t :=
  find (fun u => String.eqb (User.id u) pk) (User_table db).

(** [Queue.query.get(pk)], for a key the driver can bind; see
    [sqlite_integer] below for the others. *)
Definition Queue_get (db : Store) (pk : Z) : option Queue.t :=
  find (fun e => Queue.id e =? pk) (Queue_table db).

(** [Queue.query.filter_by(user_id=...)]. *)
Definition Queue_by_user (db : Store) (user_id : string) : list Queue.t :=
  filter (fun e => String.eqb (Queue.user_id e) user_id) (Queue_table db).

(** [Queue.query.filter_by(doctor_id=...)]. *)
Definition Queue_by_doctor (db : Store) (doctor_id : string) : list Queue.t :=
  filter (fun e => String.eqb (Queue.doctor_id e) doctor_id) (Queue_table db).

(** [.order_by(Queue.joined_at)]; rows with equal timestamps stay in storage
    order. *)
Definition order_by_joined_at (rows : list Queue.t) : list Queue.t :=
  sorted Z.ltb Queue.joined_at rows.

(** [list.index(x)] on mapped rows: two loaded rows are the same object
    exactly when they have the same primary key. *)
Fixpoint index (x : Queue.t) (l : list Queue.t) : result Z :=
  match l with
  | [] => Raise ValueError
  | y :: l' =>
      if Queue.id y =? Queue.id x then Ok 0
      else i <- index x l' ;; Ok (i + 1)
  end.

(** ** Helpers *)

Definition sort_queue (queue_list : list Queue.t) : list Queue.t :=
  sorted (tuple_lt Bool.eqb bool_lt Z.ltb)
         (fun x => (Queue.is_emergency x, Queue.joined_at x))
         queue_list.

Definition not_None (l : list (option Z)) : list Z :=
  flat_map (fun d => match d with Some n => [n] | None => [] end) l.

Definition sum (l : list Z) : Z := fold_right Z.add 0 l.

Definition estimate_wait_time (db : Store) (doctor_id : string) : result Z :=
  let historical_durations :=
    map Consultation.duration_minutes
        (filter (fun c => String.eqb (Consultation.doctor_id c) doctor_id)
                (Consultation_table db)) in
  match historical_durations with
  | [] => Ok 15
  | _ :: _ =>
      let durations := not_None historical_durations in
      match durations with
      | [] => Ok 15
      | _ :: _ =>
          avg_duration <- py_truediv (sum durations) (count durations) ;;
          let queue_length := count (Queue_by_doctor db doctor_id) in
          estimated_time <- py_int_mul_float queue_length avg_duration ;;
          py_int_of_float estimated_time
      end
  end.

(** ** Routes *)

Definition message (text : string) : json := JObj [("message", JStr text)].

Definition get_doctors (db : Store) : response :=
  let doctors :=
    filter (fun u => String.eqb (User.role u) "doctor") (User_table db) in
  (JArr (map User.to_dict doctors), 200).

(** The JSON body of a join request; [is_emergency] may be absent. *)
Record join_request := {
  req_user_id : string;
  req_doctor_id : string;
  req_is_emergency : option bool
}.

Definition join_queue (db : Store) (data : join_request) (now : datetime)
    : response * Store :=
  let user_id := req_user_id data in
  let doctor_id := req_doctor_id data in
  let is_emergency :=
    match req_is_emergency data with Some b => b | None => false end in
  match first (Queue_by_user db user_id) with
  | Some _ => ((message "You are already in a queue", 409), db)
  | None =>
      let s := session_add (New_Queue user_id doctor_id is_emergency) [] in
      ((message "Successfully joined the queue", 201), commit now db s)
  end.

Definition get_queue_position (db : Store) (user_id : string)
    : result response :=
  match first (Queue_by_user db user_id) with
  | None => Ok (message "Not in a queue", 404)
  | Some queue_entry =>
      let doctor_queue :=
        order_by_joined_at
          (Queue_by_doctor db (Queue.doctor_id queue_entry)) in
      i <- index queue_entry doctor_queue ;;
      let position := i + 1 in
      estimated_wait <- estimate_wait_time db (Queue.doctor_id queue_entry) ;;
      Ok (JObj [ ("position", JInt position);
                 ("doctor_id", JStr (Queue.doctor_id queue_entry));
                 ("estimated_wait_minutes", JInt estimated_wait) ], 200)
  end.

Definition patient_item (entry : Queue.t) (user : User.t) : json :=
  JObj [ ("queue_id", JInt (Queue.id entry));
         ("user_id", JStr (User.id user));
         ("name", JStr (py_str (User.first_name user) ++ " " ++
                        py_str (User.last_name user))%string);
         ("joined_at", JDatetime (Queue.joined_at entry));
         ("is_emergency", JBool (Queue.is_emergency entry)) ].

Definition get_doctor_queue (db : Store) (doctor_id : string) : response :=
  let queue_entries := Queue_by_doctor db doctor_id in
  let sorted_entries :=
    sorted (tuple_lt Bool.eqb bool_lt Z.ltb)
           (fun x => (negb (Queue.is_emergency x), Queue.joined_at x))
           queue_entries in
  let patients :=
    fold_left
      (fun patients entry =>
         match User_get db (Queue.user_id entry) with
         | Some user => patients ++ [patient_item entry user]
         | None => patients
         end)
      sorted_entries [] in
  (JArr patients, 200).

Definition complete_consultation (db : Store) (queue_id : Z) (now : datetime)
    : response * Store :=
  match Queue_get db queue_id with
  | None => ((message "Queue entry not found", 404), db)
  | Some queue_entry =>
      let duration :=
        seconds (datetime_sub now (Queue.joined_at queue_entry)) / 60 in
      let new_consultation :=
        New_Consultation (Queue.user_id queue_entry)
                         (Queue.doctor_id queue_entry)
                         (Queue.joined_at queue_entry)
                         now
                         (if 0 <? duration then duration else 1) in
      let s := session_add new_consultation [] in
      let s := session_delete queue_entry s in
      ((message "Consultation completed successfully", 200), commit now db s)
  end.

(** ** Vocabulary of the properties *)

(** Primary keys of the queue table are pairwise distinct. *)
Definition unique_queue_ids (db : Store) : Prop :=
  NoDup (map Queue.id (Queue_table db)).

(** The display order of the doctor's queue: [x] may stand before [y] when
    [x] is an emergency and [y] is not, or when both have the same flag and
    [x] did not join later. *)
Definition emergency_first (x y : Queue.t) : Prop :=
  (Queue.is_emergency x = true /\ Queue.is_emergency y = false) \/
  (Queue.is_emergency x = Queue.is_emergency y /\
   Queue.joined_at x <= Queue.joined_at y).

(** The order [sort_queue] produces: the flag ascending, so emergencies
    last. *)
Definition emergency_last (x y : Queue.t) : Prop :=
  (Queue.is_emergency x = false /\ Queue.is_emergency y = true) \/
  (Queue.is_emergency x = Queue.is_emergency y /\
   Queue.joined_at x <= Queue.joined_at y).

Definition has_user (db : Store) (entry : Queue.t) : bool :=
  match User_get db (Queue.user_id entry) with
  | Some _ => true
  | None => false
  end.

(** What the listing shows for one entry: an item when the patient is a
    known user, nothing otherwise. *)
Definition listing_item (db : Store) (entry : Queue.t) : list json :=
  match User_get db (Queue.user_id entry) with
  | Some user => [patient_item entry user]
  | None => []
  end.

(** The sort keys of the three orderings in the code. *)
Definition display_key (x : Queue.t) : bool * datetime :=
  (negb (Queue.is_emergency x), Queue.joined_at x).

Definition helper_key (x : Queue.t) : bool * datetime :=
  (Queue.is_emergency x, Queue.joined_at x).

Definition flag_time_lt : bool * datetime -> bool * datetime -> bool :=
  tuple_lt Bool.eqb bool_lt Z.ltb.

(** The [queue_id] of every item of a listing, in order. *)
Definition listed_queue_ids (r : response) : list Z :=
  flat_map (fun item => match field "queue_id" item with
                        | Some (JInt n) => [n]
                        | _ => []
                        end)
           (items_of (fst r)).

(** The reading of the listing that shows every entry of the doctor. *)
Definition lists_every_entry (db : Store) (doctor_id : string) : Prop :=
  exists l,
    Permutation l (filter (fun e => String.eqb (Queue.doctor_id e) doctor_id)
                          (Queue_table db)) /\
    StronglySorted emergency_first l /\
    listed_queue_ids (get_doctor_queue db doctor_id) = map Queue.id l.

(** The non-null historical durations of a doctor. *)
Definition durations_of (db : Store) (doctor_id : string) : list Z :=
  not_None
    (map Consultation.duration_minutes
         (filter (fun c => String.eqb (Consultation.doctor_id c) doctor_id)
                 (Consultation_table db))).

(** Mean times queue length in exact arithmetic, truncated toward zero. *)
Definition exact_estimate (durations : list Z) (queue_length : Z) : Z :=
  Z.quot (sum durations * queue_length) (count durations).

(** The reading of the estimator as exact arithmetic. *)
Definition estimates_exactly (db : Store) (doctor_id : string) : Prop :=
  estimate_wait_time db doctor_id =
  Ok (match durations_of db doctor_id with
      | [] => 15
      | ds =>
          exact_estimate ds
            (count (filter (fun e => String.eqb (Queue.doctor_id e) doctor_id)
                           (Queue_table db)))
      end).

(** Whole minutes from [joined_at] to [now], at least 1. *)
Definition elapsed_minutes (joined_at now : datetime) : Z :=
  Z.max 1 (whole_seconds (datetime_sub now joined_at) / 60).

(** Entries stored ahead of [e]. *)
Fixpoint stored_before (e : Queue.t) (rows : list Queue.t) : list Queue.t :=
  match rows with
  | [] => []
  | y :: rows' =>
      if Queue.id y =? Queue.id e then [] else y :: stored_before e rows'
  end.

(** The 1-based chronological rank of [e] among [rows]: one more than the
    number of rows that joined earlier, rows with the same timestamp counted
    when stored ahead of [e]. The emergency flag plays no part. *)
Definition chronological_rank (e : Queue.t) (rows : list Queue.t) : Z :=
  1 + count (filter (fun x => Queue.joined_at x <? Queue.joined_at e) rows)
    + count (filter (fun x => Queue.joined_at x =? Queue.joined_at e)
                    (stored_before e rows)).

(** The rank of [e] in the queue of its doctor, read off the queue table:
    one more than the number of stored entries with the doctor_id of [e]
    that joined earlier, entries with the same timestamp counted when they
    are stored ahead of [e]. *)
Definition rank_for_doctor (db : Store) (e : Queue.t) : Z :=
  1 + count (filter (fun x => String.eqb (Queue.doctor_id x) (Queue.doctor_id e)
                              && (Queue.joined_at x <? Queue.joined_at e))
                    (Queue_table db))
    + count (filter (fun x => String.eqb (Queue.doctor_id x) (Queue.doctor_id e)
                              && (Queue.joined_at x =? Queue.joined_at e))
                    (stored_before e (Queue_table db))).

(** An entry with its emergency flag rewritten, and the store with the
    flag of every queue entry rewritten. *)
Definition with_flag (f : Queue.t -> bool) (e : Queue.t) : Queue.t :=
  {| Queue.id := Queue.id e;
     Queue.user_id := Queue.user_id e;
     Queue.doctor_id := Queue.doctor_id e;
     Queue.joined_at := Queue.joined_at e;
     Queue.is_emergency := f e |}.

Definition with_flags (f : Queue.t -> bool) (db : Store) : Store :=
  {| User_table := User_table db;
     Queue_table := map (with_flag f) (Queue_table db);
     Consultation_table := Consultation_table db |}.

(** The reading of the doctor listing that exposes passwords. *)
Definition doctors_expose_password (db : Store) : Prop :=
  forall u, In u (User_table db) -> User.role u = "doctor" ->
    exists record, In record (items_of (fst (get_doctors db))) /\
                   field "password" record = Some (JStr (User.password u)).

(** ** Sample data *)

Definition empty_db : Store :=
  {| User_table := []; Queue_table := []; Consultation_table := [] |}.

Definition a_user (id role : string) : User.t :=
  {| User.id := id;
     User.email := (id ++ "@clinic.test")%string;
     User.password := "secret";
     User.role := role;
     User.first_name := Some "Ada";
     User.last_name := Some "Byron";
     User.specialty := None |}.

Definition an_entry (id : Z) (user doctor : string) (t : datetime)
    (emergency : bool) : Queue.t :=
  {| Queue.id := id;
     Queue.user_id := user;
     Queue.doctor_id := doctor;
     Queue.joined_at := t;
     Queue.is_emergency := emergency |}.

Definition a_visit (id : Z) (doctor : string) (duration : option Z)
    : Consultation.t :=
  {| Consultation.id := id;
     Consultation.patient_id := "p";
     Consultation.doctor_id := doctor;
     Consultation.start_time := 0;
     Consultation.end_time := 0;
     Consultation.duration_minutes := duration |}.

Definition clinic_users : list User.t :=
  [a_user "d1" "doctor"; a_user "p1" "patient"; a_user "p2" "patient";
   a_user "p3" "patient"].

(** Three patients of doctor d1: the second one is an emergency. *)
Definition clinic_db : Store :=
  {| User_table := clinic_users;
     Queue_table := [an_entry 1 "p1" "d1" 100 false;
                     an_entry 2 "p2" "d1" 200 true;
                     an_entry 3 "p3" "d1" 300 false];
     Consultation_table := [] |}.

(** The store after an unregistered id joined d1's queue. *)
Definition ghost_db : Store :=
  snd (join_queue
         {| User_table := clinic_users; Queue_table := [];
            Consultation_table := [] |}
         {| req_user_id := "ghost"; req_doctor_id := "d1";
            req_is_emergency := None |}
         100).

(** Seven visits of 61 minutes in total, and seven patients waiting. *)
Definition busy_db : Store :=
  {| User_table := clinic_users;
     Queue_table := map (fun i => an_entry i "p" "d1" (100 * i) false)
                        [1; 2; 3; 4; 5; 6; 7];
     Consultation_table :=
       map (fun p => a_visit (fst p) "d1" (Some (snd p)))
           [(1, 8); (2, 8); (3, 9); (4, 9); (5, 9); (6, 9); (7, 9)] |}.

(** Durations 10, 20 and 30 on record, one of the visits without a
    duration, and two patients waiting. *)
Definition steady_db : Store :=
  {| User_table := clinic_users;
     Queue_table := [an_entry 1 "p1" "d1" 100 false;
                     an_entry 2 "p2" "d1" 200 true];
     Consultation_table := [a_visit 1 "d1" (Some 10); a_visit 2 "d1" None;
                            a_visit 3 "d1" (Some 20); a_visit 4 "d2" (Some 7);
                            a_visit 5 "d1" (Some 30)] |}.

(** Only visits without a duration on record. *)
Definition blank_db : Store :=
  {| User_table := clinic_users;
     Queue_table := [an_entry 1 "p1" "d1" 100 false];
     Consultation_table := [a_visit 1 "d1" None; a_visit 2 "d1" None] |}.

(** One day and five minutes, in microseconds. *)
Definition a_day_and_five_minutes : Z := 86400000000 + 300000000.

(** A single patient who joined at the origin of time. *)
Definition overnight_db : Store :=
  {| User_table := clinic_users;
     Queue_table := [an_entry 1 "p1" "d1" 0 false];
     Consultation_table := [] |}.

(** Two doctors at work. Doctor d1 has the entries 1, 3 and 5, the second
    of them an emergency, and the durations 10, 20 and 30 on record; doctor
    d2 has the entries 2 and 4 and one visit of 7 minutes. *)
Definition shared_users : list User.t :=
  clinic_users ++
  [a_user "d2" "doctor"; a_user "q1" "patient"; a_user "q2" "patient"].

Definition shared_visits : list Consultation.t :=
  [a_visit 1 "d1" (Some 10); a_visit 2 "d2" (Some 7); a_visit 3 "d1" None;
   a_visit 4 "d1" (Some 20); a_visit 5 "d1" (Some 30)].

Definition shared_db : Store :=
  {| User_table := shared_users;
     Queue_table := [an_entry 1 "p1" "d1" 100 false;
                     an_entry 2 "q1" "d2" 150 false;
                     an_entry 3 "p2" "d1" 200 true;
                     an_entry 4 "q2" "d2" 250 true;
                     an_entry 5 "p3" "d1" 300 false];
     Consultation_table := shared_visits |}.

(** The same clinic with two patients waiting for d1 and two for d2. *)
Definition shared_pair_db : Store :=
  {| User_table := shared_users;
     Queue_table := [an_entry 1 "p1" "d1" 100 false;
                     an_entry 2 "q1" "d2" 150 false;
                     an_entry 3 "p2" "d1" 200 true;
                     an_entry 4 "q2" "d2" 250 true];
     Consultation_table := shared_visits |}.

(** The clinic with two doctors before any visit of d2 is on record. *)
Definition opening_db : Store :=
  {| User_table := shared_users;
     Queue_table := Queue_table shared_db;
     Consultation_table := [a_visit 1 "d1" (Some 10)] |}.

(** ** Registration and login *)

(** What the handlers let escape: a missing key of the request body, a
    constraint the store refuses to break, an integer the driver cannot bind
    (SQLite integers are signed 64-bit: Python's OverflowError), and a
    statement the store refuses for a reason of its own (a locked or full
    database: SQLAlchemy's OperationalError). *)
Inductive failure :=
| KeyError (key : string)
| IntegrityError
| IntegerOverflow
| OperationalError.

Inductive outcome (A : Type) : Type :=
| Done (a : A)
| Unhandled (f : failure).
Arguments Done {A} a.
Arguments Unhandled {A} f.

(** What the request body holds under one key: nothing (the key is absent),
    JSON null, or a string. *)
Inductive body_value := Absent | Null | Str (s : string).

(** The JSON body of a registration. *)
Record register_request := {
  reg_email : body_value;
  reg_password : body_value;
  reg_role : body_value;
  reg_firstName : body_value;
  reg_lastName : body_value;
  reg_specialty : body_value
}.

(** [key in data]. *)
Definition has_key (v : body_value) : bool :=
  match v with
  | Absent => false
  | _ => true
  end.

(** [data[key]] for a key that is there: JSON null is Python's [None]. *)
Definition get_item (v : body_value) : option string :=
  match v with
  | Str s => Some s
  | _ => None
  end.

(** [data.get(key, '')]: the default stands in for an absent key only, a
    null stays [None]. *)
Definition get_or_empty (v : body_value) : option string :=
  match v with
  | Absent => Some ""
  | Null => None
  | Str s => Some s
  end.

(** The INSERT of a user: the store refuses a primary key or an email that
    is already taken. *)
Definition insert_User (db : Store) (u : User.t) : option Store :=
  if existsb (fun x => String.eqb (User.id x) (User.id u) ||
                       String.eqb (User.email x) (User.email u))
             (User_table db)
  then None
  else Some {| User_table := User_table db ++ [u];
               Queue_table := Queue_table db;
               Consultation_table := Consultation_table db |}.

(** [uuid] is the string that the column default [str(uuid.uuid4())]
    draws for the new row. The columns email, password and role are not
    nullable: a row with [None] in one of them is refused by the store, like
    a row with a taken email. *)
Definition register (db : Store) (data : register_request) (uuid : string)
    : outcome response * Store :=
  if negb (has_key (reg_email data) && has_key (reg_password data) &&
           has_key (reg_role data))
  then (Done (message "Missing required fields", 400), db)
  else
    match get_item (reg_email data), get_item (reg_password data),
          get_item (reg_role data) with
    | Some email, Some password, Some role =>
        let new_user :=
          {| User.id := uuid;
             User.email := email;
             User.password := password;
             User.role := role;
             User.first_name := get_or_empty (reg_firstName data);
             User.last_name := get_or_empty (reg_lastName data);
             User.specialty := get_or_empty (reg_specialty data) |} in
        match insert_User db new_user with
        | Some db' =>
            (Done (JObj [ ("message", JStr "User registered successfully");
                          ("user_id", JStr (User.id new_user)) ], 201), db')
        | None => (Unhandled IntegrityError, db)
        end
    | _, _, _ => (Unhandled IntegrityError, db)
    end.

(** How a name given in the request reads in a user record: the string
    itself, the empty string for a key the request lacks, null for a key
    given as null. *)
Definition shown (v : body_value) : json :=
  match v with
  | Absent => JStr ""
  | Null => JNull
  | Str s => JStr s
  end.

Record login_request := {
  login_email : option string;
  login_password : option string
}.

(** [User.query.filter_by(email=..., password=...)]. *)
Definition User_by_credentials (db : Store) (email password : string)
    : list User.t :=
  filter (fun u => String.eqb (User.email u) email &&
                   String.eqb (User.password u) password)
         (User_table db).

Definition login (db : Store) (data : login_request) : outcome response :=
  match login_email data with
  | None => Unhandled (KeyError "email")
  | Some email =>
      match login_password data with
      | None => Unhandled (KeyError "password")
      | Some password =>
          match first (User_by_credentials db email password) with
          | Some user =>
              Done (JObj [ ("message", JStr "Login successful");
                           ("user_id", JStr (User.id user));
                           ("role", JStr (User.role user)) ], 200)
          | None => Done (message "Invalid credentials", 401)
          end
      end
  end.

(** ** The completion handler and the database layer *)

(** The integers the driver can bind as a key: SQLite integers are signed
    64-bit, and binding any other int raises OverflowError before a
    statement is sent. *)
Definition sqlite_integer (n : Z) : bool := (- 2 ^ 63 <=? n) && (n <? 2 ^ 63).

(** [db.session.commit()] on a store that may refuse. The unit of work is
    sent statement by statement inside one transaction and closed by COMMIT;
    [refused k] tells whether the store refuses the statement number [k] of
    the request, COMMIT included. A refusal rolls the transaction back:
    nothing of it is kept, and the exception escapes. *)
Fixpoint try_commit (refused : nat -> bool) (k : nat) (now : datetime)
    (db : Store) (s : session) : option Store :=
  match s with
  | [] => if refused k then None else Some db
  | op :: s' =>
      if refused k then None
      else try_commit refused (S k) now (flush now db op) s'
  end.

(** The completion handler with the two ways the database layer makes it
    fail: the lookup of a key that is no SQLite integer, and a refused
    statement of its one transaction. [complete_consultation] above is this
    handler on a store that refuses nothing, for a key the driver can
    bind. *)
Definition complete_consultation_on (refused : nat -> bool) (db : Store)
    (queue_id : Z) (now : datetime) : outcome response * Store :=
  if negb (sqlite_integer queue_id) then (Unhandled IntegerOverflow, db)
  else
    match Queue_get db queue_id with
    | None => (Done (message "Queue entry not found", 404), db)
    | Some queue_entry =>
        let duration :=
          seconds (datetime_sub now (Queue.joined_at queue_entry)) / 60 in
        let new_consultation :=
          New_Consultation (Queue.user_id queue_entry)
                           (Queue.doctor_id queue_entry)
                           (Queue.joined_at queue_entry)
                           now
                           (if 0 <? duration then duration else 1) in
        let s := session_add new_consultation [] in
        let s := session_delete queue_entry s in
        match try_commit refused 0 now db s with
        | Some db' =>
            (Done (message "Consultation completed successfully", 200), db')
        | None => (Unhandled OperationalError, db)
        end
    end.

(** The reading of the completion handler that answers not-found for
    every key that names no entry. *)
Definition answers_not_found (db : Store) (queue_id : Z) (now : datetime)
    : Prop :=
  (forall e, In e (Queue_table db) -> Queue.id e <> queue_id) ->
  complete_consultation_on (fun _ => false) db queue_id now =
  (Done (message "Queue entry not found", 404), db).

(** ** The service as a state machine *)

(** The requests that write to the store. *)
Inductive request :=
| Register (data : register_request) (uuid : string)
| Join (data : join_request)
| Complete (queue_id : Z).

Definition handle (db : Store) (r : request) (now : datetime) : Store :=
  match r with
  | Register data uuid => snd (register db data uuid)
  | Join data => snd (join_queue db data now)
  | Complete queue_id => snd (complete_consultation db queue_id now)
  end.

(** A run: each request with the clock reading at which it is served. *)
Definition serve (db : Store) (run : list (request * datetime)) : Store :=
  fold_left (fun db step => handle db (fst step) (snd step)) run db.

(** What every run keeps: distinct primary keys, one queue entry per user,
    one account per email, and a duration between 1 and 1439 minutes on
    every consultation. *)
Definition duration_in_range (c : Consultation.t) : Prop :=
  exists m, Consultation.duration_minutes c = Some m /\ 1 <= m <= 1439.

Definition well_kept (db : Store) : Prop :=
  NoDup (map Queue.id (Queue_table db)) /\
  NoDup (map Queue.user_id (Queue_table db)) /\
  NoDup (map User.id (User_table db)) /\
  NoDup (map User.email (User_table db)) /\
  NoDup (map Consultation.id (Consultation_table db)) /\
  Forall duration_in_range (Consultation_table db).

(** The entries with a given flag and timestamp. *)
Definition same_key (b : bool) (t : datetime) (x : Queue.t) : bool :=
  Bool.eqb (Queue.is_emergency x) b && (Queue.joined_at x =? t).

(** The [position] reported by an answer of the position handler. *)
Definition position_of (r : response) : option Z :=
  match field "position" (fst r) with
  | Some (JInt p) => Some p
  | _ => None
  end.

(** A float that is a number: a zero or a finite value. *)
Definition finite_or_zero (x : float) : Prop :=
  match x with
  | S754_zero _ | S754_finite _ _ _ => True
  | _ => False
  end.

(** A zero, or a finite float whose mantissa digits and exponent add up to
    at most [k]: its absolute value is below [2^k]. *)
Definition magnitude_le (k : Z) (x : float) : Prop :=
  match x with
  | S754_zero _ => True
  | S754_finite _ m e => Zpos (digits2_pos m) + e <= k
  | _ => False
  end.

(** A doctor with one visit on record and nobody waiting. *)
Definition idle_db : Store :=
  {| User_table := clinic_users;
     Queue_table := [];
     Consultation_table := [a_visit 1 "d1" (Some 12)] |}.

(** ** Rounding, said without the float operations *)

(** The integer nearest to [p / q], the even one of the two when [p / q]
    lies half-way. *)
Definition round_half_even (p q : Z) : Z :=
  let f := p / q in
  match 2 * (p mod q) ?= q with
  | Lt => f
  | Eq => if Z.even f then f else f + 1
  | Gt => f + 1
  end.

(** [m * 2^e] is the double nearest to the number [a * 2^k / b]: with [e]
    the exponent at which the number has 53 binary digits before the point,
    that is [2^52 <= a * 2^k / b / 2^e < 2^53], [m] is that quotient rounded
    to the nearest integer, ties to even. *)
Definition nearest_double (a b k m e : Z) : Prop :=
  let p := a * 2 ^ Z.max 0 (k - e) in
  let q := b * 2 ^ Z.max 0 (e - k) in
  2 ^ 52 <= p / q < 2 ^ 53 /\ m = round_half_even p q.

(** The integer part of [m * 2^e], for [m >= 0]. *)
Definition truncate (m e : Z) : Z :=
  if e <? 0 then m / 2 ^ (- e) else m * 2 ^ e.

(** The float with mantissa [m] and exponent [e]; a mantissa that rounding
    carried to [2^53] is renormalised. *)
Definition double_of (s : bool) (m e : Z) : float :=
  if m <? 2 ^ 53 then S754_finite s (Z.to_pos m) e
  else S754_finite s (Z.to_pos (2 ^ 52)) (e + 1).

(** What a rounding record of [SpecFloat] holds about the fraction [A / B]:
    its integer part, whether the remainder reaches one half (the round
    bit), and whether anything is left besides that half (the sticky
    bit). *)
Definition represents (A B : Z) (r : shr_record) : Prop :=
  0 <= A /\ 0 < B /\ shr_m r = A / B /\
  (shr_r r = true <-> B <= 2 * (A mod B)) /\
  (shr_s r = true <-> A mod B <> 0 /\ 2 * (A mod B) <> B).

(** * Properties *)

(** ** [sorted] is a stable sort *)

Section SortedFacts.
Context {A K : Type}.
Variable lt : K -> K -> bool.
Variable key : A -> K.

(** [lt] is a strict weak order on keys. *)
Hypothesis lt_asym : forall a b, lt a b = true -> lt b a = false.
Hypothesis le_trans :
  forall a b c, lt b a = false -> lt c b = false -> lt c a = false.

Local Abbreviation key_le := (key_le lt key).

Lemma insort_perm x l : Permutation (insort lt key x l) (x :: l).
Proof.
  induction l as [|y l IH]; simpl.
  - reflexivity.
  - destruct (lt (key y) (key x)).
    + rewrite IH. apply perm_swap.
    + reflexivity.
Qed.

Lemma sorted_perm l : Permutation (sorted lt key l) l.
Proof.
  induction l as [|x l IH]; simpl.
  - constructor.
  - rewrite insort_perm. now constructor.
Qed.

Lemma insort_sorted x l :
  StronglySorted key_le l -> StronglySorted key_le (insort lt key x l).
Proof.
  induction 1 as [|y l Hs IH Hy]; simpl.
  - repeat constructor.
  - destruct (lt (key y) (key x)) eqn:E.
    + constructor; [exact IH|].
      eapply Permutation_Forall.
      * symmetry. apply insort_perm.
      * constructor; [|exact Hy]. unfold key_le. now apply lt_asym.
    + constructor; [now constructor|].
      constructor; [exact E|].
      eapply Forall_impl; [|exact Hy].
      intros z Hz. unfold key_le in *. eapply le_trans; eassumption.
Qed.

Lemma sorted_sorted l : StronglySorted key_le (sorted lt key l).
Proof.
  induction l as [|x l IH]; simpl.
  - constructor.
  - now apply insort_sorted.
Qed.

(** Filtering commutes with sorting: the survivors keep their order. *)
Lemma filter_insort p x l :
  StronglySorted key_le l ->
  filter p (insort lt key x l) =
  if p x then insort lt key x (filter p l) else filter p l.
Proof.
  induction 1 as [|y l Hs IH Hy]; simpl.
  - now destruct (p x).
  - destruct (lt (key y) (key x)) eqn:E; simpl.
    + rewrite IH. destruct (p y), (p x); simpl; try rewrite E; reflexivity.
    + destruct (p x) eqn:Px; [|reflexivity].
      destruct (p y); simpl; [now rewrite E|].
      clear IH. induction Hy as [|z l Hz Hl IHl]; simpl; [reflexivity|].
      destruct (p z); simpl.
      * assert (lt (key z) (key x) = false) as ->; [|reflexivity].
        unfold key_le in Hz. eapply le_trans; eassumption.
      * apply IHl. now inversion Hs.
Qed.

Lemma filter_sorted p l :
  filter p (sorted lt key l) = sorted lt key (filter p l).
Proof.
  induction l as [|x l IH]; simpl; [reflexivity|].
  rewrite filter_insort by apply sorted_sorted.
  rewrite IH. now destruct (p x).
Qed.

(** A list sorted by an order that is antisymmetric on its members is the
    only sorted arrangement of those members. *)
Lemma sorted_unique (R : A -> A -> Prop) l l' :
  (forall x y, In x l -> In y l -> R x y -> R y x -> x = y) ->
  StronglySorted R l -> StronglySorted R l' -> Permutation l l' -> l = l'.
Proof.
  intros Hanti Hl. revert l' Hanti.
  induction Hl as [|x l Hs IH Hx]; intros l' Hanti Hl' Hp.
  - apply Permutation_nil in Hp. now subst.
  - destruct Hl' as [|y l' Hs' Hy].
    + symmetry in Hp. now apply Permutation_nil in Hp.
    + assert (x = y) as <-.
      { assert (In y (x :: l)) as Iy
          by (eapply Permutation_in; [symmetry; exact Hp|now left]).
        assert (In x (y :: l')) as Ix
          by (eapply Permutation_in; [exact Hp|now left]).
        destruct Iy as [->|Iy]; [reflexivity|].
        destruct Ix as [->|Ix]; [reflexivity|].
        apply Hanti; [now left|now right| |].
        - rewrite Forall_forall in Hx. now apply Hx.
        - rewrite Forall_forall in Hy. now apply Hy. }
      f_equal. apply IH.
      * intros a b Ha Hb. apply Hanti; now right.
      * exact Hs'.
      * eapply Permutation_cons_inv; exact Hp.
Qed.
End SortedFacts.

(** ** The orderings used by the code *)

Lemma flag_time_lt_asym a b :
  flag_time_lt a b = true -> flag_time_lt b a = false.
Proof.
  destruct a as [[] x], b as [[] y]; unfold flag_time_lt, tuple_lt; simpl;
    try discriminate; try reflexivity;
    rewrite Z.ltb_lt, Z.ltb_ge; lia.
Qed.

Lemma flag_time_le_trans a b c :
  flag_time_lt b a = false -> flag_time_lt c b = false ->
  flag_time_lt c a = false.
Proof.
  destruct a as [[] x], b as [[] y], c as [[] z];
    unfold flag_time_lt, tuple_lt; simpl;
    try discriminate; try reflexivity;
    rewrite !Z.ltb_ge; lia.
Qed.

Lemma ltb_asym (a b : Z) : (a <? b) = true -> (b <? a) = false.
Proof. rewrite Z.ltb_lt, Z.ltb_ge. lia. Qed.

Lemma leb_trans (a b c : Z) :
  (b <? a) = false -> (c <? b) = false -> (c <? a) = false.
Proof. rewrite !Z.ltb_ge. lia. Qed.

Lemma display_order x y :
  key_le flag_time_lt display_key x y <-> emergency_first x y.
Proof.
  unfold key_le, display_key, emergency_first, flag_time_lt, tuple_lt; simpl.
  destruct (Queue.is_emergency x), (Queue.is_emergency y); simpl;
    rewrite ?Z.ltb_ge; intuition (try discriminate; try lia).
Qed.

Lemma helper_order x y :
  key_le flag_time_lt helper_key x y <-> emergency_last x y.
Proof.
  unfold key_le, helper_key, emergency_last, flag_time_lt, tuple_lt; simpl.
  destruct (Queue.is_emergency x), (Queue.is_emergency y); simpl;
    rewrite ?Z.ltb_ge; intuition (try discriminate; try lia).
Qed.

Lemma StronglySorted_impl {A : Type} (R R' : A -> A -> Prop) l :
  (forall x y, R x y -> R' x y) -> StronglySorted R l -> StronglySorted R' l.
Proof.
  intros HR. induction 1 as [|x l Hs IH Hx]; constructor; [exact IH|].
  eapply Forall_impl; [|exact Hx]. intros; now apply HR.
Qed.

Lemma display_sorted l :
  StronglySorted emergency_first (sorted flag_time_lt display_key l).
Proof.
  eapply StronglySorted_impl; [intros x y; apply display_order|].
  apply sorted_sorted; [apply flag_time_lt_asym|apply flag_time_le_trans].
Qed.

Lemma helper_sorted l :
  StronglySorted emergency_last (sorted flag_time_lt helper_key l).
Proof.
  eapply StronglySorted_impl; [intros x y; apply helper_order|].
  apply sorted_sorted; [apply flag_time_lt_asym|apply flag_time_le_trans].
Qed.

(** ** The doctor-queue listing *)

Lemma patients_loop db l acc :
  fold_left
    (fun patients entry =>
       match User_get db (Queue.user_id entry) with
       | Some user => patients ++ [patient_item entry user]
       | None => patients
       end) l acc
  = acc ++ flat_map (listing_item db) l.
Proof.
  revert acc. induction l as [|e l IH]; intros acc; simpl.
  - now rewrite app_nil_r.
  - rewrite IH. unfold listing_item at 2.
    destruct (User_get db (Queue.user_id e)); simpl.
    + now rewrite <- app_assoc.
    + reflexivity.
Qed.

Lemma get_doctor_queue_eq db d :
  get_doctor_queue db d =
  (JArr (flat_map (listing_item db)
                  (sorted flag_time_lt display_key (Queue_by_doctor db d))),
   200).
Proof.
  unfold get_doctor_queue. now rewrite patients_loop.
Qed.

Lemma listing_item_known db l :
  flat_map (listing_item db) l =
  flat_map (listing_item db) (filter (has_user db) l).
Proof.
  induction l as [|e l IH]; simpl; [reflexivity|].
  unfold has_user, listing_item at 1.
  destruct (User_get db (Queue.user_id e)) eqn:E; simpl.
  - unfold listing_item at 2. rewrite E. simpl. now f_equal.
  - exact IH.
Qed.

Lemma listed_ids_of_items db l :
  listed_queue_ids (JArr (flat_map (listing_item db) l), 200) =
  map Queue.id (filter (has_user db) l).
Proof.
  unfold listed_queue_ids; simpl.
  induction l as [|e l IH]; simpl; [reflexivity|].
  rewrite flat_map_app. unfold has_user, listing_item at 1.
  destruct (User_get db (Queue.user_id e)); simpl; now rewrite IH.
Qed.

(** The entries shown, in the order shown. *)
Lemma listed_queue_ids_eq db d :
  listed_queue_ids (get_doctor_queue db d) =
  map Queue.id
      (sorted flag_time_lt display_key
              (filter (has_user db) (Queue_by_doctor db d))).
Proof.
  rewrite get_doctor_queue_eq, listed_ids_of_items.
  rewrite filter_sorted;
    [reflexivity|apply flag_time_lt_asym|apply flag_time_le_trans].
Qed.

Lemma filter_perm {A : Type} (p : A -> bool) l l' :
  Permutation l l' -> Permutation (filter p l) (filter p l').
Proof.
  induction 1 as [|x l l' H IH|x y l|l l' l'' H1 IH1 H2 IH2]; simpl.
  - constructor.
  - destruct (p x); [now constructor|exact IH].
  - destruct (p x), (p y); try reflexivity. apply perm_swap.
  - now transitivity (filter p l').
Qed.

Lemma listed_entries db d :
  exists l,
    Permutation l (filter (has_user db) (Queue_by_doctor db d)) /\
    StronglySorted emergency_first l /\
    get_doctor_queue db d = (JArr (flat_map (listing_item db) l), 200) /\
    listed_queue_ids (get_doctor_queue db d) = map Queue.id l.
Proof.
  exists (sorted flag_time_lt display_key
                 (filter (has_user db) (Queue_by_doctor db d))).
  split; [apply sorted_perm|].
  split; [apply display_sorted|].
  split; [|apply listed_queue_ids_eq].
  rewrite get_doctor_queue_eq, listing_item_known. f_equal. f_equal. f_equal.
  apply filter_sorted; [apply flag_time_lt_asym|apply flag_time_le_trans].
Qed.

Lemma filter_filter_andb {A : Type} (p q : A -> bool) l :
  filter p (filter q l) = filter (fun x => q x && p x) l.
Proof.
  induction l as [|a l IH]; simpl; [reflexivity|].
  destruct (q a); simpl; [destruct (p a)|]; now rewrite IH.
Qed.

(** C1, as amended: for every doctor_id the doctor-queue listing returns,
    with status 200, one item for each stored queue entry whose doctor_id is
    the given one and whose user_id names an existing User, and no other
    item; the items are ordered with is_emergency descending first and
    joined_at ascending as tie-breaker. In particular, when the stored
    entries with that doctor_id are three entries of known users with
    joined_at t1 < t2 < t3 and is_emergency false, true, false, the returned
    order is entry2, entry1, entry3. *)
Theorem get_doctor_queue_lists_known_patients db doctor_id :
  (exists l,
     Permutation l
       (filter (fun e => String.eqb (Queue.doctor_id e) doctor_id &&
                         has_user db e)
               (Queue_table db)) /\
     (forall e, In e l <->
                In e (Queue_table db) /\ Queue.doctor_id e = doctor_id /\
                exists user, User_get db (Queue.user_id e) = Some user) /\
     StronglySorted emergency_first l /\
     get_doctor_queue db doctor_id =
       (JArr (flat_map (listing_item db) l), 200) /\
     listed_queue_ids (get_doctor_queue db doctor_id) = map Queue.id l) /\
  (forall e1 e2 e3,
     Permutation (filter (fun e => String.eqb (Queue.doctor_id e) doctor_id)
                         (Queue_table db))
                 [e1; e2; e3] ->
     has_user db e1 = true -> has_user db e2 = true ->
     has_user db e3 = true ->
     Queue.joined_at e1 < Queue.joined_at e2 ->
     Queue.joined_at e2 < Queue.joined_at e3 ->
     Queue.is_emergency e1 = false -> Queue.is_emergency e2 = true ->
     Queue.is_emergency e3 = false ->
     listed_queue_ids (get_doctor_queue db doctor_id) =
     [Queue.id e2; Queue.id e1; Queue.id e3]).
Proof.
  split.
  - destruct (listed_entries db doctor_id) as (l & Hl & Hs & Hq & Hids).
    unfold Queue_by_doctor in Hl. rewrite filter_filter_andb in Hl.
    exists l. split; [exact Hl|]. split; [|now repeat split].
    intros e. split.
    + intros He. eapply Permutation_in in He; [|exact Hl].
      apply filter_In in He as [He Hc]. apply andb_true_iff in Hc as [Hd Hu].
      apply String.eqb_eq in Hd. repeat split; trivial.
      unfold has_user in Hu.
      destruct (User_get db (Queue.user_id e)) as [user|];
        [now exists user|discriminate].
    + intros (He & Hd & user & Hu).
      eapply Permutation_in; [symmetry; exact Hl|].
      apply filter_In. split; [exact He|]. apply andb_true_iff.
      split; [now apply String.eqb_eq|]. unfold has_user. now rewrite Hu.
  - intros e1 e2 e3 Hp U1 U2 U3 T12 T23 F1 F2 F3.
    destruct (listed_entries db doctor_id) as (l & Hl & Hs & _ & ->).
    assert (Permutation [e2; e1; e3] l) as Hq.
    { symmetry. rewrite Hl. unfold Queue_by_doctor.
      rewrite (filter_perm _ _ _ Hp). simpl.
      rewrite U1, U2, U3. apply perm_swap. }
    rewrite <- (sorted_unique emergency_first [e2; e1; e3] l); trivial.
    + unfold emergency_first. simpl.
      intros x y [<-|[<-|[<-|[]]]] [<-|[<-|[<-|[]]]]; trivial;
        rewrite ?F1, ?F2, ?F3; intros [[? ?]|[? ?]] [[? ?]|[? ?]];
        try discriminate; lia.
    + assert (emergency_first e2 e1) as H21 by (left; auto).
      assert (emergency_first e2 e3) as H23 by (left; auto).
      assert (emergency_first e1 e3) as H13
        by (right; split; [congruence|lia]).
      apply SSorted_cons;
        [apply SSorted_cons;
           [apply SSorted_cons; [apply SSorted_nil|apply Forall_nil]|]|].
      * apply Forall_cons; [exact H13|apply Forall_nil].
      * apply Forall_cons; [exact H21|].
        apply Forall_cons; [exact H23|apply Forall_nil].
Qed.

(** In the clinic with two doctors the listing of d1 shows the entries 3, 1
    and 5, and none of the entries of d2. *)
Lemma get_doctor_queue_lists_known_patients_witness :
  listed_queue_ids (get_doctor_queue shared_db "d1") = [3; 1; 5].
Proof.
  apply (proj2 (get_doctor_queue_lists_known_patients shared_db "d1")
               (an_entry 1 "p1" "d1" 100 false)
               (an_entry 3 "p2" "d1" 200 true)
               (an_entry 5 "p3" "d1" 300 false));
    try reflexivity; simpl; lia.
Defined.

(** C1, as stated, fails: an entry whose user_id names no User belongs to
    the doctor's queue and is not listed. *)
Lemma ghost_entry_not_listed : ~ lists_every_entry ghost_db "d1".
Proof.
  intros (l & Hp & _ & Hl).
  apply Permutation_length in Hp.
  rewrite listed_queue_ids_eq in Hl.
  destruct l; discriminate.
Qed.

Lemma unique_id_inj (l : list Queue.t) x y :
  NoDup (map Queue.id l) -> In x l -> In y l -> Queue.id x = Queue.id y ->
  x = y.
Proof.
  induction l as [|a l IH]; simpl; intros Hn Hx Hy E; [contradiction|].
  inversion Hn as [|? ? Ha Hn']; subst.
  destruct Hx as [->|Hx], Hy as [->|Hy]; trivial.
  - exfalso. apply Ha. rewrite E. now apply in_map.
  - exfalso. apply Ha. rewrite <- E. now apply in_map.
  - now apply IH.
Qed.

Lemma filter_length_lt {A : Type} (p : A -> bool) l x :
  In x l -> p x = false -> (List.length (filter p l) < List.length l)%nat.
Proof.
  induction l as [|a l IH]; simpl; intros Hx Px; [contradiction|].
  destruct Hx as [->|Hx].
  - rewrite Px. pose proof (filter_length_le p l). lia.
  - specialize (IH Hx Px). destruct (p a); simpl; lia.
Qed.

Lemma listing_length db l :
  List.length (flat_map (listing_item db) l) =
  List.length (filter (has_user db) l).
Proof.
  induction l as [|e l IH]; simpl; [reflexivity|].
  rewrite length_app, IH. unfold has_user, listing_item.
  now destruct (User_get db (Queue.user_id e)).
Qed.

(** Every listed id is the id of a stored entry of a known user. *)
Lemma listed_id_stored db d n :
  In n (listed_queue_ids (get_doctor_queue db d)) ->
  exists e, In e (Queue_table db) /\ Queue.id e = n /\
            Queue.doctor_id e = d /\ has_user db e = true.
Proof.
  rewrite listed_queue_ids_eq, in_map_iff. intros (e & E & He).
  eapply Permutation_in in He; [|apply sorted_perm].
  apply filter_In in He as [He Hu].
  apply filter_In in He as [He Hd].
  apply String.eqb_eq in Hd. now exists e.
Qed.

(** C9: a queue entry whose user_id matches no User record is left out of
    the doctor-queue listing, which still answers 200, so the listing has
    fewer items than the doctor's queue has entries. *)
Theorem get_doctor_queue_skips_unknown_users db doctor_id e :
  unique_queue_ids db ->
  In e (Queue_table db) ->
  Queue.doctor_id e = doctor_id ->
  User_get db (Queue.user_id e) = None ->
  exists items,
    get_doctor_queue db doctor_id = (JArr items, 200) /\
    ~ In (Queue.id e) (listed_queue_ids (get_doctor_queue db doctor_id)) /\
    (List.length items < List.length (Queue_by_doctor db doctor_id))%nat.
Proof.
  intros Hn He Hd Hu.
  assert (has_user db e = false) as Hf by (unfold has_user; now rewrite Hu).
  eexists. split; [apply get_doctor_queue_eq|]. split.
  - intros Hin. apply listed_id_stored in Hin as (e' & He' & E & _ & Hk).
    assert (e' = e) by (eapply unique_id_inj; eassumption).
    subst e'. congruence.
  - rewrite listing_length, filter_sorted;
      [|apply flag_time_lt_asym|apply flag_time_le_trans].
    rewrite (Permutation_length (sorted_perm _ _ _)).
    apply filter_length_lt with e; [|exact Hf].
    apply filter_In. split; [exact He|]. now apply String.eqb_eq.
Qed.

Lemma get_doctor_queue_skips_unknown_users_witness :
  exists items,
    get_doctor_queue ghost_db "d1" = (JArr items, 200) /\
    ~ In 1 (listed_queue_ids (get_doctor_queue ghost_db "d1")) /\
    (List.length items < 1)%nat.
Proof.
  apply (get_doctor_queue_skips_unknown_users ghost_db "d1"
           (an_entry 1 "ghost" "d1" 100 false)).
  - unfold unique_queue_ids. simpl.
    constructor; [intros []|constructor].
  - simpl. now left.
  - reflexivity.
  - reflexivity.
Defined.

(** ** The ordering helper *)

Lemma sort_queue_sorted l :
  Permutation (sort_queue l) l /\ StronglySorted emergency_last (sort_queue l).
Proof.
  split; [apply sorted_perm|apply helper_sorted].
Qed.

(** C8 (divergence): on the three entries of the specification's own
    example the ordering helper returns the emergency entry last, not first:
    its key is the flag itself, and [False] sorts before [True]. *)
Theorem sort_queue_puts_emergency_last :
  sort_queue (Queue_table clinic_db) =
    [an_entry 1 "p1" "d1" 100 false; an_entry 3 "p3" "d1" 300 false;
     an_entry 2 "p2" "d1" 200 true] /\
  ~ StronglySorted emergency_first (sort_queue (Queue_table clinic_db)).
Proof.
  split; [reflexivity|].
  intros H. change (sort_queue (Queue_table clinic_db))
    with [an_entry 1 "p1" "d1" 100 false; an_entry 3 "p3" "d1" 300 false;
          an_entry 2 "p2" "d1" 200 true] in H.
  inversion H as [|? ? _ Hall]; subst.
  inversion Hall as [|? ? _ Hall']; subst.
  inversion Hall' as [|? ? [[? ?]|[? ?]] _]; discriminate.
Qed.

(** ** The doctor listing *)

(** C7, as amended: the doctor listing answers 200 with one record per User
    of role doctor; each record has the fields id, email, role, first_name,
    last_name and specialty of that user and no password field. *)
Theorem get_doctors_omits_password db :
  snd (get_doctors db) = 200 /\
  (forall u, In u (User_table db) -> User.role u = "doctor" ->
     In (User.to_dict u) (items_of (fst (get_doctors db)))) /\
  (forall record, In record (items_of (fst (get_doctors db))) ->
     keys record =
       ["id"; "email"; "role"; "first_name"; "last_name"; "specialty"] /\
     field "password" record = None /\
     exists u, In u (User_table db) /\ User.role u = "doctor" /\
               record = User.to_dict u).
Proof.
  unfold get_doctors; simpl. split; [reflexivity|]. split.
  - intros u Hu Hr. apply in_map, filter_In. split; [exact Hu|].
    now apply String.eqb_eq.
  - intros record Hrec. apply in_map_iff in Hrec as (u & <- & Hu).
    apply filter_In in Hu as [Hu Hr]. apply String.eqb_eq in Hr.
    repeat split. now exists u.
Qed.

Lemma get_doctors_omits_password_witness :
  In (User.to_dict (a_user "d1" "doctor"))
     (items_of (fst (get_doctors clinic_db))) /\
  field "password" (User.to_dict (a_user "d1" "doctor")) = None.
Proof.
  destruct (get_doctors_omits_password clinic_db) as (_ & Hall & Hrec).
  assert (In (User.to_dict (a_user "d1" "doctor"))
             (items_of (fst (get_doctors clinic_db)))) as Hin.
  { apply Hall; [simpl; now left|reflexivity]. }
  split; [exact Hin|]. apply (Hrec _ Hin).
Defined.

(** C7, as stated, fails: the record of a doctor carries no password. *)
Lemma doctor_record_has_no_password : ~ doctors_expose_password clinic_db.
Proof.
  intros H.
  destruct (H (a_user "d1" "doctor")) as (record & Hin & Hf);
    [simpl; now left|reflexivity|].
  simpl in Hin. destruct Hin as [<-|[]]. discriminate.
Qed.

(** ** The wait-time estimator: the default *)

Lemma estimate_wait_time_default db d :
  durations_of db d = [] -> estimate_wait_time db d = Ok 15.
Proof.
  unfold durations_of, estimate_wait_time. intros H.
  destruct (map Consultation.duration_minutes _) as [|h hs]; [reflexivity|].
  now rewrite H.
Qed.

Lemma estimate_wait_time_eq db d :
  durations_of db d <> [] ->
  estimate_wait_time db d =
  (avg_duration <-
     py_truediv (sum (durations_of db d)) (count (durations_of db d)) ;;
   estimated_time <-
     py_int_mul_float (count (Queue_by_doctor db d)) avg_duration ;;
   py_int_of_float estimated_time).
Proof.
  unfold durations_of, estimate_wait_time. intros H.
  destruct (map Consultation.duration_minutes _) as [|h hs];
    [now contradiction H|].
  destruct (not_None (h :: hs)); [now contradiction H|reflexivity].
Qed.

Lemma not_None_all_null l :
  (forall d, In d l -> d = None) -> not_None l = [].
Proof.
  induction l as [|d l IH]; intros H; simpl; [reflexivity|].
  rewrite (H d) by now left. simpl. apply IH. intros; apply H; now right.
Qed.

(** C10: when Consultation records exist for the doctor and every one of
    them has a null duration_minutes, the estimator returns the default 15,
    as it does without any history. *)
Theorem estimate_wait_time_all_null db doctor_id :
  (exists c, In c (Consultation_table db) /\
             Consultation.doctor_id c = doctor_id) ->
  (forall c, In c (Consultation_table db) ->
             Consultation.doctor_id c = doctor_id ->
             Consultation.duration_minutes c = None) ->
  estimate_wait_time db doctor_id = Ok 15.
Proof.
  intros _ Hnull. apply estimate_wait_time_default.
  unfold durations_of. apply not_None_all_null.
  intros d Hd. apply in_map_iff in Hd as (c & <- & Hc).
  apply filter_In in Hc as [Hc Hdoc]. apply String.eqb_eq in Hdoc.
  now apply Hnull.
Qed.

Lemma estimate_wait_time_all_null_witness :
  estimate_wait_time blank_db "d1" = Ok 15.
Proof.
  apply (estimate_wait_time_all_null blank_db "d1").
  - exists (a_visit 1 "d1" None). split; [simpl; now left|reflexivity].
  - intros c [<-|[<-|[]]] _; reflexivity.
Defined.

(** ** Completing a consultation *)

Lemma Queue_get_some db pk e :
  Queue_get db pk = Some e -> In e (Queue_table db) /\ Queue.id e = pk.
Proof.
  unfold Queue_get. intros H. apply find_some in H as [Hin E].
  split; [exact Hin|]. now apply Z.eqb_eq.
Qed.

Lemma Queue_get_none db pk :
  (forall e, In e (Queue_table db) -> Queue.id e <> pk) ->
  Queue_get db pk = None.
Proof.
  intros H. destruct (Queue_get db pk) as [e|] eqn:E; [|reflexivity].
  apply Queue_get_some in E as [Hin E]. now apply H in Hin.
Qed.

Lemma Queue_get_unique db e :
  unique_queue_ids db -> In e (Queue_table db) ->
  Queue_get db (Queue.id e) = Some e.
Proof.
  intros Hn Hin. destruct (Queue_get db (Queue.id e)) as [e'|] eqn:E.
  - apply Queue_get_some in E as [Hin' E]. f_equal.
    eapply unique_id_inj; eassumption.
  - unfold Queue_get in E. eapply find_none in E; [|exact Hin].
    now rewrite Z.eqb_refl in E.
Qed.

(** What the handler writes: the duration is the [seconds] component of the
    difference, in whole minutes, raised to 1 when it is 0. *)
Lemma complete_consultation_found db queue_id now e :
  Queue_get db queue_id = Some e ->
  complete_consultation db queue_id now =
  ((message "Consultation completed successfully", 200),
   {| User_table := User_table db;
      Queue_table :=
        filter (fun x => negb (Queue.id x =? Queue.id e)) (Queue_table db);
      Consultation_table := Consultation_table db ++
        [ {| Consultation.id :=
               next_id (map Consultation.id (Consultation_table db));
             Consultation.patient_id := Queue.user_id e;
             Consultation.doctor_id := Queue.doctor_id e;
             Consultation.start_time := Queue.joined_at e;
             Consultation.end_time := now;
             Consultation.duration_minutes :=
               Some (Z.max 1 (((now - Queue.joined_at e) / 1000000)
                                mod 86400 / 60)) |} ] |}).
Proof.
  intros H. unfold complete_consultation. rewrite H. simpl.
  repeat f_equal.
  set (m := ((now - Queue.joined_at e) / 1000000) mod 86400 / 60).
  destruct (Z.ltb_spec 0 m); lia.
Qed.

(** Within the first day the recorded duration is the elapsed time. *)
Lemma seconds_within_a_day joined_at now :
  0 <= now - joined_at < 86400000000 ->
  Z.max 1 (((now - joined_at) / 1000000) mod 86400 / 60) =
  elapsed_minutes joined_at now.
Proof.
  intros H. unfold elapsed_minutes, whole_seconds, datetime_sub; simpl.
  assert (0 <= (now - joined_at) / 1000000 < 86400) as Hs.
  { split; [apply Z.div_pos; lia|apply Z.div_lt_upper_bound; lia]. }
  rewrite (Z.div_small _ 86400) by exact Hs.
  now rewrite Z.mod_small by exact Hs.
Qed.

(** C3 (divergence): for an entry completed one day and five minutes after
    it joined, the handler records 5 minutes, while 1445 whole minutes have
    elapsed: the [seconds] component of a time difference leaves the whole
    days out. *)
Theorem complete_consultation_drops_whole_days :
  map Consultation.duration_minutes
      (Consultation_table
         (snd (complete_consultation overnight_db 1 a_day_and_five_minutes)))
    = [Some 5] /\
  elapsed_minutes 0 a_day_and_five_minutes = 1445.
Proof.
  split; reflexivity.
Qed.

Lemma in_split_unique (l : list Queue.t) e :
  NoDup (map Queue.id l) -> In e l ->
  exists before after,
    l = before ++ e :: after /\
    filter (fun x => negb (Queue.id x =? Queue.id e)) l = before ++ after /\
    ~ In (Queue.id e) (map Queue.id (before ++ after)).
Proof.
  intros Hn Hin. apply in_split in Hin as (before & after & ->).
  exists before, after. split; [reflexivity|].
  rewrite map_app in Hn. simpl in Hn.
  pose proof (NoDup_remove_2 _ _ _ Hn) as Hout.
  rewrite <- map_app in Hout. split; [|exact Hout].
  rewrite filter_app. simpl. rewrite Z.eqb_refl. simpl.
  assert (forall l', (forall x, In x l' -> Queue.id x <> Queue.id e) ->
            filter (fun x => negb (Queue.id x =? Queue.id e)) l' = l') as Hkeep.
  { induction l' as [|a l' IH]; intros H; simpl; [reflexivity|].
    destruct (Z.eqb_spec (Queue.id a) (Queue.id e)) as [E|_]; simpl.
    - exfalso. apply (H a); [now left|exact E].
    - f_equal. apply IH. intros; apply H; now right. }
  rewrite !Hkeep; [reflexivity| |];
    intros x Hx E; apply Hout; rewrite <- E; apply in_map, in_or_app; auto.
Qed.

(** *** A store that may refuse *)

(** A transaction goes through exactly when the store refuses none of its
    statements, and then writes what [commit] writes. *)
Lemma try_commit_eq refused k now db s :
  try_commit refused k now db s =
  if existsb refused (seq k (S (List.length s))) then None
  else Some (commit now db s).
Proof.
  revert k db. induction s as [|op s IH]; intros k db.
  - cbn [try_commit List.length seq existsb commit fold_left].
    now destruct (refused k).
  - cbn [try_commit]. change (List.length (op :: s)) with (S (List.length s)).
    change (seq k (S (S (List.length s))))
      with (k :: seq (S k) (S (List.length s))).
    cbn [existsb]. destruct (refused k); [reflexivity|].
    cbn [orb]. now rewrite IH.
Qed.

Lemma complete_consultation_on_overflow refused db queue_id now :
  sqlite_integer queue_id = false ->
  complete_consultation_on refused db queue_id now =
  (Unhandled IntegerOverflow, db).
Proof. intros H. unfold complete_consultation_on. now rewrite H. Qed.

Lemma complete_consultation_on_none refused db queue_id now :
  sqlite_integer queue_id = true -> Queue_get db queue_id = None ->
  complete_consultation_on refused db queue_id now =
  (Done (message "Queue entry not found", 404), db).
Proof. intros H G. unfold complete_consultation_on. now rewrite H, G. Qed.

(** With an entry found, the handler answers what [complete_consultation]
    answers when the store refuses none of the three statements (INSERT,
    DELETE, COMMIT), and fails with the store untouched otherwise. *)
Lemma complete_consultation_on_found refused db queue_id now e :
  sqlite_integer queue_id = true -> Queue_get db queue_id = Some e ->
  complete_consultation_on refused db queue_id now =
  if refused 0%nat || (refused 1%nat || (refused 2%nat || false))
  then (Unhandled OperationalError, db)
  else (Done (message "Consultation completed successfully", 200),
        snd (complete_consultation db queue_id now)).
Proof.
  intros H G. unfold complete_consultation_on, complete_consultation.
  rewrite H, G. cbn [negb]. rewrite try_commit_eq.
  cbn [session_add session_delete app List.length seq existsb].
  now destruct (refused 0%nat || (refused 1%nat || (refused 2%nat || false))).
Qed.

(** On a store that refuses nothing, and for a key the driver can bind,
    the handler answers and writes what [complete_consultation] does. *)
Lemma complete_consultation_on_accepting refused db queue_id now :
  sqlite_integer queue_id = true ->
  (forall k, refused k = false) ->
  complete_consultation_on refused db queue_id now =
  (Done (fst (complete_consultation db queue_id now)),
   snd (complete_consultation db queue_id now)).
Proof.
  intros Hk R. destruct (Queue_get db queue_id) as [e|] eqn:G.
  - rewrite (complete_consultation_on_found _ _ _ _ _ Hk G), !R. cbn [orb].
    now rewrite (complete_consultation_found _ _ _ _ G).
  - rewrite (complete_consultation_on_none _ _ _ _ Hk G).
    unfold complete_consultation. now rewrite G.
Qed.

(** C4, as amended. For a queue_id that is a signed 64-bit integer and
    names no entry, the handler answers not-found and leaves the store as it
    is. For one that names an entry, on a store that refuses none of the
    statements, it answers 200 after one transaction that removes that single
    entry, so that no doctor-queue listing shows it any more, and appends
    exactly one Consultation whose start_time is the entry's joined_at, whose
    end_time is the completion time and whose duration_minutes is at least 1;
    if the store refuses a statement of the transaction the handler fails
    without an answer and the store is as before. Whatever the store refuses,
    there is no third outcome: the store is untouched, or the handler
    answered 200 and both changes are in it. For a queue_id outside the
    signed 64-bit range the lookup raises OverflowError and nothing
    changes. *)
Theorem complete_consultation_atomic refused db queue_id now :
  (sqlite_integer queue_id = true ->
   (forall e, In e (Queue_table db) -> Queue.id e <> queue_id) ->
   complete_consultation_on refused db queue_id now =
   (Done (message "Queue entry not found", 404), db)) /\
  (sqlite_integer queue_id = true ->
   unique_queue_ids db ->
   forall e, In e (Queue_table db) -> Queue.id e = queue_id ->
   (refused 0%nat = false -> refused 1%nat = false ->
    refused 2%nat = false ->
    exists before after c db',
      complete_consultation_on refused db queue_id now =
        (Done (message "Consultation completed successfully", 200), db') /\
      Queue_table db = before ++ e :: after /\
      Queue_table db' = before ++ after /\
      Consultation_table db' = Consultation_table db ++ [c] /\
      User_table db' = User_table db /\
      Consultation.patient_id c = Queue.user_id e /\
      Consultation.doctor_id c = Queue.doctor_id e /\
      Consultation.start_time c = Queue.joined_at e /\
      Consultation.end_time c = now /\
      (exists m, Consultation.duration_minutes c = Some m /\ 1 <= m) /\
      (forall d, ~ In queue_id (listed_queue_ids (get_doctor_queue db' d)))) /\
   (refused 0%nat = true \/ refused 1%nat = true \/ refused 2%nat = true ->
    complete_consultation_on refused db queue_id now =
    (Unhandled OperationalError, db))) /\
  (snd (complete_consultation_on refused db queue_id now) = db \/
   exists c,
     fst (complete_consultation_on refused db queue_id now) =
       Done (message "Consultation completed successfully", 200) /\
     Queue_table (snd (complete_consultation_on refused db queue_id now)) =
       filter (fun x => negb (Queue.id x =? queue_id)) (Queue_table db) /\
     Consultation_table
       (snd (complete_consultation_on refused db queue_id now)) =
       Consultation_table db ++ [c]) /\
  (sqlite_integer queue_id = false ->
   complete_consultation_on refused db queue_id now =
   (Unhandled IntegerOverflow, db)).
Proof.
  split; [|split; [|split]].
  - intros Hk H. apply complete_consultation_on_none; [exact Hk|].
    now apply Queue_get_none.
  - intros Hk Hn e Hin E. subst queue_id.
    pose proof (Queue_get_unique _ _ Hn Hin) as G.
    rewrite (complete_consultation_on_found _ _ _ _ _ Hk G). split.
    + intros R0 R1 R2. rewrite R0, R1, R2. cbn [orb].
      rewrite (complete_consultation_found _ _ _ _ G).
      destruct (in_split_unique _ _ Hn Hin) as (before & after & Hq & Hf & Hout).
      exists before, after. eexists. eexists.
      split; [reflexivity|]. simpl.
      split; [exact Hq|]. split; [exact Hf|].
      repeat (split; [reflexivity|]).
      split; [eexists; split; [reflexivity|lia]|].
      intros d Hl. apply listed_id_stored in Hl as (e' & He' & E' & _).
      simpl in He'. rewrite Hf in He'. apply Hout. rewrite <- E'.
      now apply in_map.
    + intros [R|[R|R]]; rewrite R; rewrite ?orb_true_r; reflexivity.
  - destruct (sqlite_integer queue_id) eqn:Hk;
      [|left; now rewrite complete_consultation_on_overflow].
    destruct (Queue_get db queue_id) as [e|] eqn:G;
      [|left; now rewrite complete_consultation_on_none].
    rewrite (complete_consultation_on_found _ _ _ _ _ Hk G).
    destruct (refused 0%nat || (refused 1%nat || (refused 2%nat || false)));
      [now left|right].
    rewrite (complete_consultation_found _ _ _ _ G).
    apply Queue_get_some in G as [_ <-]. eexists.
    split; [reflexivity|]. split; reflexivity.
  - apply complete_consultation_on_overflow.
Qed.

(** In the clinic with two doctors: key 9 names no entry; entry 3 is
    completed on a store that refuses nothing; the same completion is undone
    as a whole when the store refuses the DELETE. *)
Lemma complete_consultation_atomic_witness :
  complete_consultation_on (fun _ => false) shared_db 9 500 =
    (Done (message "Queue entry not found", 404), shared_db) /\
  (exists before after c db',
     complete_consultation_on (fun _ => false) shared_db 3 500 =
       (Done (message "Consultation completed successfully", 200), db') /\
     Queue_table shared_db = before ++ an_entry 3 "p2" "d1" 200 true :: after /\
     Queue_table db' = before ++ after /\
     Consultation_table db' = Consultation_table shared_db ++ [c] /\
     User_table db' = User_table shared_db /\
     Consultation.patient_id c = "p2" /\
     Consultation.doctor_id c = "d1" /\
     Consultation.start_time c = 200 /\
     Consultation.end_time c = 500 /\
     (exists m, Consultation.duration_minutes c = Some m /\ 1 <= m) /\
     (forall d, ~ In 3 (listed_queue_ids (get_doctor_queue db' d)))) /\
  complete_consultation_on (fun k => Nat.eqb k 1) shared_db 3 500 =
    (Unhandled OperationalError, shared_db) /\
  complete_consultation_on (fun _ => false) shared_db (2 ^ 63) 500 =
    (Unhandled IntegerOverflow, shared_db).
Proof.
  assert (unique_queue_ids shared_db) as Hn.
  { unfold unique_queue_ids. simpl.
    repeat (constructor; [simpl; intuition discriminate|]). constructor. }
  split; [|split; [|split]].
  - apply (proj1 (complete_consultation_atomic (fun _ => false) shared_db 9 500)).
    + reflexivity.
    + intros e [<-|[<-|[<-|[<-|[<-|[]]]]]]; discriminate.
  - apply (proj1 (proj1 (proj2 (complete_consultation_atomic
                                  (fun _ => false) shared_db 3 500))
                        eq_refl Hn (an_entry 3 "p2" "d1" 200 true)
                        ltac:(simpl; tauto) eq_refl));
      reflexivity.
  - apply (proj2 (proj1 (proj2 (complete_consultation_atomic
                                  (fun k => Nat.eqb k 1) shared_db 3 500))
                        eq_refl Hn (an_entry 3 "p2" "d1" 200 true)
                        ltac:(simpl; tauto) eq_refl)).
    right. left. reflexivity.
  - apply (proj2 (proj2 (proj2 (complete_consultation_atomic
                                  (fun _ => false) shared_db (2 ^ 63) 500)))).
    reflexivity.
Defined.

(** C4, as stated, fails for a key that is no SQLite integer: 2^63 names no
    entry, and the handler does not answer not-found, the driver's
    OverflowError escapes it. *)
Lemma key_beyond_64_bits_not_answered :
  ~ answers_not_found clinic_db (2 ^ 63) 500.
Proof.
  unfold answers_not_found. intros H.
  assert (forall e, In e (Queue_table clinic_db) -> Queue.id e <> 2 ^ 63)
    as Hnone by (intros e [<-|[<-|[<-|[]]]]; discriminate).
  specialize (H Hnone).
  rewrite complete_consultation_on_overflow in H by reflexivity.
  discriminate.
Qed.

(** ** Joining a queue *)

Lemma first_by_user_some db u e :
  In e (Queue_table db) -> Queue.user_id e = u ->
  exists e', first (Queue_by_user db u) = Some e'.
Proof.
  intros Hin E.
  assert (In e (Queue_by_user db u)) as H
    by (apply filter_In; split; [exact Hin|now apply String.eqb_eq]).
  destruct (Queue_by_user db u) as [|e' l]; [contradiction|].
  now exists e'.
Qed.

Lemma first_by_user_none db u :
  (forall e, In e (Queue_table db) -> Queue.user_id e <> u) ->
  first (Queue_by_user db u) = None.
Proof.
  intros H. destruct (Queue_by_user db u) as [|e l] eqn:E; [reflexivity|].
  assert (In e (Queue_by_user db u)) as Hin by (rewrite E; now left).
  apply filter_In in Hin as [Hin Hu]. apply String.eqb_eq in Hu.
  now apply H in Hin.
Qed.

Lemma next_id_fresh ids : ~ In (next_id ids) ids.
Proof.
  assert (forall n, In n ids -> n <= fold_right Z.max 0 ids) as Hmax.
  { induction ids as [|a ids IH]; simpl; intros n Hn; [contradiction|].
    destruct Hn as [->|Hn]; [lia|]. specialize (IH n Hn). lia. }
  intros Hin. apply Hmax in Hin. unfold next_id in Hin. lia.
Qed.

(** C5: a join request by a user who already has a queue entry, for
    whatever doctor, gets the conflict answer and changes nothing in the
    store; a request by a user without an entry appends one entry for the
    requested doctor, with the given is_emergency flag, false when the
    request has none. *)
Theorem join_queue_one_entry_per_user db data now :
  (forall e, In e (Queue_table db) -> Queue.user_id e = req_user_id data ->
     join_queue db data now =
     ((message "You are already in a queue", 409), db)) /\
  ((forall e, In e (Queue_table db) -> Queue.user_id e <> req_user_id data) ->
   exists new,
     join_queue db data now =
       ((message "Successfully joined the queue", 201),
        {| User_table := User_table db;
           Queue_table := Queue_table db ++ [new];
           Consultation_table := Consultation_table db |}) /\
     Queue.user_id new = req_user_id data /\
     Queue.doctor_id new = req_doctor_id data /\
     Queue.is_emergency new =
       match req_is_emergency data with Some b => b | None => false end /\
     Queue.joined_at new = now /\
     ~ In (Queue.id new) (map Queue.id (Queue_table db))).
Proof.
  split.
  - intros e Hin E. unfold join_queue.
    destruct (first_by_user_some _ _ _ Hin E) as [e' ->]. reflexivity.
  - intros H. unfold join_queue. rewrite (first_by_user_none _ _ H).
    eexists. split; [reflexivity|]. simpl.
    repeat (split; [reflexivity|]). apply next_id_fresh.
Qed.

Lemma join_queue_one_entry_per_user_witness :
  join_queue clinic_db
    {| req_user_id := "p1"; req_doctor_id := "d2";
       req_is_emergency := Some true |} 500
  = ((message "You are already in a queue", 409), clinic_db) /\
  exists new,
    join_queue clinic_db
      {| req_user_id := "p4"; req_doctor_id := "d1";
         req_is_emergency := None |} 500
    = ((message "Successfully joined the queue", 201),
       {| User_table := User_table clinic_db;
          Queue_table := Queue_table clinic_db ++ [new];
          Consultation_table := Consultation_table clinic_db |}) /\
    Queue.user_id new = "p4" /\
    Queue.doctor_id new = "d1" /\
    Queue.is_emergency new = false /\
    Queue.joined_at new = 500 /\
    ~ In (Queue.id new) (map Queue.id (Queue_table clinic_db)).
Proof.
  split.
  - apply (proj1 (join_queue_one_entry_per_user clinic_db
             {| req_user_id := "p1"; req_doctor_id := "d2";
                req_is_emergency := Some true |} 500)
             (an_entry 1 "p1" "d1" 100 false)).
    + simpl. now left.
    + reflexivity.
  - apply (proj2 (join_queue_one_entry_per_user clinic_db
             {| req_user_id := "p4"; req_doctor_id := "d1";
                req_is_emergency := None |} 500)).
    intros e [<-|[<-|[<-|[]]]]; discriminate.
Defined.

(** Both writing handlers keep the primary keys distinct. *)
Lemma join_queue_keeps_ids_unique db data now :
  unique_queue_ids db -> unique_queue_ids (snd (join_queue db data now)).
Proof.
  unfold unique_queue_ids, join_queue. intros Hn.
  destruct (first _); simpl; [exact Hn|].
  rewrite map_app. simpl. apply NoDup_app_remove_l with (l := []).
  simpl. eapply Permutation_NoDup;
    [apply Permutation_cons_append|].
  constructor; [apply next_id_fresh|exact Hn].
Qed.

Lemma complete_consultation_keeps_ids_unique db queue_id now :
  unique_queue_ids db ->
  unique_queue_ids (snd (complete_consultation db queue_id now)).
Proof.
  unfold unique_queue_ids. intros Hn.
  destruct (Queue_get db queue_id) as [e|] eqn:G.
  - rewrite (complete_consultation_found _ _ _ _ G). simpl.
    clear G. induction (Queue_table db) as [|a l IH]; simpl; [constructor|].
    inversion Hn as [|? ? Ha Hl]; subst.
    destruct (negb _); simpl; [|now apply IH].
    constructor; [|now apply IH].
    intros Hin. apply Ha. apply in_map_iff in Hin as (x & E & Hx).
    apply filter_In in Hx as [Hx _]. rewrite <- E. now apply in_map.
  - unfold complete_consultation. now rewrite G.
Qed.

(** ** The queue position *)

Local Abbreviation by_time := (key_le Z.ltb Queue.joined_at).

Lemma order_by_perm l : Permutation (order_by_joined_at l) l.
Proof. apply sorted_perm. Qed.

Lemma order_by_sorted l : StronglySorted by_time (order_by_joined_at l).
Proof. apply sorted_sorted; [apply ltb_asym|apply leb_trans]. Qed.

Lemma index_found e l i :
  index e l = Ok i -> exists z, In z l /\ Queue.id z = Queue.id e.
Proof.
  revert i. induction l as [|y l IH]; simpl; intros i H; [discriminate|].
  destruct (Z.eqb_spec (Queue.id y) (Queue.id e)) as [E|_].
  - exists y. split; [now left|exact E].
  - destruct (index e l) as [j|]; [|discriminate].
    destruct (IH j eq_refl) as (z & Hz & E). exists z. split; [now right|exact E].
Qed.

(** Inserting another row moves [e] one place down exactly when that row
    did not join later than [e]. *)
Lemma index_insort_other e a l i :
  StronglySorted by_time l ->
  (forall y, In y l -> Queue.id y = Queue.id e ->
             Queue.joined_at y = Queue.joined_at e) ->
  Queue.id a <> Queue.id e ->
  index e l = Ok i ->
  index e (insort Z.ltb Queue.joined_at a l) =
  Ok (i + if Queue.joined_at e <? Queue.joined_at a then 0 else 1).
Proof.
  intros Hs. revert i.
  induction Hs as [|y l Hs IH Hy]; intros i Hsame Ha Hi; [discriminate|].
  simpl. destruct (Queue.joined_at y <? Queue.joined_at a) eqn:E.
  - simpl in *. destruct (Z.eqb_spec (Queue.id y) (Queue.id e)) as [Ey|_].
    + injection Hi as <-. rewrite <- (Hsame y) by auto. now rewrite E.
    + destruct (index e l) as [j|] eqn:Ej; [|discriminate].
      injection Hi as <-.
      rewrite (IH j) by auto. simpl. f_equal. lia.
  - assert ((Queue.joined_at e <? Queue.joined_at a) = false) as ->.
    { destruct (index_found _ _ _ Hi) as (z & Hz & Ez).
      rewrite <- (Hsame z Hz Ez). apply Z.ltb_ge. apply Z.ltb_ge in E.
      destruct Hz as [<-|Hz]; [exact E|].
      rewrite Forall_forall in Hy. specialize (Hy z Hz).
      unfold key_le in Hy. apply Z.ltb_ge in Hy. lia. }
    change (index e (a :: y :: l))
      with (if Queue.id a =? Queue.id e then Ok 0
            else (j <- index e (y :: l) ;; Ok (j + 1))).
    destruct (Z.eqb_spec (Queue.id a) (Queue.id e)); [contradiction|].
    now rewrite Hi.
Qed.

(** Inserting [e] itself puts it right behind the rows that joined
    earlier. *)
Lemma index_insort_self e a l :
  StronglySorted by_time l ->
  (forall y, In y l -> Queue.id y <> Queue.id e) ->
  Queue.id a = Queue.id e ->
  index e (insort Z.ltb Queue.joined_at a l) =
  Ok (count (filter (fun x => Queue.joined_at x <? Queue.joined_at a) l)).
Proof.
  intros Hs Hout Ha.
  induction Hs as [|y l Hs IH Hy]; simpl.
  - apply Z.eqb_eq in Ha. now rewrite Ha.
  - destruct (Queue.joined_at y <? Queue.joined_at a) eqn:E; simpl.
    + destruct (Z.eqb_spec (Queue.id y) (Queue.id e)) as [Ey|_].
      * exfalso. apply (Hout y); [now left|exact Ey].
      * rewrite IH by (intros; apply Hout; now right). simpl.
        unfold count. simpl List.length. f_equal. lia.
    + apply Z.eqb_eq in Ha. rewrite Ha. f_equal.
      assert (filter (fun x => Queue.joined_at x <? Queue.joined_at a) l = [])
        as ->; [|reflexivity].
      apply Z.ltb_ge in E. clear IH Hs Hout.
      induction Hy as [|z l Hz Hl IHl]; simpl; [reflexivity|].
      unfold key_le in Hz. apply Z.ltb_ge in Hz.
      destruct (Z.ltb_spec (Queue.joined_at z) (Queue.joined_at a)); [lia|].
      exact IHl.
Qed.

Lemma count_perm {A : Type} (p : A -> bool) l l' :
  Permutation l l' -> count (filter p l) = count (filter p l').
Proof.
  intros H. unfold count. f_equal.
  apply Permutation_length. now apply filter_perm.
Qed.

Lemma count_cons {A : Type} (x : A) l : count (x :: l) = count l + 1.
Proof. unfold count. simpl List.length. lia. Qed.

Lemma rank_self e l :
  chronological_rank e (e :: l) =
  1 + count (filter (fun x => Queue.joined_at x <? Queue.joined_at e) l).
Proof.
  unfold chronological_rank. cbn [filter stored_before].
  rewrite Z.ltb_irrefl, Z.eqb_refl. cbn [filter].
  change (count []) with 0. lia.
Qed.

Lemma rank_other e a l :
  Queue.id a <> Queue.id e ->
  chronological_rank e (a :: l) =
  chronological_rank e l +
  if Queue.joined_at e <? Queue.joined_at a then 0 else 1.
Proof.
  intros Ha. unfold chronological_rank. cbn [filter stored_before].
  destruct (Z.eqb_spec (Queue.id a) (Queue.id e)); [contradiction|].
  cbn [filter].
  destruct (Z.ltb_spec (Queue.joined_at a) (Queue.joined_at e)),
           (Z.eqb_spec (Queue.joined_at a) (Queue.joined_at e)),
           (Z.ltb_spec (Queue.joined_at e) (Queue.joined_at a));
    rewrite ?count_cons; lia.
Qed.

(** The place of [e] in the chronological order is its rank. *)
Lemma index_order_by e l :
  NoDup (map Queue.id l) -> In e l ->
  index e (order_by_joined_at l) = Ok (chronological_rank e l - 1).
Proof.
  induction l as [|a l IH]; intros Hn Hin; [contradiction|].
  inversion Hn as [|? ? Ha Hl]; subst.
  change (order_by_joined_at (a :: l))
    with (insort Z.ltb Queue.joined_at a (order_by_joined_at l)).
  assert (forall y, In y (order_by_joined_at l) -> In y l) as Hback
    by (intros y; apply Permutation_in, order_by_perm).
  destruct (Z.eq_dec (Queue.id a) (Queue.id e)) as [E|E].
  - assert (a = e) as ->.
    { destruct Hin as [Hin|Hin]; [exact Hin|].
      exfalso. apply Ha. rewrite E. now apply in_map. }
    rewrite index_insort_self; trivial.
    + f_equal. rewrite (count_perm _ _ _ (order_by_perm l)).
      rewrite rank_self. lia.
    + apply order_by_sorted.
    + intros y Hy Ey. apply Ha. rewrite <- Ey. apply in_map. now apply Hback.
  - destruct Hin as [Hin|Hin]; [now subst|].
    rewrite (index_insort_other e a _ (chronological_rank e l - 1)); trivial.
    + f_equal. rewrite (rank_other e a l E). lia.
    + apply order_by_sorted.
    + intros y Hy Ey. f_equal. apply (unique_id_inj l); auto.
    + now apply IH.
Qed.

Lemma NoDup_map_filter {A B : Type} (f : A -> B) (p : A -> bool) l :
  NoDup (map f l) -> NoDup (map f (filter p l)).
Proof.
  induction l as [|a l IH]; simpl; intros Hn; [constructor|].
  inversion Hn as [|? ? Ha Hl]; subst.
  destruct (p a); simpl; [|now apply IH].
  constructor; [|now apply IH].
  intros Hin. apply Ha. apply in_map_iff in Hin as (x & E & Hx).
  apply filter_In in Hx as [Hx _]. rewrite <- E. now apply in_map.
Qed.

Lemma first_by_user_in db u e :
  first (Queue_by_user db u) = Some e ->
  In e (Queue_table db) /\ Queue.user_id e = u.
Proof.
  unfold first. intros H.
  assert (In e (Queue_by_user db u)) as Hin
    by (destruct (Queue_by_user db u); [discriminate|injection H as ->; now left]).
  apply filter_In in Hin as [Hin Hu]. now apply String.eqb_eq in Hu.
Qed.

(** With distinct primary keys the handler reports the chronological rank
    of the entry it looked up. *)
Lemma get_queue_position_found db u e :
  unique_queue_ids db ->
  first (Queue_by_user db u) = Some e ->
  get_queue_position db u =
  (estimated_wait <- estimate_wait_time db (Queue.doctor_id e) ;;
   Ok (JObj [ ("position",
               JInt (chronological_rank
                       e (Queue_by_doctor db (Queue.doctor_id e))));
              ("doctor_id", JStr (Queue.doctor_id e));
              ("estimated_wait_minutes", JInt estimated_wait) ], 200)).
Proof.
  intros Hn Hf. unfold get_queue_position. rewrite Hf.
  apply first_by_user_in in Hf as [Hin _].
  rewrite index_order_by.
  - simpl. destruct (estimate_wait_time db (Queue.doctor_id e)); simpl;
      [|reflexivity].
    now rewrite Z.sub_add.
  - now apply NoDup_map_filter.
  - apply filter_In. split; [exact Hin|apply String.eqb_refl].
Qed.

(** *** The emergency flag is not consulted *)

Lemma filter_map_commute {A : Type} (g : A -> A) (p : A -> bool) l :
  (forall x, p (g x) = p x) -> filter p (map g l) = map g (filter p l).
Proof.
  intros H. induction l as [|a l IH]; simpl; [reflexivity|].
  rewrite H. destruct (p a); simpl; now rewrite IH.
Qed.

Lemma sorted_map_commute {A K : Type} (lt : K -> K -> bool) (key : A -> K)
    (g : A -> A) l :
  (forall x, key (g x) = key x) ->
  sorted lt key (map g l) = map g (sorted lt key l).
Proof.
  intros H. induction l as [|a l IH]; simpl; [reflexivity|].
  rewrite IH. generalize (sorted lt key l) as s.
  induction s as [|y s IHs]; simpl; [reflexivity|].
  rewrite !H. destruct (lt (key y) (key a)); simpl; [now rewrite IHs|reflexivity].
Qed.

Lemma index_with_flag f e l :
  index (with_flag f e) (map (with_flag f) l) = index e l.
Proof.
  induction l as [|y l IH]; simpl; [reflexivity|]. now rewrite IH.
Qed.

Lemma by_doctor_with_flags f db d :
  Queue_by_doctor (with_flags f db) d = map (with_flag f) (Queue_by_doctor db d).
Proof. unfold Queue_by_doctor. simpl. now apply filter_map_commute. Qed.

Lemma by_user_with_flags f db u :
  Queue_by_user (with_flags f db) u = map (with_flag f) (Queue_by_user db u).
Proof. unfold Queue_by_user. simpl. now apply filter_map_commute. Qed.

Lemma estimate_with_flags f db d :
  estimate_wait_time (with_flags f db) d = estimate_wait_time db d.
Proof.
  unfold estimate_wait_time. rewrite by_doctor_with_flags.
  unfold count at 2 4. now rewrite length_map.
Qed.

Lemma get_queue_position_with_flags f db u :
  get_queue_position (with_flags f db) u = get_queue_position db u.
Proof.
  unfold get_queue_position. rewrite by_user_with_flags.
  destruct (Queue_by_user db u) as [|e l]; simpl; [reflexivity|].
  rewrite by_doctor_with_flags, estimate_with_flags.
  unfold order_by_joined_at.
  rewrite sorted_map_commute by reflexivity.
  now rewrite index_with_flag.
Qed.

(** *** The rank, read off the queue table *)

Lemma stored_before_filter (q : Queue.t -> bool) e l :
  (forall y, In y l -> Queue.id y = Queue.id e -> q y = true) ->
  stored_before e (filter q l) = filter q (stored_before e l).
Proof.
  induction l as [|y l IH]; intros H; [reflexivity|].
  cbn [filter stored_before].
  destruct (Z.eqb_spec (Queue.id y) (Queue.id e)) as [E|N].
  - rewrite (H y) by (trivial; now left). cbn [stored_before].
    apply Z.eqb_eq in E. now rewrite E.
  - cbn [filter]. destruct (q y).
    + cbn [stored_before].
      destruct (Z.eqb_spec (Queue.id y) (Queue.id e)); [contradiction|].
      f_equal. apply IH. intros; apply H; trivial; now right.
    + apply IH. intros; apply H; trivial; now right.
Qed.

(** The chronological rank within the rows the handler queries is the rank
    among the stored entries of the same doctor. *)
Lemma rank_for_doctor_eq db e :
  unique_queue_ids db -> In e (Queue_table db) ->
  chronological_rank e (Queue_by_doctor db (Queue.doctor_id e)) =
  rank_for_doctor db e.
Proof.
  intros Hn Hin. unfold chronological_rank, rank_for_doctor, Queue_by_doctor.
  rewrite stored_before_filter.
  - now rewrite !filter_filter_andb.
  - intros y Hy E.
    rewrite (unique_id_inj _ _ _ Hn Hy Hin E). apply String.eqb_refl.
Qed.

(** C6: a user without a queue entry gets the not-found answer. For a user
    with an entry the handler answers 200 with the 1-based rank of that entry
    among all stored entries with the same doctor_id in joined_at order (one
    more than the number of them that joined earlier, or at the same time and
    stored ahead), the doctor_id, and the estimated wait (an error raised by
    the estimator is passed on). Rewriting the emergency flags of the queue
    changes nothing in the answer. *)
Theorem get_queue_position_chronological db user_id :
  ((forall e, In e (Queue_table db) -> Queue.user_id e <> user_id) ->
   get_queue_position db user_id = Ok (message "Not in a queue", 404)) /\
  (unique_queue_ids db ->
   forall e0, In e0 (Queue_table db) -> Queue.user_id e0 = user_id ->
   exists e,
     In e (Queue_table db) /\ Queue.user_id e = user_id /\
     get_queue_position db user_id =
     (estimated_wait <- estimate_wait_time db (Queue.doctor_id e) ;;
      Ok (JObj [ ("position",
                  JInt (1 + count
                          (filter
                             (fun x =>
                                String.eqb (Queue.doctor_id x)
                                           (Queue.doctor_id e) &&
                                (Queue.joined_at x <? Queue.joined_at e))
                             (Queue_table db))
                        + count
                            (filter
                               (fun x =>
                                  String.eqb (Queue.doctor_id x)
                                             (Queue.doctor_id e) &&
                                  (Queue.joined_at x =? Queue.joined_at e))
                               (stored_before e (Queue_table db)))));
                 ("doctor_id", JStr (Queue.doctor_id e));
                 ("estimated_wait_minutes", JInt estimated_wait) ], 200))) /\
  (forall f, get_queue_position (with_flags f db) user_id =
             get_queue_position db user_id).
Proof.
  split; [|split].
  - intros H. unfold get_queue_position.
    now rewrite (first_by_user_none _ _ H).
  - intros Hn e0 Hin0 Hu0.
    destruct (first_by_user_some _ _ _ Hin0 Hu0) as [e Hf].
    exists e. destruct (first_by_user_in _ _ _ Hf) as [Hin Hu].
    split; [exact Hin|]. split; [exact Hu|].
    rewrite (get_queue_position_found _ _ _ Hn Hf).
    rewrite (rank_for_doctor_eq _ _ Hn Hin). reflexivity.
  - intros f. apply get_queue_position_with_flags.
Qed.

(** In the clinic with two doctors the emergency patient p2 of d1 joined
    third of all and second among the patients of d1: the position is 2. *)
Lemma get_queue_position_chronological_witness :
  get_queue_position shared_db "p9" = Ok (message "Not in a queue", 404) /\
  get_queue_position shared_db "p2" =
    Ok (JObj [ ("position", JInt 2); ("doctor_id", JStr "d1");
               ("estimated_wait_minutes", JInt 60) ], 200).
Proof.
  split.
  - apply (proj1 (get_queue_position_chronological shared_db "p9")).
    intros e [<-|[<-|[<-|[<-|[<-|[]]]]]]; discriminate.
  - destruct (proj1 (proj2 (get_queue_position_chronological shared_db "p2")))
      with (e0 := an_entry 3 "p2" "d1" 200 true)
      as (e & Hin & Hu & ->).
    + unfold unique_queue_ids. simpl.
      repeat (constructor; [simpl; intuition discriminate|]). constructor.
    + simpl. tauto.
    + reflexivity.
    + destruct Hin as [<-|[<-|[<-|[<-|[<-|[]]]]]]; try discriminate Hu.
      reflexivity.
Defined.

(** The emergency patient of the sample queue is shown first by the doctor
    listing and still holds position 2. *)
Example emergency_patient_position :
  get_queue_position clinic_db "p2" =
  Ok (JObj [ ("position", JInt 2); ("doctor_id", JStr "d1");
             ("estimated_wait_minutes", JInt 15) ], 200).
Proof. reflexivity. Qed.

(** ** Float arithmetic on integers that fit in 53 digits *)

Lemma digits2_pos_bounds p :
  2 ^ (Zpos (digits2_pos p) - 1) <= Zpos p < 2 ^ Zpos (digits2_pos p).
Proof.
  induction p as [p IH|p IH|]; simpl digits2_pos.
  - rewrite Pos2Z.inj_succ, Z.pow_succ_r by lia.
    replace (Z.succ (Zpos (digits2_pos p)) - 1)
      with (Z.succ (Zpos (digits2_pos p) - 1)) by lia.
    rewrite Z.pow_succ_r by lia. lia.
  - rewrite Pos2Z.inj_succ, Z.pow_succ_r by lia.
    replace (Z.succ (Zpos (digits2_pos p)) - 1)
      with (Z.succ (Zpos (digits2_pos p) - 1)) by lia.
    rewrite Z.pow_succ_r by lia. lia.
  - simpl. lia.
Qed.

Lemma Zdigits2_bounds z :
  0 < z -> 0 < Zdigits2 z /\ 2 ^ (Zdigits2 z - 1) <= z < 2 ^ Zdigits2 z.
Proof.
  destruct z as [|p|p]; try lia. intros _. simpl.
  split; [lia|apply digits2_pos_bounds].
Qed.

Lemma Zdigits2_unique z k :
  2 ^ (k - 1) <= z < 2 ^ k -> 0 < k -> Zdigits2 z = k.
Proof.
  intros [Hlo Hhi] Hk.
  assert (0 < z) as Hz by (pose proof (Z.pow_pos_nonneg 2 (k - 1)); lia).
  destruct (Zdigits2_bounds z Hz) as (Hd & Hl & Hh).
  destruct (Z.lt_trichotomy (Zdigits2 z) k) as [L|[E|G]]; [|exact E|].
  - assert (2 ^ Zdigits2 z <= 2 ^ (k - 1)) by (apply Z.pow_le_mono_r; lia). lia.
  - assert (2 ^ k <= 2 ^ (Zdigits2 z - 1)) by (apply Z.pow_le_mono_r; lia). lia.
Qed.

Lemma Zdigits2_shift z j :
  0 < z -> 0 <= j -> Zdigits2 (z * 2 ^ j) = Zdigits2 z + j.
Proof.
  intros Hz Hj. destruct (Zdigits2_bounds z Hz) as (Hd & Hl & Hh).
  apply Zdigits2_unique; [|lia].
  replace (Zdigits2 z + j - 1) with (Zdigits2 z - 1 + j) by lia.
  rewrite !Z.pow_add_r by lia.
  assert (0 < 2 ^ j) by (apply Z.pow_pos_nonneg; lia). nia.
Qed.

Lemma Zdigits2_le z k : 0 < z -> z < 2 ^ k -> 0 <= k -> Zdigits2 z <= k.
Proof.
  intros Hz Hk K. destruct (Zdigits2_bounds z Hz) as (Hd & Hl & Hh).
  destruct (Z.le_gt_cases (Zdigits2 z) k) as [L|G]; [exact L|].
  assert (2 ^ k <= 2 ^ (Zdigits2 z - 1)) by (apply Z.pow_le_mono_r; lia). lia.
Qed.

Lemma Zdigits2_mul_lower a b :
  0 < a -> 0 < b -> Zdigits2 a + Zdigits2 b - 1 <= Zdigits2 (a * b).
Proof.
  intros Ha Hb.
  destruct (Zdigits2_bounds a Ha) as (Hda & Hla & Hha).
  destruct (Zdigits2_bounds b Hb) as (Hdb & Hlb & Hhb).
  assert (0 < a * b) as Hab by nia.
  destruct (Zdigits2_bounds _ Hab) as (Hd & Hl & Hh).
  destruct (Z.le_gt_cases (Zdigits2 a + Zdigits2 b - 1) (Zdigits2 (a * b)))
    as [L|G]; [exact L|].
  assert (2 ^ Zdigits2 (a * b) <= 2 ^ (Zdigits2 a - 1 + (Zdigits2 b - 1)))
    by (apply Z.pow_le_mono_r; lia).
  rewrite Z.pow_add_r in H by lia.
  assert (0 < 2 ^ (Zdigits2 a - 1)) by (apply Z.pow_pos_nonneg; lia).
  assert (0 < 2 ^ (Zdigits2 b - 1)) by (apply Z.pow_pos_nonneg; lia).
  nia.
Qed.

Lemma Zdigits2_mul_upper a b :
  0 < a -> 0 < b -> Zdigits2 (a * b) <= Zdigits2 a + Zdigits2 b.
Proof.
  intros Ha Hb.
  destruct (Zdigits2_bounds a Ha) as (Hda & Hla & Hha).
  destruct (Zdigits2_bounds b Hb) as (Hdb & Hlb & Hhb).
  apply Zdigits2_le; [nia| |lia].
  rewrite Z.pow_add_r by lia. nia.
Qed.

Lemma shr_1_exact z : 0 <= z -> shr_1 (exact_rec (2 * z)) = exact_rec z.
Proof. destruct z as [|p|p]; intros H; try lia; reflexivity. Qed.

Lemma pow2_xO n : 2 ^ Zpos n~0 = 2 ^ Zpos n * 2 ^ Zpos n.
Proof. rewrite Pos2Z.inj_xO, <- Z.pow_add_r by lia. f_equal. lia. Qed.

Lemma pow2_xI n : 2 ^ Zpos n~1 = 2 * (2 ^ Zpos n * 2 ^ Zpos n).
Proof.
  rewrite Pos2Z.inj_xI, <- Z.pow_add_r, <- Z.pow_succ_r by lia. f_equal. lia.
Qed.

Lemma pow2_pos k : 0 <= k -> 0 < 2 ^ k.
Proof. intros. apply Z.pow_pos_nonneg; lia. Qed.

Lemma iter_shr_1_exact n z :
  0 <= z -> iter_pos shr_1 n (exact_rec (z * 2 ^ Zpos n)) = exact_rec z.
Proof.
  revert z. induction n as [n IH|n IH|]; intros z Hz.
  - change (iter_pos shr_1 n~1 (exact_rec (z * 2 ^ Zpos n~1)))
      with (iter_pos shr_1 n
              (iter_pos shr_1 n (shr_1 (exact_rec (z * 2 ^ Zpos n~1))))).
    pose proof (pow2_pos (Zpos n)).
    replace (z * 2 ^ Zpos n~1) with (2 * (z * 2 ^ Zpos n * 2 ^ Zpos n))
      by (rewrite pow2_xI; ring).
    rewrite shr_1_exact by nia.
    rewrite IH by nia. now apply IH.
  - change (iter_pos shr_1 n~0 (exact_rec (z * 2 ^ Zpos n~0)))
      with (iter_pos shr_1 n (iter_pos shr_1 n (exact_rec (z * 2 ^ Zpos n~0)))).
    pose proof (pow2_pos (Zpos n)).
    replace (z * 2 ^ Zpos n~0) with (z * 2 ^ Zpos n * 2 ^ Zpos n)
      by (rewrite pow2_xO; ring).
    rewrite IH by nia. now apply IH.
  - change (iter_pos shr_1 1 (exact_rec (z * 2 ^ 1)))
      with (shr_1 (exact_rec (z * 2 ^ 1))).
    rewrite Z.pow_1_r, Z.mul_comm. now apply shr_1_exact.
Qed.

Lemma fexp_small x : -1021 <= x -> fexp prec emax x = x - 53.
Proof. unfold fexp, SpecFloat.emin, prec, emax. lia. Qed.

(** Rounding a number that fits in 53 digits changes nothing: the result
    is the normal form. *)
Lemma binary_round_aux_exact s p j :
  Zpos (digits2_pos p) <= 53 ->
  53 - Zpos (digits2_pos p) <= j ->
  binary_round_aux prec emax s (Zpos p * 2 ^ j) (- j) loc_Exact = normal s p.
Proof.
  intros Hd Hj.
  set (d := Zpos (digits2_pos p)) in *.
  assert (0 < d) as Hd0 by (unfold d; lia).
  assert (0 <= j) as Hj0 by lia.
  assert (Zdigits2 (Zpos p) = d) as Dp by reflexivity.
  unfold binary_round_aux, shr_fexp.
  rewrite Zdigits2_shift by lia. rewrite Dp.
  replace (d + j + - j) with d by lia.
  rewrite fexp_small by lia.
  change (shr_record_of_loc (Z.pos p * 2 ^ j) loc_Exact)
    with (exact_rec (Zpos p * 2 ^ j)).
  set (y := Zpos p * 2 ^ (53 - d)).
  assert (0 < y) as Hy by (unfold y; pose proof (pow2_pos (53 - d)); nia).
  assert (shr (exact_rec (Z.pos p * 2 ^ j)) (- j) (d - 53 - - j) =
          (exact_rec y, d - 53)) as ->.
  { unfold shr. destruct (d - 53 - - j) as [|n|n] eqn:En; try lia.
    - f_equal; [|lia]. unfold y. now replace j with (53 - d) by lia.
    - f_equal; [|lia].
      replace (Zpos p * 2 ^ j) with (y * 2 ^ Zpos n).
      + apply iter_shr_1_exact. lia.
      + unfold y. rewrite <- Z.mul_assoc, <- Z.pow_add_r by lia.
        now replace (53 - d + Zpos n) with j by lia. }
  cbn [shr_m exact_rec loc_of_shr_record round_nearest_even].
  replace (Zdigits2 y) with 53.
  2:{ unfold y. rewrite Zdigits2_shift by lia. rewrite Dp. lia. }
  replace (53 + (d - 53)) with d by lia.
  rewrite fexp_small by lia.
  replace (d - 53 - (d - 53)) with 0 by lia.
  cbn [shr_record_of_loc shr shr_m].
  unfold normal. fold d. change prec with 53. fold y.
  destruct y as [|q|q] eqn:Ey; try lia.
  assert ((d - 53 <=? emax - 53) = true) as -> by (apply Z.leb_le; unfold emax; lia).
  reflexivity.
Qed.

Lemma iter_xO_pow2 p k : Zpos (Pos.iter xO p k) = Zpos p * 2 ^ Zpos k.
Proof.
  induction k as [|k IH] using Pos.peano_ind.
  - simpl. lia.
  - rewrite Pos.iter_succ, Pos2Z.inj_xO, IH, Pos2Z.inj_succ, Z.pow_succ_r by lia.
    ring.
Qed.

Lemma digits_le_53 p : Zpos p < 2 ^ 53 -> Zpos (digits2_pos p) <= 53.
Proof.
  intros H. change (Zdigits2 (Zpos p) <= 53). apply Zdigits2_le; lia.
Qed.

(** [float(q)] is exact below [2^53]. *)
Lemma py_float_of_int_exact q :
  Zpos q < 2 ^ 53 -> py_float_of_int (Zpos q) = Ok (normal false q).
Proof.
  intros Hq. pose proof (digits_le_53 q Hq) as Hd.
  unfold py_float_of_int, binary_normalize, binary_round.
  rewrite Z.add_0_r, fexp_small by lia.
  unfold shl_align. rewrite Z.sub_0_r.
  destruct (Zpos (digits2_pos q) - 53) as [|k|k] eqn:Ek; try lia.
  - rewrite <- (Z.mul_1_r (Zpos q)). change 1 with (2 ^ 0) at 1.
    change 0 with (- 0) at 2.
    rewrite binary_round_aux_exact by lia. reflexivity.
  - rewrite iter_xO_pow2. rewrite <- Pos2Z.opp_pos.
    rewrite binary_round_aux_exact by lia. reflexivity.
Qed.

Lemma normal_mantissa p :
  Zpos (digits2_pos p) <= 53 ->
  Zpos (Z.to_pos (Zpos p * 2 ^ (prec - Zpos (digits2_pos p)))) =
  Zpos p * 2 ^ (53 - Zpos (digits2_pos p)).
Proof.
  intros Hd. change prec with 53. rewrite Z2Pos.id; [reflexivity|].
  pose proof (pow2_pos (53 - Zpos (digits2_pos p))). nia.
Qed.

(** The product of two such doubles is exact when it fits in 53 digits. *)
Lemma SFmul_exact a b :
  Zpos a * Zpos b < 2 ^ 53 ->
  SFmul prec emax (normal false a) (normal false b) = normal false (a * b).
Proof.
  intros Hab.
  assert (Zpos a < 2 ^ 53) as Ha by nia.
  assert (Zpos b < 2 ^ 53) as Hb by nia.
  pose proof (digits_le_53 a Ha) as Hda.
  pose proof (digits_le_53 b Hb) as Hdb.
  pose proof (digits_le_53 (a * b) Hab) as Hdab.
  pose proof (Zdigits2_mul_lower (Zpos a) (Zpos b)) as Hlow.
  change (Zdigits2 (Zpos a)) with (Zpos (digits2_pos a)) in Hlow.
  change (Zdigits2 (Zpos b)) with (Zpos (digits2_pos b)) in Hlow.
  change (Zdigits2 (Zpos a * Zpos b)) with (Zpos (digits2_pos (a * b))) in Hlow.
  unfold normal at 1 2. unfold SFmul. cbn [xorb].
  rewrite Pos2Z.inj_mul, !normal_mantissa by assumption.
  set (da := Zpos (digits2_pos a)) in *. set (db := Zpos (digits2_pos b)) in *.
  replace (Zpos a * 2 ^ (53 - da) * (Zpos b * 2 ^ (53 - db)))
    with (Zpos (a * b) * 2 ^ (106 - da - db)).
  2:{ replace (106 - da - db) with (53 - da + (53 - db)) by lia.
      rewrite Z.pow_add_r, Pos2Z.inj_mul by lia. ring. }
  change prec with 53.
  replace (da - 53 + (db - 53)) with (- (106 - da - db)) by lia.
  apply binary_round_aux_exact; lia.
Qed.

Lemma new_location_exact n : new_location n 0 = loc_Exact.
Proof. unfold new_location. now destruct (Z.even n). Qed.

(** [(m * n) / n] is exact when [m] fits in 53 digits. *)
Lemma py_truediv_exact m n :
  Zpos m < 2 ^ 53 -> py_truediv (Zpos m * Zpos n) (Zpos n) = Ok (normal false m).
Proof.
  intros Hm. pose proof (digits_le_53 m Hm) as Hdm.
  unfold py_truediv. cbn [Z.eqb Z.mul Z_to_SF SFdiv xorb].
  unfold SFdiv_core_binary.
  pose proof (Zdigits2_mul_lower (Zpos m) (Zpos n) eq_refl eq_refl) as Hlow.
  pose proof (Zdigits2_mul_upper (Zpos m) (Zpos n) eq_refl eq_refl) as Hup.
  change (Zpos m * Zpos n) with (Zpos (m * n)) in Hlow, Hup.
  assert (0 < Zdigits2 (Zpos m)) as Dm by (simpl; lia).
  change (Zdigits2 (Zpos m)) with (Zpos (digits2_pos m)) in *.
  set (d1 := Zdigits2 (Zpos (m * n))) in *.
  set (d2 := Zdigits2 (Zpos n)) in *.
  set (dm := Zpos (digits2_pos m)) in *.
  rewrite !Z.add_0_r, Z.sub_0_r.
  rewrite fexp_small by lia.
  replace (Z.min (d1 - d2 - 53) 0) with (d1 - d2 - 53) by lia.
  set (s := 0 - (d1 - d2 - 53)).
  assert (0 <= s) as Hs by (unfold s; lia).
  assert (match s with
          | 0 => Zpos (m * n)
          | Zpos _ => Z.shiftl (Zpos (m * n)) s
          | Zneg _ => 0
          end = Zpos m * 2 ^ s * Zpos n) as ->.
  { destruct s as [|k|k] eqn:Es; try lia.
    rewrite Z.shiftl_mul_pow2 by lia. rewrite Pos2Z.inj_mul. ring. }
  pose proof (Z.div_mul (Zpos m * 2 ^ s) (Zpos n)) as Hq.
  pose proof (Z.mod_mul (Zpos m * 2 ^ s) (Zpos n)) as Hr.
  unfold Z.div, Z.modulo in Hq, Hr.
  destruct (Z.div_eucl (Zpos m * 2 ^ s * Zpos n) (Zpos n)) as [q r].
  rewrite Hq, Hr by lia. rewrite new_location_exact.
  replace (d1 - d2 - 53) with (- s) by (unfold s; lia).
  rewrite binary_round_aux_exact by (unfold s; lia).
  reflexivity.
Qed.

(** [int] of such a double gives the integer back. *)
Lemma py_int_of_float_normal s p :
  Zpos (digits2_pos p) <= 53 ->
  py_int_of_float (normal s p) = Ok (cond_Zopp s (Zpos p)).
Proof.
  intros Hd. unfold normal, py_int_of_float. do 2 f_equal.
  rewrite normal_mantissa by exact Hd. change prec with 53.
  set (d := Zpos (digits2_pos p)) in *.
  destruct (d - 53) as [|k|k] eqn:Ek; try lia.
  - replace (53 - d) with 0 by lia. rewrite Z.pow_0_r. lia.
  - replace (53 - d) with (Zpos k) by lia.
    apply Z.div_mul. pose proof (pow2_pos (Zpos k)). lia.
Qed.

(** The estimator's arithmetic is exact on a whole-number mean. *)
Lemma float_chain_exact m n q :
  0 < n -> 0 <= m < 2 ^ 53 -> 0 <= q < 2 ^ 53 -> q * m < 2 ^ 53 ->
  (avg_duration <- py_truediv (m * n) n ;;
   estimated_time <- py_int_mul_float q avg_duration ;;
   py_int_of_float estimated_time) = Ok (q * m).
Proof.
  intros Hn Hm Hq Hqm.
  destruct n as [|n|n]; try lia.
  destruct m as [|m|m]; try lia; destruct q as [|q|q]; try lia.
  - reflexivity.
  - unfold py_int_mul_float. rewrite py_float_of_int_exact by lia. reflexivity.
  - rewrite py_truediv_exact by lia. reflexivity.
  - rewrite py_truediv_exact by lia. cbn [bind].
    unfold py_int_mul_float. rewrite py_float_of_int_exact by lia. cbn [bind].
    rewrite SFmul_exact by lia.
    rewrite py_int_of_float_normal by (apply digits_le_53; lia).
    reflexivity.
Qed.

(** * Further properties of the code *)

(** ** More on [sorted] *)

Section SortedMore.
Context {A K : Type}.
Variable lt : K -> K -> bool.
Variable key : A -> K.

Hypothesis lt_asym : forall a b, lt a b = true -> lt b a = false.
Hypothesis le_trans :
  forall a b c, lt b a = false -> lt c b = false -> lt c a = false.

(** A list that is already in order comes back as it is. *)
Lemma sorted_fixed l :
  StronglySorted (key_le lt key) l -> sorted lt key l = l.
Proof.
  induction 1 as [|x l Hs IH Hx]; simpl; [reflexivity|].
  rewrite IH. destruct Hx as [|y l Hy _]; simpl; [reflexivity|].
  unfold key_le in Hy. now rewrite Hy.
Qed.

Lemma sorted_idem l : sorted lt key (sorted lt key l) = sorted lt key l.
Proof. apply sorted_fixed. now apply sorted_sorted. Qed.

Lemma all_related_sorted (R : A -> A -> Prop) l :
  (forall x y, In x l -> In y l -> R x y) -> StronglySorted R l.
Proof.
  induction l as [|x l IH]; intros H; constructor.
  - apply IH. intros a b Ha Hb. apply H; now right.
  - apply Forall_forall. intros y Hy. apply H; [now left|now right].
Qed.

(** Stability: the members picked by [p] keep their input order when no two
    of them are told apart by the keys. *)
Lemma sorted_stable p l :
  (forall x y, p x = true -> p y = true -> lt (key y) (key x) = false) ->
  filter p (sorted lt key l) = filter p l.
Proof.
  intros Hp. rewrite filter_sorted by assumption.
  apply sorted_fixed, all_related_sorted.
  intros x y Hx Hy. apply filter_In in Hx as [_ Hx], Hy as [_ Hy].
  now apply Hp.
Qed.
End SortedMore.

Lemma flag_time_lt_irrefl k : flag_time_lt k k = false.
Proof.
  destruct k as [b t]. unfold flag_time_lt, tuple_lt. simpl.
  rewrite Bool.eqb_reflx. apply Z.ltb_irrefl.
Qed.

Lemma same_key_helper b t x :
  same_key b t x = true -> helper_key x = (b, t).
Proof.
  unfold same_key, helper_key. intros H.
  apply andb_true_iff in H as [Hb Ht].
  apply Bool.eqb_prop in Hb. apply Z.eqb_eq in Ht. now subst.
Qed.

Lemma same_key_display b t x :
  same_key b t x = true -> display_key x = (negb b, t).
Proof.
  unfold same_key, display_key. intros H.
  apply andb_true_iff in H as [Hb Ht].
  apply Bool.eqb_prop in Hb. apply Z.eqb_eq in Ht. now subst.
Qed.

(** X1: whatever list it is given, the ordering helper returns the same
    entries, non-emergency entries before emergency ones and each group by
    joined_at ascending, and entries with the same flag and timestamp keep
    the order they had in the input. *)
Theorem sort_queue_stable_sort l :
  Permutation (sort_queue l) l /\
  StronglySorted emergency_last (sort_queue l) /\
  (forall b t, filter (same_key b t) (sort_queue l) = filter (same_key b t) l).
Proof.
  split; [apply sorted_perm|]. split; [apply helper_sorted|].
  intros b t. change (sort_queue l) with (sorted flag_time_lt helper_key l).
  apply sorted_stable.
  - apply flag_time_lt_asym.
  - apply flag_time_le_trans.
  - intros x y Hx Hy.
    rewrite (same_key_helper _ _ _ Hx), (same_key_helper _ _ _ Hy).
    apply flag_time_lt_irrefl.
Qed.

(** X2: the ordering helper leaves a list alone that is already in its
    order, so applying it twice is the same as applying it once. *)
Theorem sort_queue_idempotent :
  (forall l, StronglySorted emergency_last l -> sort_queue l = l) /\
  (forall l, sort_queue (sort_queue l) = sort_queue l).
Proof.
  split.
  - intros l H. apply sorted_fixed.
    eapply StronglySorted_impl; [|exact H].
    intros x y. apply helper_order.
  - intros l. apply sorted_idem;
      [apply flag_time_lt_asym|apply flag_time_le_trans].
Qed.

Lemma sort_queue_idempotent_witness :
  sort_queue [an_entry 1 "p1" "d1" 100 false; an_entry 2 "p2" "d1" 50 true] =
  [an_entry 1 "p1" "d1" 100 false; an_entry 2 "p2" "d1" 50 true].
Proof.
  apply (proj1 sort_queue_idempotent).
  apply SSorted_cons; [apply SSorted_cons; [apply SSorted_nil|apply Forall_nil]|].
  apply Forall_cons; [|apply Forall_nil]. left. split; reflexivity.
Defined.

(** X3: in the doctor-queue listing, entries of known users that have the
    same emergency flag and the same joined_at appear in storage order. *)
Theorem get_doctor_queue_ties_in_storage_order db doctor_id :
  exists l,
    get_doctor_queue db doctor_id =
      (JArr (flat_map (listing_item db) l), 200) /\
    listed_queue_ids (get_doctor_queue db doctor_id) = map Queue.id l /\
    forall b t,
      filter (same_key b t) l =
      filter (same_key b t)
             (filter (has_user db) (Queue_by_doctor db doctor_id)).
Proof.
  exists (sorted flag_time_lt display_key
                 (filter (has_user db) (Queue_by_doctor db doctor_id))).
  split; [|split].
  - rewrite get_doctor_queue_eq, listing_item_known. do 3 f_equal.
    apply filter_sorted; [apply flag_time_lt_asym|apply flag_time_le_trans].
  - apply listed_queue_ids_eq.
  - intros b t. apply sorted_stable.
    + apply flag_time_lt_asym.
    + apply flag_time_le_trans.
    + intros x y Hx Hy.
      rewrite (same_key_display _ _ _ Hx), (same_key_display _ _ _ Hy).
      apply flag_time_lt_irrefl.
Qed.

(** ** More on completing a consultation *)

Lemma Queue_get_none_inv db pk e :
  Queue_get db pk = None -> In e (Queue_table db) -> Queue.id e <> pk.
Proof.
  unfold Queue_get. intros H Hin E.
  eapply find_none in H; [|exact Hin]. simpl in H.
  apply Z.eqb_neq in H. contradiction.
Qed.

Lemma filter_all {A : Type} (p : A -> bool) l :
  (forall x, In x l -> p x = true) -> filter p l = l.
Proof.
  induction l as [|a l IH]; intros H; simpl; [reflexivity|].
  rewrite (H a) by now left. f_equal. apply IH. intros; apply H; now right.
Qed.

(** What the handler does to the three tables, found or not. *)
Lemma complete_consultation_tables db queue_id now :
  User_table (snd (complete_consultation db queue_id now)) = User_table db /\
  Queue_table (snd (complete_consultation db queue_id now)) =
    filter (fun x => negb (Queue.id x =? queue_id)) (Queue_table db).
Proof.
  destruct (Queue_get db queue_id) as [e|] eqn:G.
  - rewrite (complete_consultation_found _ _ _ _ G). simpl.
    apply Queue_get_some in G as [_ <-]. now split.
  - unfold complete_consultation. rewrite G. simpl. split; [reflexivity|].
    symmetry. apply filter_all. intros x Hx.
    apply negb_true_iff, Z.eqb_neq. now apply (Queue_get_none_inv db).
Qed.

Lemma seconds_range us : 0 <= (us / 1000000) mod 86400 / 60 <= 1439.
Proof.
  pose proof (Z.mod_pos_bound (us / 1000000) 86400 eq_refl) as H.
  split.
  - apply Z.div_pos; lia.
  - apply Z.lt_succ_r. apply Z.div_lt_upper_bound; lia.
Qed.

(** X4: when the queue_id names no entry the consultation history is left
    as it is, whatever the key and whatever the store refuses. When it names
    an entry, is a signed 64-bit integer and the store refuses nothing, the
    history grows by exactly one Consultation, whose duration_minutes lies
    between 1 and 1439 whatever the two timestamps are, also when the
    completion time precedes joined_at. *)
Theorem complete_consultation_duration_range refused db queue_id now :
  ((forall e, In e (Queue_table db) -> Queue.id e <> queue_id) ->
   Consultation_table
     (snd (complete_consultation_on refused db queue_id now)) =
   Consultation_table db) /\
  (forall e, In e (Queue_table db) -> Queue.id e = queue_id ->
   sqlite_integer queue_id = true ->
   refused 0%nat = false -> refused 1%nat = false ->
   refused 2%nat = false ->
   exists c,
     Consultation_table
       (snd (complete_consultation_on refused db queue_id now)) =
       Consultation_table db ++ [c] /\
     duration_in_range c).
Proof.
  split.
  - intros H. destruct (sqlite_integer queue_id) eqn:Hk.
    + rewrite complete_consultation_on_none; trivial.
      now apply Queue_get_none.
    + now rewrite complete_consultation_on_overflow.
  - intros e Hin E Hk R0 R1 R2.
    destruct (Queue_get db queue_id) as [e'|] eqn:G;
      [|now destruct (Queue_get_none_inv _ _ _ G Hin)].
    rewrite (complete_consultation_on_found _ _ _ _ _ Hk G), R0, R1, R2.
    cbn [orb]. rewrite (complete_consultation_found _ _ _ _ G). simpl.
    eexists. split; [reflexivity|].
    eexists. split; [reflexivity|].
    pose proof (seconds_range (now - Queue.joined_at e')). lia.
Qed.

(** Entry 3 joined at 200 and is completed at 50: the recorded duration is
    1439 minutes. Key 9 names no entry. *)
Lemma complete_consultation_duration_range_witness :
  Consultation_table
    (snd (complete_consultation_on (fun _ => false) shared_db 9 50)) =
    Consultation_table shared_db /\
  exists c,
    Consultation_table
      (snd (complete_consultation_on (fun _ => false) shared_db 3 50)) =
      Consultation_table shared_db ++ [c] /\
    duration_in_range c.
Proof.
  split.
  - apply (proj1 (complete_consultation_duration_range
                    (fun _ => false) shared_db 9 50)).
    intros e [<-|[<-|[<-|[<-|[<-|[]]]]]]; discriminate.
  - apply (proj2 (complete_consultation_duration_range
                    (fun _ => false) shared_db 3 50)
                 (an_entry 3 "p2" "d1" 200 true));
      try reflexivity.
    simpl. tauto.
Defined.

(** X5: for an entry completed less than one day after it joined, the
    recorded duration_minutes is the number of whole minutes elapsed, with 1
    in place of 0. *)
Theorem complete_consultation_within_a_day db queue_id now e :
  Queue_get db queue_id = Some e ->
  0 <= now - Queue.joined_at e < 86400000000 ->
  exists c,
    Consultation_table (snd (complete_consultation db queue_id now)) =
      Consultation_table db ++ [c] /\
    Consultation.start_time c = Queue.joined_at e /\
    Consultation.end_time c = now /\
    Consultation.duration_minutes c =
      Some (elapsed_minutes (Queue.joined_at e) now).
Proof.
  intros G Hday. rewrite (complete_consultation_found _ _ _ _ G). simpl.
  eexists. split; [reflexivity|]. simpl.
  split; [reflexivity|]. split; [reflexivity|].
  f_equal. now apply seconds_within_a_day.
Qed.

Lemma complete_consultation_within_a_day_witness :
  exists c,
    Consultation_table (snd (complete_consultation clinic_db 2 5400000200)) =
      Consultation_table clinic_db ++ [c] /\
    Consultation.start_time c = 200 /\
    Consultation.end_time c = 5400000200 /\
    Consultation.duration_minutes c = Some (elapsed_minutes 200 5400000200).
Proof.
  apply (complete_consultation_within_a_day
           clinic_db 2 5400000200 (an_entry 2 "p2" "d1" 200 true)).
  - reflexivity.
  - simpl. lia.
Defined.



Lemma has_user_same_users db db' e :
  User_table db' = User_table db -> has_user db' e = has_user db e.
Proof. unfold has_user, User_get. now intros ->. Qed.

Lemma filter_comm {A : Type} (p q : A -> bool) l :
  filter p (filter q l) = filter q (filter p l).
Proof.
  induction l as [|a l IH]; simpl; [reflexivity|].
  destruct (p a) eqn:Pa, (q a) eqn:Qa; simpl; rewrite ?Pa, ?Qa, IH;
    reflexivity.
Qed.

Lemma filter_ext_eq {A : Type} (p q : A -> bool) l :
  (forall x, p x = q x) -> filter p l = filter q l.
Proof.
  intros H. induction l as [|a l IH]; simpl; [reflexivity|].
  now rewrite H, IH.
Qed.

Lemma map_id_filter (q : Z) l :
  map Queue.id (filter (fun x => negb (Queue.id x =? q)) l) =
  filter (fun n => negb (n =? q)) (map Queue.id l).
Proof.
  induction l as [|a l IH]; simpl; [reflexivity|].
  destruct (negb (Queue.id a =? q)); simpl; now rewrite IH.
Qed.

(** X7: after a completion every doctor-queue listing shows what it showed
    before without the completed queue_id: the other patients stay, in the
    same order. *)
Theorem complete_consultation_keeps_listing_order db queue_id now d :
  listed_queue_ids
    (get_doctor_queue (snd (complete_consultation db queue_id now)) d) =
  filter (fun n => negb (n =? queue_id))
         (listed_queue_ids (get_doctor_queue db d)).
Proof.
  destruct (complete_consultation_tables db queue_id now) as [HU HQ].
  rewrite !listed_queue_ids_eq, <- map_id_filter. f_equal.
  rewrite (filter_sorted flag_time_lt display_key
             flag_time_lt_asym flag_time_le_trans).
  f_equal. unfold Queue_by_doctor. rewrite HQ.
  rewrite (filter_ext_eq (has_user _) (has_user db))
    by (intros x; now apply has_user_same_users).
  rewrite (filter_comm _ (has_user db)). f_equal.
  apply filter_comm.
Qed.

(** X8: when no user has two queue entries, completing a patient's entry
    takes the patient out of the queue: the position handler then answers
    not-found for that user, and a new join request of that user is
    accepted. *)
Theorem complete_consultation_frees_the_user db e now :
  NoDup (map Queue.user_id (Queue_table db)) ->
  In e (Queue_table db) ->
  let db' := snd (complete_consultation db (Queue.id e) now) in
  get_queue_position db' (Queue.user_id e) =
    Ok (message "Not in a queue", 404) /\
  forall data now',
    req_user_id data = Queue.user_id e ->
    fst (join_queue db' data now') =
    (message "Successfully joined the queue", 201).
Proof.
  intros Hn Hin db'.
  assert (forall x, In x (Queue_table db') ->
                    Queue.user_id x <> Queue.user_id e) as Hgone.
  { intros x Hx E. unfold db' in Hx.
    rewrite (proj2 (complete_consultation_tables db (Queue.id e) now)) in Hx.
    apply filter_In in Hx as [Hx Hid].
    apply negb_true_iff, Z.eqb_neq in Hid. apply Hid. f_equal.
    clear Hid. induction (Queue_table db) as [|a l IH]; [contradiction|].
    simpl in Hn. inversion Hn as [|? ? Ha Hl]; subst.
    destruct Hx as [->|Hx], Hin as [->|Hin]; trivial.
    - exfalso. apply Ha. rewrite E. now apply in_map.
    - exfalso. apply Ha. rewrite <- E. now apply in_map.
    - now apply IH. }
  split.
  - unfold get_queue_position. now rewrite (first_by_user_none _ _ Hgone).
  - intros data now' Hu. unfold join_queue. rewrite Hu.
    now rewrite (first_by_user_none _ _ Hgone).
Qed.

Lemma complete_consultation_frees_the_user_witness :
  get_queue_position (snd (complete_consultation clinic_db 2 500)) "p2" =
    Ok (message "Not in a queue", 404) /\
  forall data now',
    req_user_id data = "p2" ->
    fst (join_queue (snd (complete_consultation clinic_db 2 500)) data now') =
    (message "Successfully joined the queue", 201).
Proof.
  apply (complete_consultation_frees_the_user
           clinic_db (an_entry 2 "p2" "d1" 200 true) 500).
  - simpl. repeat (constructor; [simpl; intuition discriminate|]). constructor.
  - simpl. right. now left.
Defined.

(** ** More on joining and on positions *)

Lemma join_queue_tables db data now :
  User_table (snd (join_queue db data now)) = User_table db /\
  Consultation_table (snd (join_queue db data now)) = Consultation_table db /\
  (Queue_table (snd (join_queue db data now)) = Queue_table db \/
   exists new,
     Queue_table (snd (join_queue db data now)) = Queue_table db ++ [new] /\
     Queue.user_id new = req_user_id data /\
     Queue.doctor_id new = req_doctor_id data /\
     Queue.joined_at new = now /\
     Queue.id new = next_id (map Queue.id (Queue_table db)) /\
     first (Queue_by_user db (req_user_id data)) = None).
Proof.
  unfold join_queue.
  destruct (first (Queue_by_user db (req_user_id data))) eqn:F; simpl.
  - repeat split; now left.
  - repeat split. right. eexists. split; [reflexivity|]. now repeat split.
Qed.

(** X9: once a user has sent a join request, any further join request of
    that user, for the same or another doctor, gets the conflict answer and
    changes nothing in the store. *)
Theorem join_queue_twice db data now data' now' :
  req_user_id data' = req_user_id data ->
  join_queue (snd (join_queue db data now)) data' now' =
  ((message "You are already in a queue", 409),
   snd (join_queue db data now)).
Proof.
  intros Hu.
  assert (exists e, In e (Queue_table (snd (join_queue db data now))) /\
                    Queue.user_id e = req_user_id data') as (e & Hin & He).
  { rewrite Hu. unfold join_queue.
    destruct (first (Queue_by_user db (req_user_id data))) as [e|] eqn:F.
    - exists e. now apply first_by_user_in.
    - eexists. simpl. split; [apply in_or_app; right; now left|reflexivity]. }
  unfold join_queue at 1.
  destruct (first_by_user_some _ _ _ Hin He) as [e' ->]. reflexivity.
Qed.

Lemma join_queue_twice_witness :
  join_queue
    (snd (join_queue clinic_db
            {| req_user_id := "p4"; req_doctor_id := "d1";
               req_is_emergency := None |} 500))
    {| req_user_id := "p4"; req_doctor_id := "d2";
       req_is_emergency := Some true |} 600 =
  ((message "You are already in a queue", 409),
   snd (join_queue clinic_db
          {| req_user_id := "p4"; req_doctor_id := "d1";
             req_is_emergency := None |} 500)).
Proof.
  apply (join_queue_twice clinic_db
           {| req_user_id := "p4"; req_doctor_id := "d1";
              req_is_emergency := None |} 500
           {| req_user_id := "p4"; req_doctor_id := "d2";
              req_is_emergency := Some true |} 600).
  reflexivity.
Defined.

Lemma count_app {A : Type} (l l' : list A) :
  count (l ++ l') = count l + count l'.
Proof. unfold count. rewrite length_app. lia. Qed.

Lemma count_nonneg {A : Type} (l : list A) : 0 <= count l.
Proof. unfold count. lia. Qed.

Lemma count_filter_le {A : Type} (p : A -> bool) l :
  count (filter p l) <= count l.
Proof. unfold count. pose proof (filter_length_le p l). lia. Qed.

Lemma stored_before_last e l :
  (forall x, In x l -> Queue.id x <> Queue.id e) ->
  stored_before e (l ++ [e]) = l.
Proof.
  induction l as [|a l IH]; intros H; simpl.
  - now rewrite Z.eqb_refl.
  - destruct (Z.eqb_spec (Queue.id a) (Queue.id e)) as [E|_].
    + exfalso. apply (H a); [now left|exact E].
    + f_equal. apply IH. intros; apply H; now right.
Qed.

Lemma count_not_later t l :
  (forall x, In x l -> Queue.joined_at x <= t) ->
  count (filter (fun x => Queue.joined_at x <? t) l) +
  count (filter (fun x => Queue.joined_at x =? t) l) = count l.
Proof.
  induction l as [|a l IH]; intros H; [reflexivity|].
  cbn [filter]. specialize (IH (fun x Hx => H x (or_intror Hx))).
  pose proof (H a (or_introl eq_refl)).
  destruct (Z.ltb_spec (Queue.joined_at a) t),
           (Z.eqb_spec (Queue.joined_at a) t);
    rewrite ?count_cons; lia.
Qed.

(** Who joins behind everybody is told the length of the queue the handler
    queries. *)
Lemma join_queue_last_position db data now :
  unique_queue_ids db ->
  (forall e, In e (Queue_table db) -> Queue.user_id e <> req_user_id data) ->
  (forall e, In e (Queue_by_doctor db (req_doctor_id data)) ->
             Queue.joined_at e <= now) ->
  let db' := snd (join_queue db data now) in
  count (Queue_by_doctor db' (req_doctor_id data)) =
    count (Queue_by_doctor db (req_doctor_id data)) + 1 /\
  get_queue_position db' (req_user_id data) =
  (estimated_wait <- estimate_wait_time db' (req_doctor_id data) ;;
   Ok (JObj [ ("position",
               JInt (count (Queue_by_doctor db' (req_doctor_id data))));
              ("doctor_id", JStr (req_doctor_id data));
              ("estimated_wait_minutes", JInt estimated_wait) ], 200)).
Proof.
  intros Hn Hnew Htime db'.
  pose proof (join_queue_keeps_ids_unique db data now Hn) as Hn'.
  fold db' in Hn'.
  destruct (join_queue_tables db data now)
    as (_ & _ & [Hsame|(new & HQ & Hu & Hd & Ht & Hid & _)]).
  { exfalso. revert Hsame. unfold join_queue.
    rewrite (first_by_user_none _ _ Hnew). simpl.
    intros H. apply (f_equal (@List.length _)) in H.
    rewrite length_app in H. simpl in H. lia. }
  fold db' in HQ.
  assert (Queue_by_doctor db' (req_doctor_id data) =
          Queue_by_doctor db (req_doctor_id data) ++ [new]) as HD.
  { unfold Queue_by_doctor. rewrite HQ, filter_app. simpl.
    now rewrite Hd, String.eqb_refl. }
  assert (first (Queue_by_user db' (req_user_id data)) = Some new) as HF.
  { unfold Queue_by_user. rewrite HQ, filter_app. simpl.
    rewrite Hu, String.eqb_refl.
    fold (Queue_by_user db (req_user_id data)).
    pose proof (first_by_user_none _ _ Hnew) as F.
    destruct (Queue_by_user db (req_user_id data)); [reflexivity|discriminate]. }
  split; [rewrite HD, count_app; reflexivity|].
  rewrite (get_queue_position_found _ _ _ Hn' HF). rewrite Hd.
  assert (chronological_rank new (Queue_by_doctor db' (req_doctor_id data)) =
          count (Queue_by_doctor db' (req_doctor_id data))) as ->;
    [|reflexivity].
  rewrite HD. unfold chronological_rank.
  rewrite stored_before_last.
  - rewrite filter_app. cbn [filter]. rewrite Z.ltb_irrefl, app_nil_r.
    rewrite Ht, count_app. change (count [new]) with 1.
    pose proof (count_not_later now _ Htime). lia.
  - intros x Hx E. apply filter_In in Hx as [Hx _].
    rewrite Hid in E. apply (next_id_fresh (map Queue.id (Queue_table db))).
    rewrite <- E. now apply in_map.
Qed.

(** X10: a patient who joins when the primary keys are distinct, the
    patient has no entry yet and no entry of the requested doctor has a
    joined_at later than the clock, is told the last position: the number of
    stored entries that now carry the doctor's id, one more than before. *)
Theorem join_queue_then_position db data now :
  unique_queue_ids db ->
  (forall e, In e (Queue_table db) -> Queue.user_id e <> req_user_id data) ->
  (forall e, In e (Queue_table db) ->
             Queue.doctor_id e = req_doctor_id data ->
             Queue.joined_at e <= now) ->
  let db' := snd (join_queue db data now) in
  count (filter (fun e => String.eqb (Queue.doctor_id e) (req_doctor_id data))
                (Queue_table db')) =
    count (filter (fun e => String.eqb (Queue.doctor_id e)
                                       (req_doctor_id data))
                  (Queue_table db)) + 1 /\
  get_queue_position db' (req_user_id data) =
  (estimated_wait <- estimate_wait_time db' (req_doctor_id data) ;;
   Ok (JObj [ ("position",
               JInt (count (filter
                              (fun e => String.eqb (Queue.doctor_id e)
                                                   (req_doctor_id data))
                              (Queue_table db'))));
              ("doctor_id", JStr (req_doctor_id data));
              ("estimated_wait_minutes", JInt estimated_wait) ], 200)).
Proof.
  intros Hn Hnew Htime.
  apply (join_queue_last_position db data now Hn Hnew).
  intros e He. apply filter_In in He as [He Hd].
  apply String.eqb_eq in Hd. now apply Htime.
Qed.

(** In the clinic with two doctors a fourth patient joins d1 while two
    patients wait for d2: the position is 4, not 6. *)
Lemma join_queue_then_position_witness :
  count (filter (fun e => String.eqb (Queue.doctor_id e) "d1")
                (Queue_table
                   (snd (join_queue shared_db
                           {| req_user_id := "p4"; req_doctor_id := "d1";
                              req_is_emergency := Some true |} 500)))) =
    3 + 1 /\
  get_queue_position
    (snd (join_queue shared_db
            {| req_user_id := "p4"; req_doctor_id := "d1";
               req_is_emergency := Some true |} 500)) "p4" =
  Ok (JObj [ ("position", JInt 4); ("doctor_id", JStr "d1");
             ("estimated_wait_minutes", JInt 80) ], 200).
Proof.
  apply (join_queue_then_position shared_db
           {| req_user_id := "p4"; req_doctor_id := "d1";
              req_is_emergency := Some true |} 500).
  - unfold unique_queue_ids. simpl.
    repeat (constructor; [simpl; intuition discriminate|]). constructor.
  - intros e [<-|[<-|[<-|[<-|[<-|[]]]]]]; discriminate.
  - intros e [<-|[<-|[<-|[<-|[<-|[]]]]]] _; simpl; lia.
Defined.

Lemma rank_bounds e l :
  NoDup (map Queue.id l) -> In e l ->
  1 <= chronological_rank e l <= count l.
Proof.
  intros Hn Hin. split.
  { unfold chronological_rank.
    pose proof (count_nonneg
      (filter (fun x => Queue.joined_at x <? Queue.joined_at e) l)).
    pose proof (count_nonneg
      (filter (fun x => Queue.joined_at x =? Queue.joined_at e)
              (stored_before e l))).
    lia. }
  induction l as [|a l IH]; [contradiction|].
  inversion Hn as [|? ? Ha Hl]; subst.
  destruct (Z.eq_dec (Queue.id a) (Queue.id e)) as [E|E].
  - assert (a = e) as ->.
    { destruct Hin as [Hin|Hin]; [exact Hin|].
      exfalso. apply Ha. rewrite E. now apply in_map. }
    rewrite rank_self, count_cons.
    pose proof (count_filter_le
      (fun x => Queue.joined_at x <? Queue.joined_at e) l). lia.
  - destruct Hin as [Hin|Hin]; [now subst|].
    rewrite (rank_other e a l E), count_cons.
    specialize (IH Hl Hin).
    destruct (Queue.joined_at e <? Queue.joined_at a); lia.
Qed.

(** The shape of every answer of the position handler with status 200. *)
Lemma get_queue_position_200 db u r :
  unique_queue_ids db ->
  get_queue_position db u = Ok r -> snd r = 200 ->
  exists e,
    first (Queue_by_user db u) = Some e /\
    position_of r =
      Some (chronological_rank e (Queue_by_doctor db (Queue.doctor_id e))) /\
    field "doctor_id" (fst r) = Some (JStr (Queue.doctor_id e)).
Proof.
  intros Hn Hr H200.
  destruct (first (Queue_by_user db u)) as [e|] eqn:F.
  - exists e. split; [reflexivity|].
    rewrite (get_queue_position_found _ _ _ Hn F) in Hr.
    destruct (estimate_wait_time db (Queue.doctor_id e)); [|discriminate].
    simpl in Hr. injection Hr as <-. now split.
  - unfold get_queue_position in Hr. rewrite F in Hr.
    injection Hr as <-. discriminate.
Qed.

(** X11: with distinct primary keys, every position the handler reports
    lies between 1 and the number of stored entries that carry the id of the
    doctor it names. *)
Theorem get_queue_position_in_range db user_id r :
  unique_queue_ids db ->
  get_queue_position db user_id = Ok r -> snd r = 200 ->
  exists p d,
    position_of r = Some p /\
    field "doctor_id" (fst r) = Some (JStr d) /\
    1 <= p <= count (filter (fun e => String.eqb (Queue.doctor_id e) d)
                            (Queue_table db)).
Proof.
  intros Hn Hr H200.
  destruct (get_queue_position_200 _ _ _ Hn Hr H200) as (e & F & Hp & Hd).
  eexists. eexists. split; [exact Hp|]. split; [exact Hd|].
  apply first_by_user_in in F as [Hin _].
  apply rank_bounds.
  - now apply NoDup_map_filter.
  - apply filter_In. split; [exact Hin|apply String.eqb_refl].
Qed.

(** In the clinic with two doctors, five patients wait and three of them
    for d1: the position of p3 is 3. *)
Lemma get_queue_position_in_range_witness :
  exists p d,
    position_of
      (JObj [ ("position", JInt 3); ("doctor_id", JStr "d1");
              ("estimated_wait_minutes", JInt 60) ], 200) = Some p /\
    field "doctor_id"
      (fst (JObj [ ("position", JInt 3); ("doctor_id", JStr "d1");
                   ("estimated_wait_minutes", JInt 60) ], 200)) =
      Some (JStr d) /\
    1 <= p <= count (filter (fun e => String.eqb (Queue.doctor_id e) d)
                            (Queue_table shared_db)).
Proof.
  apply (get_queue_position_in_range shared_db "p3").
  - unfold unique_queue_ids. simpl.
    repeat (constructor; [simpl; intuition discriminate|]). constructor.
  - reflexivity.
  - reflexivity.
Defined.

Lemma index_nonneg e l i : index e l = Ok i -> 0 <= i.
Proof.
  revert i. induction l as [|y l IH]; simpl; intros i H; [discriminate|].
  destruct (Queue.id y =? Queue.id e).
  - injection H as <-. lia.
  - destruct (index e l) as [j|]; [|discriminate].
    injection H as <-. specialize (IH j eq_refl). lia.
Qed.

Lemma index_inj e1 e2 l i :
  index e1 l = Ok i -> index e2 l = Ok i -> Queue.id e1 = Queue.id e2.
Proof.
  revert i. induction l as [|y l IH]; simpl; intros i H1 H2; [discriminate|].
  destruct (Z.eqb_spec (Queue.id y) (Queue.id e1)) as [E1|N1],
           (Z.eqb_spec (Queue.id y) (Queue.id e2)) as [E2|N2].
  - congruence.
  - injection H1 as <-.
    destruct (index e2 l) as [j|] eqn:J; [|discriminate].
    injection H2 as H2. apply index_nonneg in J. lia.
  - injection H2 as <-.
    destruct (index e1 l) as [j|] eqn:J; [|discriminate].
    injection H1 as H1. apply index_nonneg in J. lia.
  - destruct (index e1 l) as [j1|]; [|discriminate].
    destruct (index e2 l) as [j2|]; [|discriminate].
    injection H1 as <-. injection H2 as H2.
    apply (IH j1); [reflexivity|f_equal; lia].
Qed.

(** X12: with distinct primary keys, two users who are told the same
    position in the queue of the same doctor are the same user. *)
Theorem get_queue_position_distinct db u1 u2 r1 r2 :
  unique_queue_ids db ->
  get_queue_position db u1 = Ok r1 -> snd r1 = 200 ->
  get_queue_position db u2 = Ok r2 -> snd r2 = 200 ->
  field "doctor_id" (fst r1) = field "doctor_id" (fst r2) ->
  position_of r1 = position_of r2 ->
  u1 = u2.
Proof.
  intros Hn Hr1 H1 Hr2 H2 Hd Hp.
  destruct (get_queue_position_200 _ _ _ Hn Hr1 H1) as (e1 & F1 & P1 & D1).
  destruct (get_queue_position_200 _ _ _ Hn Hr2 H2) as (e2 & F2 & P2 & D2).
  rewrite D1, D2 in Hd. injection Hd as Hd.
  rewrite P1, P2, <- Hd in Hp. injection Hp as Hp.
  apply first_by_user_in in F1 as [I1 <-], F2 as [I2 <-].
  assert (NoDup (map Queue.id (Queue_by_doctor db (Queue.doctor_id e1))))
    as Hnd by now apply NoDup_map_filter.
  assert (In e1 (Queue_by_doctor db (Queue.doctor_id e1))) as J1
    by (apply filter_In; split; [exact I1|apply String.eqb_refl]).
  assert (In e2 (Queue_by_doctor db (Queue.doctor_id e1))) as J2
    by (apply filter_In; split; [exact I2|rewrite Hd; apply String.eqb_refl]).
  pose proof (index_order_by _ _ Hnd J1) as X1.
  pose proof (index_order_by _ _ Hnd J2) as X2.
  rewrite <- Hp in X2.
  f_equal. apply (unique_id_inj (Queue_table db)); trivial.
  eapply index_inj; eassumption.
Qed.

Lemma get_queue_position_distinct_witness :
  "p2" = "p2".
Proof.
  apply (get_queue_position_distinct clinic_db "p2" "p2"
    (JObj [ ("position", JInt 2); ("doctor_id", JStr "d1");
            ("estimated_wait_minutes", JInt 15) ], 200)
    (JObj [ ("position", JInt 2); ("doctor_id", JStr "d1");
            ("estimated_wait_minutes", JInt 15) ], 200)); try reflexivity.
  unfold unique_queue_ids. simpl.
  repeat (constructor; [simpl; intuition discriminate|]). constructor.
Defined.

Lemma count_earlier_step t1 t2 l :
  t1 < t2 ->
  count (filter (fun x => Queue.joined_at x <? t1) l) +
  count (filter (fun x => Queue.joined_at x =? t1) l) <=
  count (filter (fun x => Queue.joined_at x <? t2) l).
Proof.
  intros Ht. induction l as [|a l IH]; [reflexivity|].
  cbn [filter].
  destruct (Z.ltb_spec (Queue.joined_at a) t1),
           (Z.eqb_spec (Queue.joined_at a) t1),
           (Z.ltb_spec (Queue.joined_at a) t2);
    rewrite ?count_cons; lia.
Qed.

Lemma count_stored_before e l :
  NoDup (map Queue.id l) -> In e l ->
  count (filter (fun x => Queue.joined_at x =? Queue.joined_at e)
                (stored_before e l)) + 1 <=
  count (filter (fun x => Queue.joined_at x =? Queue.joined_at e) l).
Proof.
  induction l as [|a l IH]; intros Hn Hin; [contradiction|].
  inversion Hn as [|? ? Ha Hl]; subst.
  cbn [stored_before filter].
  destruct (Z.eqb_spec (Queue.id a) (Queue.id e)) as [E|E].
  - assert (a = e) as ->.
    { destruct Hin as [Hin|Hin]; [exact Hin|].
      exfalso. apply Ha. rewrite E. now apply in_map. }
    rewrite Z.eqb_refl, count_cons. cbn [filter]. change (count []) with 0.
    pose proof (count_nonneg
      (filter (fun x => Queue.joined_at x =? Queue.joined_at e) l)). lia.
  - destruct Hin as [Hin|Hin]; [now subst|].
    specialize (IH Hl Hin). cbn [filter].
    destruct (Queue.joined_at a =? Queue.joined_at e);
      rewrite ?count_cons; lia.
Qed.

Lemma rank_monotone e1 e2 l :
  NoDup (map Queue.id l) -> In e1 l ->
  Queue.joined_at e1 < Queue.joined_at e2 ->
  chronological_rank e1 l < chronological_rank e2 l.
Proof.
  intros Hn H1 Ht. unfold chronological_rank.
  pose proof (count_earlier_step _ _ l Ht).
  pose proof (count_stored_before e1 l Hn H1).
  pose proof (count_nonneg
    (filter (fun x => Queue.joined_at x =? Queue.joined_at e2)
            (stored_before e2 l))).
  lia.
Qed.

(** X13: with distinct primary keys, of two patients of the same doctor
    the one whose entry has the earlier joined_at is told the smaller
    position, whatever the emergency flags of the two entries are. *)
Theorem get_queue_position_follows_arrival db u1 u2 e1 e2 r1 r2 :
  unique_queue_ids db ->
  first (Queue_by_user db u1) = Some e1 ->
  first (Queue_by_user db u2) = Some e2 ->
  Queue.doctor_id e1 = Queue.doctor_id e2 ->
  Queue.joined_at e1 < Queue.joined_at e2 ->
  get_queue_position db u1 = Ok r1 ->
  get_queue_position db u2 = Ok r2 ->
  exists p1 p2,
    position_of r1 = Some p1 /\ position_of r2 = Some p2 /\ p1 < p2.
Proof.
  intros Hn F1 F2 Hd Ht Hr1 Hr2.
  rewrite (get_queue_position_found _ _ _ Hn F1) in Hr1.
  rewrite (get_queue_position_found _ _ _ Hn F2) in Hr2.
  rewrite <- Hd in Hr2.
  destruct (estimate_wait_time db (Queue.doctor_id e1)); [|discriminate].
  simpl in Hr1, Hr2. injection Hr1 as <-. injection Hr2 as <-.
  eexists. eexists. split; [reflexivity|]. split; [reflexivity|].
  apply first_by_user_in in F1 as [I1 _].
  apply rank_monotone; [now apply NoDup_map_filter| |exact Ht].
  apply filter_In. split; [exact I1|apply String.eqb_refl].
Qed.

Lemma get_queue_position_follows_arrival_witness :
  exists p1 p2,
    position_of
      (JObj [ ("position", JInt 1); ("doctor_id", JStr "d1");
              ("estimated_wait_minutes", JInt 15) ], 200) = Some p1 /\
    position_of
      (JObj [ ("position", JInt 2); ("doctor_id", JStr "d1");
              ("estimated_wait_minutes", JInt 15) ], 200) = Some p2 /\
    p1 < p2.
Proof.
  apply (get_queue_position_follows_arrival clinic_db "p1" "p2"
           (an_entry 1 "p1" "d1" 100 false) (an_entry 2 "p2" "d1" 200 true));
    try reflexivity.
  unfold unique_queue_ids. simpl.
  repeat (constructor; [simpl; intuition discriminate|]). constructor.
Defined.

(** ** Registration and login *)

Lemma insert_User_fresh db u :
  (forall x, In x (User_table db) ->
             User.id x <> User.id u /\ User.email x <> User.email u) ->
  insert_User db u =
  Some {| User_table := User_table db ++ [u];
          Queue_table := Queue_table db;
          Consultation_table := Consultation_table db |}.
Proof.
  intros H. unfold insert_User.
  destruct (existsb _ (User_table db)) eqn:E; [|reflexivity].
  apply existsb_exists in E as (x & Hx & Hclash).
  destruct (H x Hx) as [Hid Hem].
  apply orb_true_iff in Hclash as [C|C]; apply String.eqb_eq in C;
    contradiction.
Qed.

Lemma insert_User_taken db u x :
  In x (User_table db) ->
  User.id x = User.id u \/ User.email x = User.email u ->
  insert_User db u = None.
Proof.
  intros Hx Hclash. unfold insert_User.
  assert (existsb (fun x => String.eqb (User.id x) (User.id u) ||
                            String.eqb (User.email x) (User.email u))
                  (User_table db) = true) as ->; [|reflexivity].
  apply existsb_exists. exists x. split; [exact Hx|].
  apply orb_true_iff.
  destruct Hclash as [C|C]; [left|right]; now apply String.eqb_eq.
Qed.

Lemma insert_User_some db u db' :
  insert_User db u = Some db' ->
  db' = {| User_table := User_table db ++ [u];
           Queue_table := Queue_table db;
           Consultation_table := Consultation_table db |} /\
  ~ In (User.id u) (map User.id (User_table db)) /\
  ~ In (User.email u) (map User.email (User_table db)).
Proof.
  unfold insert_User.
  destruct (existsb _ (User_table db)) eqn:E; [discriminate|].
  intros H. injection H as <-. split; [reflexivity|].
  split; intros Hin; apply in_map_iff in Hin as (x & Hx & Hin);
    (assert (existsb (fun x => String.eqb (User.id x) (User.id u) ||
                               String.eqb (User.email x) (User.email u))
                     (User_table db) = true) as T;
     [apply existsb_exists; exists x; split; [exact Hin|];
      apply orb_true_iff; rewrite !String.eqb_eq; auto
     |rewrite T in E; discriminate]).
Qed.

Lemma credentials_snoc db u email password :
  User_by_credentials
    {| User_table := User_table db ++ [u];
       Queue_table := Queue_table db;
       Consultation_table := Consultation_table db |} email password =
  User_by_credentials db email password ++
  (if String.eqb (User.email u) email && String.eqb (User.password u) password
   then [u] else []).
Proof.
  unfold User_by_credentials. simpl. rewrite filter_app. simpl.
  now destruct (_ && _).
Qed.

Lemma credentials_none db email password :
  (forall x, In x (User_table db) -> User.email x <> email) ->
  User_by_credentials db email password = [].
Proof.
  intros H. unfold User_by_credentials.
  induction (User_table db) as [|a l IH]; simpl; [reflexivity|].
  destruct (String.eqb_spec (User.email a) email) as [E|_]; simpl.
  - exfalso. apply (H a); [now left|exact E].
  - apply IH. intros; apply H; now right.
Qed.

(** X14: a registration that carries the three required fields, with an
    email no account has and a fresh identifier, is answered 201 with that
    identifier; a login with the same email and password then answers 200
    with the same identifier and the registered role, and a login with the
    same email and any other password answers 401. *)
Theorem register_then_login db data uuid email password role :
  reg_email data = Str email ->
  reg_password data = Str password ->
  reg_role data = Str role ->
  (forall x, In x (User_table db) ->
             User.id x <> uuid /\ User.email x <> email) ->
  let db' := snd (register db data uuid) in
  fst (register db data uuid) =
    Done (JObj [ ("message", JStr "User registered successfully");
                 ("user_id", JStr uuid) ], 201) /\
  login db' {| login_email := Some email; login_password := Some password |} =
    Done (JObj [ ("message", JStr "Login successful");
                 ("user_id", JStr uuid);
                 ("role", JStr role) ], 200) /\
  (forall other, other <> password ->
     login db' {| login_email := Some email; login_password := Some other |} =
     Done (message "Invalid credentials", 401)).
Proof.
  intros He Hp Hr Hfresh db'. unfold db', register.
  rewrite He, Hp, Hr. cbn [has_key get_item andb negb].
  rewrite insert_User_fresh by exact Hfresh. simpl.
  split; [reflexivity|]. unfold login. simpl.
  assert (forall pw, User_by_credentials db email pw = []) as Hnone
    by (intros pw; apply credentials_none; intros x Hx; apply Hfresh, Hx).
  split.
  - rewrite credentials_snoc, Hnone. simpl.
    now rewrite !String.eqb_refl.
  - intros other Hother. rewrite credentials_snoc, Hnone. simpl.
    rewrite String.eqb_refl. simpl.
    destruct (String.eqb_spec password other) as [E|_]; [|reflexivity].
    now contradiction Hother.
Qed.

Lemma register_then_login_witness :
  fst (register clinic_db
         {| reg_email := Str "eve@clinic.test"; reg_password := Str "pw";
            reg_role := Str "patient"; reg_firstName := Absent;
            reg_lastName := Absent; reg_specialty := Absent |} "u-5") =
    Done (JObj [ ("message", JStr "User registered successfully");
                 ("user_id", JStr "u-5") ], 201) /\
  login (snd (register clinic_db
                {| reg_email := Str "eve@clinic.test";
                   reg_password := Str "pw";
                   reg_role := Str "patient"; reg_firstName := Absent;
                   reg_lastName := Absent; reg_specialty := Absent |} "u-5"))
        {| login_email := Some "eve@clinic.test";
           login_password := Some "pw" |} =
    Done (JObj [ ("message", JStr "Login successful");
                 ("user_id", JStr "u-5");
                 ("role", JStr "patient") ], 200) /\
  (forall other, other <> "pw" ->
     login (snd (register clinic_db
                   {| reg_email := Str "eve@clinic.test";
                      reg_password := Str "pw";
                      reg_role := Str "patient"; reg_firstName := Absent;
                      reg_lastName := Absent; reg_specialty := Absent |} "u-5"))
           {| login_email := Some "eve@clinic.test";
              login_password := Some other |} =
     Done (message "Invalid credentials", 401)).
Proof.
  apply (register_then_login clinic_db
           {| reg_email := Str "eve@clinic.test"; reg_password := Str "pw";
              reg_role := Str "patient"; reg_firstName := Absent;
              reg_lastName := Absent; reg_specialty := Absent |}
           "u-5" "eve@clinic.test" "pw" "patient"); try reflexivity.
  intros x [<-|[<-|[<-|[<-|[]]]]]; split; discriminate.
Defined.

(** X15: a registration that lacks email, password or role is answered 400
    and stores nothing; a registration whose email belongs to an existing
    account is not answered at all, the store's refusal escapes the handler,
    and nothing is stored either; the same happens when the three keys are
    there and one of them holds null. *)
Theorem register_rejections db data uuid :
  (reg_email data = Absent \/ reg_password data = Absent \/
   reg_role data = Absent ->
   register db data uuid =
   (Done (message "Missing required fields", 400), db)) /\
  (forall email password role x,
     reg_email data = Str email -> reg_password data = Str password ->
     reg_role data = Str role ->
     In x (User_table db) -> User.email x = email ->
     register db data uuid = (Unhandled IntegrityError, db)) /\
  (reg_email data <> Absent -> reg_password data <> Absent ->
   reg_role data <> Absent ->
   reg_email data = Null \/ reg_password data = Null \/
   reg_role data = Null ->
   register db data uuid = (Unhandled IntegrityError, db)).
Proof.
  split; [|split].
  - unfold register. intros [H|[H|H]]; rewrite H;
      destruct (reg_email data), (reg_password data); reflexivity.
  - intros email password role x He Hp Hr Hx Hem. unfold register.
    rewrite He, Hp, Hr. cbn [has_key get_item andb negb].
    rewrite (insert_User_taken _ _ x Hx); [reflexivity|]. now right.
  - unfold register. intros He Hp Hr H.
    destruct (reg_email data), (reg_password data), (reg_role data);
      try contradiction; try reflexivity;
      destruct H as [H|[H|H]]; discriminate.
Qed.

Lemma register_rejections_witness :
  register clinic_db
    {| reg_email := Str "new@clinic.test"; reg_password := Absent;
       reg_role := Str "patient"; reg_firstName := Absent;
       reg_lastName := Absent; reg_specialty := Absent |} "u-5" =
    (Done (message "Missing required fields", 400), clinic_db) /\
  register clinic_db
    {| reg_email := Str "p1@clinic.test"; reg_password := Str "pw";
       reg_role := Str "patient"; reg_firstName := Absent;
       reg_lastName := Absent; reg_specialty := Absent |} "u-5" =
    (Unhandled IntegrityError, clinic_db) /\
  register clinic_db
    {| reg_email := Str "new@clinic.test"; reg_password := Null;
       reg_role := Str "patient"; reg_firstName := Absent;
       reg_lastName := Absent; reg_specialty := Absent |} "u-5" =
    (Unhandled IntegrityError, clinic_db).
Proof.
  split; [|split].
  - apply (proj1 (register_rejections clinic_db _ "u-5")).
    right. left. reflexivity.
  - apply (proj1 (proj2 (register_rejections clinic_db _ "u-5"))
             "p1@clinic.test" "pw" "patient" (a_user "p1" "patient"));
      try reflexivity.
    simpl. right. now left.
  - apply (proj2 (proj2 (register_rejections clinic_db _ "u-5")));
      try discriminate.
    right. left. reflexivity.
Defined.

(** X16: a login is answered 200 exactly when some account has the given
    email and password, and then carries the id and the role of such an
    account; otherwise it is answered 401. A body without the email key, or
    with the email and without the password key, is not answered: the
    KeyError escapes the handler. *)
Theorem login_answers db data :
  (forall email password,
     login_email data = Some email -> login_password data = Some password ->
     (forall u, In u (User_table db) ->
                ~ (User.email u = email /\ User.password u = password)) ->
     login db data = Done (message "Invalid credentials", 401)) /\
  (forall email password u0,
     login_email data = Some email -> login_password data = Some password ->
     In u0 (User_table db) ->
     User.email u0 = email -> User.password u0 = password ->
     exists u,
       In u (User_table db) /\ User.email u = email /\
       User.password u = password /\
       login db data =
       Done (JObj [ ("message", JStr "Login successful");
                    ("user_id", JStr (User.id u));
                    ("role", JStr (User.role u)) ], 200)) /\
  (login_email data = None -> login db data = Unhandled (KeyError "email")) /\
  (forall email,
     login_email data = Some email -> login_password data = None ->
     login db data = Unhandled (KeyError "password")).
Proof.
  split; [|split; [|split]].
  - intros email password He Hp Hnone. unfold login. rewrite He, Hp.
    destruct (User_by_credentials db email password) as [|u l] eqn:E;
      [reflexivity|].
    assert (In u (User_by_credentials db email password)) as Hin
      by (rewrite E; now left).
    apply filter_In in Hin as [Hin Hc].
    apply andb_true_iff in Hc as [C1 C2].
    apply String.eqb_eq in C1, C2. exfalso. now apply (Hnone u Hin).
  - intros email password u0 He Hp Hin Hem Hpw. unfold login. rewrite He, Hp.
    assert (In u0 (User_by_credentials db email password)) as H0.
    { apply filter_In. split; [exact Hin|].
      apply andb_true_iff. split; now apply String.eqb_eq. }
    destruct (User_by_credentials db email password) as [|u l] eqn:E;
      [contradiction|].
    assert (In u (User_by_credentials db email password)) as Hu
      by (rewrite E; now left).
    apply filter_In in Hu as [Hu Hc].
    apply andb_true_iff in Hc as [C1 C2]. apply String.eqb_eq in C1, C2.
    exists u. now repeat split.
  - intros He. unfold login. now rewrite He.
  - intros email He Hp. unfold login. now rewrite He, Hp.
Qed.

Lemma login_answers_witness :
  login clinic_db {| login_email := Some "p1@clinic.test";
                     login_password := Some "wrong" |} =
    Done (message "Invalid credentials", 401) /\
  (exists u,
     In u (User_table clinic_db) /\ User.email u = "p1@clinic.test" /\
     User.password u = "secret" /\
     login clinic_db {| login_email := Some "p1@clinic.test";
                        login_password := Some "secret" |} =
     Done (JObj [ ("message", JStr "Login successful");
                  ("user_id", JStr (User.id u));
                  ("role", JStr (User.role u)) ], 200)) /\
  login clinic_db {| login_email := None; login_password := Some "secret" |} =
    Unhandled (KeyError "email") /\
  login clinic_db {| login_email := Some "p1@clinic.test";
                     login_password := None |} =
    Unhandled (KeyError "password").
Proof.
  split; [|split; [|split]].
  - apply (proj1 (login_answers clinic_db _) "p1@clinic.test" "wrong");
      try reflexivity.
    intros u [<-|[<-|[<-|[<-|[]]]]] [_ H]; discriminate.
  - apply (proj1 (proj2 (login_answers clinic_db _))
             "p1@clinic.test" "secret" (a_user "p1" "patient"));
      try reflexivity.
    simpl. right. now left.
  - apply (proj1 (proj2 (proj2 (login_answers clinic_db _)))). reflexivity.
  - apply (proj2 (proj2 (proj2 (login_answers clinic_db _)))
             "p1@clinic.test"); reflexivity.
Defined.

(** X17: after a registration answered 201 the doctor listing is the old
    listing, followed by the record of the new account when its role is
    doctor. Under first_name, last_name and specialty the record carries what
    the request gave under firstName, lastName and specialty: the string
    itself, the empty string for a key the request lacks, and null for a key
    the request gave as null. *)
Theorem register_then_get_doctors db data uuid body :
  fst (register db data uuid) = Done (body, 201) ->
  exists email password role,
    reg_email data = Str email /\ reg_password data = Str password /\
    reg_role data = Str role /\
    get_doctors (snd (register db data uuid)) =
    (JArr (items_of (fst (get_doctors db)) ++
           if String.eqb role "doctor"
           then [JObj [ ("id", JStr uuid); ("email", JStr email);
                        ("role", JStr role);
                        ("first_name", shown (reg_firstName data));
                        ("last_name", shown (reg_lastName data));
                        ("specialty", shown (reg_specialty data)) ]]
           else []), 200).
Proof.
  unfold register.
  destruct (reg_email data) as [| |email],
           (reg_password data) as [| |password],
           (reg_role data) as [| |role];
    cbn [has_key get_item andb negb fst]; try discriminate.
  destruct (insert_User db _) as [db'|] eqn:I; [|discriminate].
  intros _. exists email, password, role. repeat (split; [reflexivity|]).
  apply insert_User_some in I as [-> _]. simpl.
  unfold get_doctors. simpl. rewrite filter_app, map_app. simpl.
  destruct (String.eqb role "doctor"); [|reflexivity].
  now destruct (reg_firstName data), (reg_lastName data),
               (reg_specialty data).
Qed.

(** A doctor registers with a first name, without the lastName key and with
    null as specialty. *)
Lemma register_then_get_doctors_witness :
  exists email password role,
    Str "dr@clinic.test" = Str email /\ Str "pw" = Str password /\
    Str "doctor" = Str role /\
    get_doctors
      (snd (register clinic_db
              {| reg_email := Str "dr@clinic.test";
                 reg_password := Str "pw"; reg_role := Str "doctor";
                 reg_firstName := Str "Grace"; reg_lastName := Absent;
                 reg_specialty := Null |} "u-6")) =
    (JArr (items_of (fst (get_doctors clinic_db)) ++
           if String.eqb role "doctor"
           then [JObj [ ("id", JStr "u-6"); ("email", JStr email);
                        ("role", JStr role);
                        ("first_name", JStr "Grace");
                        ("last_name", JStr "");
                        ("specialty", JNull) ]]
           else []), 200).
Proof.
  apply (register_then_get_doctors clinic_db
           {| reg_email := Str "dr@clinic.test";
              reg_password := Str "pw"; reg_role := Str "doctor";
              reg_firstName := Str "Grace"; reg_lastName := Absent;
              reg_specialty := Null |} "u-6"
           (JObj [ ("message", JStr "User registered successfully");
                   ("user_id", JStr "u-6") ])).
  reflexivity.
Defined.

(** ** What every run keeps *)

Lemma NoDup_map_snoc {A B : Type} (f : A -> B) l x :
  NoDup (map f l) -> ~ In (f x) (map f l) -> NoDup (map f (l ++ [x])).
Proof.
  intros Hn Hx. rewrite map_app. simpl.
  eapply Permutation_NoDup; [apply Permutation_cons_append|].
  now constructor.
Qed.

Lemma register_keeps db data uuid :
  well_kept db -> well_kept (snd (register db data uuid)).
Proof.
  intros (Q1 & Q2 & U1 & U2 & C1 & C2). unfold register.
  destruct (reg_email data), (reg_password data), (reg_role data);
    cbn [has_key get_item andb negb snd]; try (repeat split; assumption).
  destruct (insert_User db _) as [db'|] eqn:I; simpl;
    [|repeat split; assumption].
  apply insert_User_some in I as (-> & Hid & Hem). unfold well_kept. simpl.
  repeat split; trivial; now apply NoDup_map_snoc.
Qed.

Lemma join_queue_keeps db data now :
  well_kept db -> well_kept (snd (join_queue db data now)).
Proof.
  intros (Q1 & Q2 & U1 & U2 & C1 & C2).
  pose proof (join_queue_keeps_ids_unique db data now Q1) as Q1'.
  destruct (join_queue_tables db data now)
    as (HU & HC & [HQ|(new & HQ & Hu & _ & _ & _ & F)]);
    unfold well_kept; rewrite HU, HC.
  - rewrite HQ. now repeat split.
  - repeat split; trivial. rewrite HQ. apply NoDup_map_snoc; [exact Q2|].
    rewrite Hu. intros Hin. apply in_map_iff in Hin as (x & Hx & Hin).
    destruct (first_by_user_some _ _ _ Hin Hx) as [e E]. congruence.
Qed.

Lemma complete_consultation_keeps db queue_id now :
  well_kept db -> well_kept (snd (complete_consultation db queue_id now)).
Proof.
  intros (Q1 & Q2 & U1 & U2 & C1 & C2).
  destruct (Queue_get db queue_id) as [e|] eqn:G.
  - rewrite (complete_consultation_found _ _ _ _ G).
    unfold well_kept. simpl. repeat split; trivial.
    + now apply NoDup_map_filter.
    + now apply NoDup_map_filter.
    + apply NoDup_map_snoc; [exact C1|apply next_id_fresh].
    + apply Forall_app. split; [exact C2|].
      constructor; [|constructor].
      eexists. split; [reflexivity|].
      pose proof (seconds_range (now - Queue.joined_at e)). lia.
  - unfold complete_consultation. rewrite G. now repeat split.
Qed.

(** X18: starting from a store with distinct primary keys, at most one
    queue entry per user, at most one account per email and durations
    between 1 and 1439 minutes, any sequence of registrations, join requests
    and completions, served at any clock readings, leads to a store with the
    same properties; in particular every store reached from the empty one has
    them. *)
Theorem serve_keeps_the_store_well_kept :
  (forall run db, well_kept db -> well_kept (serve db run)) /\
  (forall run, well_kept (serve empty_db run)).
Proof.
  assert (forall run db, well_kept db -> well_kept (serve db run)) as H.
  { induction run as [|[r now] run IH]; intros db Hdb; [exact Hdb|].
    apply IH. destruct r; simpl.
    - now apply register_keeps.
    - now apply join_queue_keeps.
    - now apply complete_consultation_keeps. }
  split; [exact H|].
  intros run. apply H. unfold well_kept, empty_db. simpl.
  repeat split; constructor.
Qed.

Lemma serve_keeps_the_store_well_kept_witness :
  well_kept
    (serve clinic_db
       [ (Join {| req_user_id := "p1"; req_doctor_id := "d2";
                  req_is_emergency := None |}, 400);
         (Complete 2, 500);
         (Join {| req_user_id := "p2"; req_doctor_id := "d1";
                  req_is_emergency := Some true |}, 600) ]).
Proof.
  apply (proj1 serve_keeps_the_store_well_kept).
  unfold well_kept. simpl.
  repeat split;
    repeat (constructor; [simpl; intuition discriminate|]); constructor.
Defined.

(** ** Other doctors are not affected *)

Lemma listing_item_same_users db db' e :
  User_table db' = User_table db -> listing_item db' e = listing_item db e.
Proof. unfold listing_item, User_get. now intros ->. Qed.

Lemma get_doctor_queue_same db db' d :
  User_table db' = User_table db ->
  Queue_by_doctor db' d = Queue_by_doctor db d ->
  get_doctor_queue db' d = get_doctor_queue db d.
Proof.
  intros HU HQ. rewrite !get_doctor_queue_eq, HQ. do 2 f_equal.
  apply flat_map_ext. intros e. now apply listing_item_same_users.
Qed.

Lemma estimate_wait_time_same db db' d :
  filter (fun c => String.eqb (Consultation.doctor_id c) d)
         (Consultation_table db') =
  filter (fun c => String.eqb (Consultation.doctor_id c) d)
         (Consultation_table db) ->
  Queue_by_doctor db' d = Queue_by_doctor db d ->
  estimate_wait_time db' d = estimate_wait_time db d.
Proof. unfold estimate_wait_time. now intros -> ->. Qed.

(** X19: a join request for one doctor, and with distinct primary keys the
    completion of an entry of one doctor, change neither the queue listing
    nor the wait-time estimate of any other doctor. *)
Theorem other_doctors_unaffected db d :
  (forall data now,
     req_doctor_id data <> d ->
     get_doctor_queue (snd (join_queue db data now)) d =
       get_doctor_queue db d /\
     estimate_wait_time (snd (join_queue db data now)) d =
       estimate_wait_time db d) /\
  (forall e now,
     unique_queue_ids db -> In e (Queue_table db) ->
     Queue.doctor_id e <> d ->
     get_doctor_queue (snd (complete_consultation db (Queue.id e) now)) d =
       get_doctor_queue db d /\
     estimate_wait_time (snd (complete_consultation db (Queue.id e) now)) d =
       estimate_wait_time db d).
Proof.
  split.
  - intros data now Hd.
    destruct (join_queue_tables db data now)
      as (HU & HC & [HQ|(new & HQ & _ & Hnd & _)]).
    + assert (Queue_by_doctor (snd (join_queue db data now)) d =
              Queue_by_doctor db d) as HD
        by (unfold Queue_by_doctor; now rewrite HQ).
      split; [now apply get_doctor_queue_same|].
      apply estimate_wait_time_same; [now rewrite HC|exact HD].
    + assert (Queue_by_doctor (snd (join_queue db data now)) d =
              Queue_by_doctor db d) as HD.
      { unfold Queue_by_doctor. rewrite HQ, filter_app. simpl.
        rewrite Hnd.
        destruct (String.eqb_spec (req_doctor_id data) d); [contradiction|].
        apply app_nil_r. }
      split; [now apply get_doctor_queue_same|].
      apply estimate_wait_time_same; [now rewrite HC|exact HD].
  - intros e now Hn Hin Hd.
    rewrite (complete_consultation_found _ _ _ _ (Queue_get_unique _ _ Hn Hin)).
    set (db' := {| User_table := User_table db |}).
    assert (Queue_by_doctor db' d = Queue_by_doctor db d) as HD.
    { unfold Queue_by_doctor, db'. simpl. rewrite filter_comm.
      apply filter_all. intros x Hx. apply filter_In in Hx as [Hx Hxd].
      apply String.eqb_eq in Hxd. apply negb_true_iff, Z.eqb_neq.
      intros E. apply Hd. rewrite <- Hxd. f_equal. symmetry.
      now apply (unique_id_inj (Queue_table db)). }
    split; [now apply get_doctor_queue_same|].
    apply estimate_wait_time_same; [|exact HD].
    unfold db'. simpl. rewrite filter_app. simpl.
    destruct (String.eqb_spec (Queue.doctor_id e) d); [contradiction|].
    apply app_nil_r.
Qed.

Lemma other_doctors_unaffected_witness :
  (get_doctor_queue
     (snd (join_queue clinic_db
             {| req_user_id := "p4"; req_doctor_id := "d2";
                req_is_emergency := None |} 500)) "d1" =
     get_doctor_queue clinic_db "d1" /\
   estimate_wait_time
     (snd (join_queue clinic_db
             {| req_user_id := "p4"; req_doctor_id := "d2";
                req_is_emergency := None |} 500)) "d1" =
     estimate_wait_time clinic_db "d1") /\
  (get_doctor_queue (snd (complete_consultation clinic_db 2 500)) "d2" =
     get_doctor_queue clinic_db "d2" /\
   estimate_wait_time (snd (complete_consultation clinic_db 2 500)) "d2" =
     estimate_wait_time clinic_db "d2").
Proof.
  split.
  - apply (proj1 (other_doctors_unaffected clinic_db "d1")
             {| req_user_id := "p4"; req_doctor_id := "d2";
                req_is_emergency := None |} 500).
    discriminate.
  - apply (proj2 (other_doctors_unaffected clinic_db "d2")
             (an_entry 2 "p2" "d1" 200 true) 500).
    + unfold unique_queue_ids. simpl.
      repeat (constructor; [simpl; intuition discriminate|]). constructor.
    + simpl. right. now left.
    + discriminate.
Defined.

(** ** The estimator's failures *)

Lemma shr_1_nonneg mrs : 0 <= shr_m mrs -> 0 <= shr_m (shr_1 mrs).
Proof.
  destruct mrs as [m r s]. simpl.
  destruct m as [|[p|p|]|[p|p|]]; simpl; lia.
Qed.

Lemma iter_pos_keeps {A : Type} (P : A -> Prop) (f : A -> A) :
  (forall x, P x -> P (f x)) -> forall n x, P x -> P (iter_pos f n x).
Proof.
  intros Hf. induction n as [n IH|n IH|]; intros x Hx; simpl.
  - apply IH, IH, Hf, Hx.
  - apply IH, IH, Hx.
  - apply Hf, Hx.
Qed.

Lemma shr_fexp_nonneg m e l :
  0 <= m -> 0 <= shr_m (fst (shr_fexp prec emax m e l)).
Proof.
  intros Hm. unfold shr_fexp, shr.
  assert (0 <= shr_m (shr_record_of_loc m l)) as H0
    by (destruct l as [|[]]; exact Hm).
  destruct (fexp prec emax (Zdigits2 m + e) - e); simpl; trivial.
  apply (iter_pos_keeps (fun r => 0 <= shr_m r)); [apply shr_1_nonneg|exact H0].
Qed.

Lemma round_nearest_even_nonneg m l : 0 <= m -> 0 <= round_nearest_even m l.
Proof.
  intros Hm. destruct l as [|[]]; simpl; try lia.
  destruct (Z.even m); lia.
Qed.

(** Rounding a non-negative mantissa never gives a NaN. *)
Lemma binary_round_aux_number s m e l :
  0 <= m -> binary_round_aux prec emax s m e l <> S754_nan.
Proof.
  intros Hm. unfold binary_round_aux.
  pose proof (shr_fexp_nonneg m e l Hm) as H1.
  destruct (shr_fexp prec emax m e l) as [mrs' e']. simpl in H1.
  pose proof (shr_fexp_nonneg _ e' loc_Exact
                (round_nearest_even_nonneg _ (loc_of_shr_record mrs') H1)) as H2.
  destruct (shr_fexp prec emax _ e' loc_Exact) as [mrs'' e'']. simpl in H2.
  destruct (shr_m mrs'') as [|p|p]; try lia; [discriminate|].
  destruct (e'' <=? emax - prec); discriminate.
Qed.

Lemma py_truediv_outcome a b :
  b <> 0 ->
  (exists x, py_truediv a b = Ok x /\ finite_or_zero x) \/
  py_truediv a b = Raise OverflowError.
Proof.
  intros Hb. unfold py_truediv.
  destruct (Z.eqb_spec b 0) as [|_]; [contradiction|].
  assert (SFdiv prec emax (Z_to_SF a) (Z_to_SF b) <> S754_nan) as Hnan.
  { destruct b as [|n|n]; [contradiction| |];
      destruct a as [|m|m]; simpl; try discriminate;
      unfold SFdiv_core_binary;
      match goal with
      | |- context [Z.div_eucl ?x ?y] =>
          pose proof (Z.div_pos x y) as Hq; unfold Z.div in Hq;
          destruct (Z.div_eucl x y) as [q r]
      end;
      apply binary_round_aux_number; apply Hq; try lia;
      match goal with
      | |- 0 <= match ?s with _ => _ end =>
          destruct s; try lia; apply Z.shiftl_nonneg; lia
      end. }
  destruct (SFdiv prec emax (Z_to_SF a) (Z_to_SF b)) eqn:E; simpl.
  - left. eexists. split; [reflexivity|exact I].
  - now right.
  - contradiction.
  - left. eexists. split; [reflexivity|exact I].
Qed.

Lemma py_float_of_int_outcome n :
  0 <= n ->
  (exists x, py_float_of_int n = Ok x /\ finite_or_zero x) \/
  py_float_of_int n = Raise OverflowError.
Proof.
  intros Hn. unfold py_float_of_int.
  assert (binary_normalize prec emax n 0 false <> S754_nan) as Hnan.
  { destruct n as [|p|p]; try lia; simpl; [discriminate|].
    unfold binary_round. destruct (shl_align _ _ _) as [mz ez].
    apply binary_round_aux_number. lia. }
  destruct (binary_normalize prec emax n 0 false) eqn:E; simpl.
  - left. eexists. split; [reflexivity|exact I].
  - now right.
  - contradiction.
  - left. eexists. split; [reflexivity|exact I].
Qed.

Lemma py_int_of_product x y :
  finite_or_zero x -> finite_or_zero y ->
  (exists z, py_int_of_float (SFmul prec emax x y) = Ok z) \/
  py_int_of_float (SFmul prec emax x y) = Raise OverflowError.
Proof.
  intros Hx Hy.
  destruct x as [sx|sx| |sx mx ex]; try contradiction;
    destruct y as [sy|sy| |sy my ey]; try contradiction; simpl;
    try (left; eexists; reflexivity).
  pose proof (binary_round_aux_number (xorb sx sy) (Zpos (mx * my))
                (ex + ey) loc_Exact) as Hnan.
  destruct (binary_round_aux prec emax (xorb sx sy) (Zpos (mx * my))
              (ex + ey) loc_Exact); simpl.
  - left. eexists. reflexivity.
  - now right.
  - exfalso. apply Hnan; [lia|reflexivity].
  - left. eexists. reflexivity.
Qed.

(** X20: the estimator never fails with a division by zero or with a
    ValueError: it returns an integer, or the float arithmetic overflows. *)
Theorem estimate_wait_time_failures db doctor_id :
  (exists z, estimate_wait_time db doctor_id = Ok z) \/
  estimate_wait_time db doctor_id = Raise OverflowError.
Proof.
  destruct (durations_of db doctor_id) as [|h ds] eqn:D.
  { left. exists 15. now apply estimate_wait_time_default. }
  assert (durations_of db doctor_id <> []) as Hne by (rewrite D; discriminate).
  rewrite (estimate_wait_time_eq _ _ Hne), D.
  assert (count (h :: ds) <> 0) as Hlen
    by (rewrite count_cons; pose proof (count_nonneg ds); lia).
  destruct (py_truediv_outcome (sum (h :: ds)) _ Hlen)
    as [(avg & -> & Havg)| ->]; simpl; [|now right].
  unfold py_int_mul_float.
  destruct (py_float_of_int_outcome (count (Queue_by_doctor db doctor_id))
              (count_nonneg _)) as [(fq & -> & Hfq)| ->]; simpl;
    [|now right].
  now apply py_int_of_product.
Qed.

(** ** The estimator on data of realistic size *)

Lemma Zdigits2_nonneg z : 0 <= Zdigits2 z.
Proof. destruct z; simpl; lia. Qed.

Lemma Zdigits2_lt_pow z : 0 <= z -> z < 2 ^ Zdigits2 z.
Proof.
  intros Hz. destruct (Z.eq_dec z 0) as [->|N]; [reflexivity|].
  apply Zdigits2_bounds. lia.
Qed.

Lemma Zdigits2_mono a b : 0 <= a <= b -> Zdigits2 a <= Zdigits2 b.
Proof.
  intros [Ha Hab]. destruct (Z.eq_dec a 0) as [->|N]; [apply Zdigits2_nonneg|].
  apply Zdigits2_le; [lia| |apply Zdigits2_nonneg].
  pose proof (Zdigits2_lt_pow b). lia.
Qed.

Lemma Zdigits2_succ m : 0 <= m -> Zdigits2 (m + 1) <= Zdigits2 m + 1.
Proof.
  intros Hm. pose proof (Zdigits2_nonneg m).
  apply Zdigits2_le; [lia| |lia].
  rewrite Z.pow_add_r by lia. pose proof (Zdigits2_lt_pow m Hm). lia.
Qed.

Lemma Zdigits2_div m n :
  0 <= m -> 0 <= n -> Zdigits2 (m / 2 ^ n) <= Z.max 0 (Zdigits2 m - n).
Proof.
  intros Hm Hn. pose proof (pow2_pos n Hn) as Hp.
  pose proof (Zdigits2_lt_pow m Hm) as Hd.
  pose proof (Zdigits2_nonneg m) as Hd0.
  assert (0 <= m / 2 ^ n) as Hq by (apply Z.div_pos; lia).
  destruct (Z.eq_dec (m / 2 ^ n) 0) as [->|N]; [simpl; lia|].
  destruct (Z.le_gt_cases (Zdigits2 m) n) as [L|G].
  - exfalso. apply N. apply Z.div_small. split; [lia|].
    assert (2 ^ Zdigits2 m <= 2 ^ n) by (apply Z.pow_le_mono_r; lia). lia.
  - apply Z.le_trans with (Zdigits2 m - n); [|lia].
    apply Zdigits2_le; [lia| |lia].
    apply Z.div_lt_upper_bound; [lia|].
    rewrite <- Z.pow_add_r by lia.
    now replace (n + (Zdigits2 m - n)) with (Zdigits2 m) by lia.
Qed.

Lemma shr_1_m r : 0 <= shr_m r -> shr_m (shr_1 r) = shr_m r / 2.
Proof.
  rewrite <- Z.div2_div. destruct r as [m a b]. simpl.
  destruct m as [|[p|p|]|p]; intros H; try lia; reflexivity.
Qed.

Lemma iter_shr_1_m n r :
  0 <= shr_m r -> shr_m (iter_pos shr_1 n r) = shr_m r / 2 ^ Zpos n.
Proof.
  revert r. induction n as [n IH|n IH|]; intros r Hr.
  - change (iter_pos shr_1 n~1 r)
      with (iter_pos shr_1 n (iter_pos shr_1 n (shr_1 r))).
    pose proof (pow2_pos (Zpos n)) as Hp.
    assert (0 <= shr_m (shr_1 r)) as H1 by now apply shr_1_nonneg.
    assert (0 <= shr_m (iter_pos shr_1 n (shr_1 r))) as H2
      by (rewrite IH by exact H1; apply Z.div_pos; lia).
    rewrite IH by exact H2. rewrite IH by exact H1. rewrite shr_1_m by exact Hr.
    rewrite !Z.div_div by lia. f_equal. rewrite pow2_xI. ring.
  - change (iter_pos shr_1 n~0 r) with (iter_pos shr_1 n (iter_pos shr_1 n r)).
    pose proof (pow2_pos (Zpos n)) as Hp.
    assert (0 <= shr_m (iter_pos shr_1 n r)) as H2
      by (rewrite IH by exact Hr; apply Z.div_pos; lia).
    rewrite IH by exact H2. rewrite IH by exact Hr.
    rewrite Z.div_div by lia. f_equal. now rewrite pow2_xO.
  - change (iter_pos shr_1 1 r) with (shr_1 r). now apply shr_1_m.
Qed.

Lemma fexp_eq x : fexp prec emax x = Z.max (x - 53) (-1074).
Proof. reflexivity. Qed.

(** One rounding shift keeps the magnitude and raises the exponent no
    further than the format asks. *)
Lemma shr_fexp_bounded m e l k :
  0 <= m -> Zdigits2 m + e <= k -> -1074 <= k ->
  let r := shr_fexp prec emax m e l in
  0 <= shr_m (fst r) /\
  Zdigits2 (shr_m (fst r)) + snd r <= k /\
  snd r <= Z.max e (Z.max (k - 53) (-1074)).
Proof.
  intros Hm Hk Hlow r.
  split; [now apply shr_fexp_nonneg|].
  unfold r, shr_fexp, shr. rewrite fexp_eq.
  assert (shr_m (shr_record_of_loc m l) = m) as Hrec
    by (destruct l as [|[]]; reflexivity).
  destruct (Z.max (Zdigits2 m + e - 53) (-1074) - e) as [|n|n] eqn:En;
    cbn [fst snd]; rewrite ?Hrec; try lia.
  rewrite iter_shr_1_m by (rewrite Hrec; exact Hm). rewrite Hrec.
  pose proof (Zdigits2_div m (Zpos n) Hm) as Hdiv.
  pose proof (Zdigits2_nonneg m). lia.
Qed.

Lemma round_nearest_even_le m l : round_nearest_even m l <= m + 1.
Proof.
  destruct l as [|[]]; simpl; try lia. destruct (Z.even m); lia.
Qed.

(** Rounding a non-negative mantissa of bounded magnitude gives a zero or a
    finite float, of magnitude at most one more. *)
Lemma binary_round_aux_bounded s m e l k :
  0 <= m -> Zdigits2 m + e <= k -> -1074 <= k <= 1023 -> e <= 971 ->
  magnitude_le (k + 1) (binary_round_aux prec emax s m e l).
Proof.
  intros Hm Hk Hr He. unfold binary_round_aux.
  destruct (shr_fexp_bounded m e l k Hm Hk) as (H1 & H2 & H3); [lia|].
  destruct (shr_fexp prec emax m e l) as [mrs' e']. cbn [fst snd] in *.
  set (m1 := round_nearest_even (shr_m mrs') (loc_of_shr_record mrs')).
  assert (0 <= m1) as Hm1 by now apply round_nearest_even_nonneg.
  assert (Zdigits2 m1 + e' <= k + 1) as Hk1.
  { pose proof (round_nearest_even_le (shr_m mrs') (loc_of_shr_record mrs')).
    pose proof (Zdigits2_mono m1 (shr_m mrs' + 1)).
    pose proof (Zdigits2_succ (shr_m mrs') H1). fold m1 in H. lia. }
  destruct (shr_fexp_bounded m1 e' loc_Exact (k + 1) Hm1 Hk1) as (G1 & G2 & G3);
    [lia|].
  destruct (shr_fexp prec emax m1 e' loc_Exact) as [mrs'' e'']. cbn [fst snd] in *.
  destruct (shr_m mrs'') as [|p|p] eqn:Ep; try lia; [exact I|].
  assert ((e'' <=? emax - prec) = true) as ->
    by (apply Z.leb_le; unfold emax, prec; lia).
  simpl. simpl in G2. lia.
Qed.

Lemma magnitude_number k x : magnitude_le k x -> finite_or_zero x.
Proof. destruct x; simpl; trivial. Qed.

Lemma SFdiv_core_bounded ma mb :
  let '(q, e, l) := SFdiv_core_binary prec emax (Zpos ma) 0 (Zpos mb) 0 in
  0 <= q /\ Zdigits2 q + e <= Zpos (digits2_pos ma) /\ e <= 0.
Proof.
  unfold SFdiv_core_binary.
  set (e := Z.min _ _).
  assert (e <= 0) as He by (unfold e; lia).
  set (m' := match 0 - 0 - e with
             | 0 => Zpos ma
             | Zpos _ => Z.shiftl (Zpos ma) (0 - 0 - e)
             | Zneg _ => 0
             end).
  assert (m' = Zpos ma * 2 ^ (- e)) as Hm'.
  { unfold m'. replace (0 - 0 - e) with (- e) by lia.
    destruct (- e) as [|s|s] eqn:Es; try lia.
    rewrite Z.shiftl_mul_pow2 by lia. reflexivity. }
  pose proof (pow2_pos (- e)) as Hp.
  pose proof (Z.div_pos m' (Zpos mb)) as Hq.
  pose proof (Z.div_le_upper_bound m' (Zpos mb) m') as Hub.
  unfold Z.div in Hq, Hub.
  destruct (Z.div_eucl m' (Zpos mb)) as [q r]. cbn [fst] in *.
  assert (0 <= q <= m') as Hqm by (split; [apply Hq|apply Hub]; nia).
  split; [lia|]. split; [|exact He].
  pose proof (Zdigits2_mono q m' Hqm) as Hd.
  rewrite Hm', Zdigits2_shift in Hd by lia.
  change (Zdigits2 (Zpos ma)) with (Zpos (digits2_pos ma)) in Hd. lia.
Qed.

Lemma py_truediv_bounded a b :
  b <> 0 -> Z.abs a < 2 ^ 400 ->
  exists x, py_truediv a b = Ok x /\ magnitude_le 401 x.
Proof.
  intros Hb Ha. unfold py_truediv.
  destruct (Z.eqb_spec b 0) as [|_]; [contradiction|].
  assert (magnitude_le 401 (SFdiv prec emax (Z_to_SF a) (Z_to_SF b))) as H.
  { destruct a as [|ma|ma]; destruct b as [|mb|mb]; try contradiction;
      cbn [Z_to_SF SFdiv]; try exact I;
      pose proof (SFdiv_core_bounded ma mb) as Hc;
      destruct (SFdiv_core_binary prec emax (Zpos ma) 0 (Zpos mb) 0)
        as [[q e] l];
      destruct Hc as (Hq & Hd & He);
      (assert (Zpos (digits2_pos ma) <= 400) as Hma
         by (change (Zdigits2 (Zpos ma) <= 400); apply Zdigits2_le; lia));
      apply (binary_round_aux_bounded _ q e l 400); lia. }
  destruct (SFdiv prec emax (Z_to_SF a) (Z_to_SF b)); try contradiction;
    simpl; eexists; (split; [reflexivity|exact H]).
Qed.

Lemma py_float_of_int_bounded n :
  0 <= n < 2 ^ 400 ->
  exists x, py_float_of_int n = Ok x /\ magnitude_le 401 x.
Proof.
  intros Hn. unfold py_float_of_int.
  assert (magnitude_le 401 (binary_normalize prec emax n 0 false)) as H.
  { destruct n as [|p|p]; try lia; [exact I|].
    assert (Zpos (digits2_pos p) <= 400) as Hp
      by (change (Zdigits2 (Zpos p) <= 400); apply Zdigits2_le; lia).
    unfold binary_normalize, binary_round, shl_align.
    destruct (fexp prec emax (Zpos (digits2_pos p) + 0) - 0) as [|d|d] eqn:Ed.
    - apply (binary_round_aux_bounded _ (Zpos p) 0 loc_Exact 400);
        simpl Zdigits2; lia.
    - apply (binary_round_aux_bounded _ (Zpos p) 0 loc_Exact 400);
        simpl Zdigits2; lia.
    - apply (binary_round_aux_bounded _ _ _ loc_Exact 400); try lia.
      rewrite iter_xO_pow2, Zdigits2_shift by lia.
      simpl Zdigits2. rewrite fexp_eq in *. lia. }
  destruct (binary_normalize prec emax n 0 false); try contradiction;
    simpl; eexists; (split; [reflexivity|exact H]).
Qed.

Lemma py_int_of_product_bounded x y :
  magnitude_le 401 x -> magnitude_le 401 y ->
  exists z, py_int_of_float (SFmul prec emax x y) = Ok z.
Proof.
  intros Hx Hy.
  destruct x as [sx|sx| |sx mx ex]; try contradiction;
    destruct y as [sy|sy| |sy my ey]; try contradiction;
    cbn [SFmul]; try (eexists; reflexivity).
  cbn [magnitude_le] in Hx, Hy.
  assert (magnitude_le 803
            (binary_round_aux prec emax (xorb sx sy) (Zpos (mx * my))
               (ex + ey) loc_Exact)) as H.
  { apply (binary_round_aux_bounded _ _ _ _ 802); try lia.
    pose proof (Zdigits2_mul_upper (Zpos mx) (Zpos my) eq_refl eq_refl) as Hu.
    change (Zpos mx * Zpos my) with (Zpos (mx * my)) in Hu.
    simpl Zdigits2 in *. lia. }
  destruct (binary_round_aux prec emax (xorb sx sy) (Zpos (mx * my))
              (ex + ey) loc_Exact); try contradiction;
    eexists; reflexivity.
Qed.

(** X21: when the recorded durations of the doctor add up to less than
    2^400 in absolute value and fewer than 2^400 patients are waiting, the
    estimator does not fail: it returns an integer. When the doctor has a
    recorded duration and nobody is waiting, that integer is 0, not the
    default 15. *)
Theorem estimate_wait_time_total db doctor_id :
  Z.abs (sum (durations_of db doctor_id)) < 2 ^ 400 ->
  count (Queue_by_doctor db doctor_id) < 2 ^ 400 ->
  (exists z, estimate_wait_time db doctor_id = Ok z) /\
  (durations_of db doctor_id <> [] ->
   Queue_by_doctor db doctor_id = [] ->
   estimate_wait_time db doctor_id = Ok 0).
Proof.
  intros Hsum Hq.
  destruct (durations_of db doctor_id) as [|h ds] eqn:D.
  { split; [|intros H; now contradiction H].
    exists 15. now apply estimate_wait_time_default. }
  assert (durations_of db doctor_id <> []) as Hne by (rewrite D; discriminate).
  rewrite (estimate_wait_time_eq _ _ Hne), D.
  assert (count (h :: ds) <> 0) as Hlen
    by (rewrite count_cons; pose proof (count_nonneg ds); lia).
  destruct (py_truediv_bounded (sum (h :: ds)) _ Hlen Hsum)
    as (avg & -> & Havg). cbn [bind].
  split.
  - unfold py_int_mul_float.
    destruct (py_float_of_int_bounded (count (Queue_by_doctor db doctor_id)))
      as (fq & -> & Hfq); [pose proof (count_nonneg
                                         (Queue_by_doctor db doctor_id)); lia|].
    cbn [bind]. now apply py_int_of_product_bounded.
  - intros _ ->. change (count []) with 0.
    destruct avg; try contradiction; reflexivity.
Qed.

Lemma estimate_wait_time_total_witness :
  (exists z, estimate_wait_time idle_db "d1" = Ok z) /\
  estimate_wait_time idle_db "d1" = Ok 0.
Proof.
  destruct (estimate_wait_time_total idle_db "d1") as [H1 H2].
  - vm_compute. reflexivity.
  - vm_compute. reflexivity.
  - split; [exact H1|]. apply H2; [discriminate|reflexivity].
Defined.

(** ** The first completion for a doctor *)

(** X22: when a doctor has no recorded duration yet, the primary keys are
    distinct and fewer than 2^40 stored entries carry the doctor's id,
    completing one of them makes the estimate the recorded duration of that
    visit times the number of entries with the doctor's id that are left. *)
Theorem first_completion_sets_the_estimate db e now :
  unique_queue_ids db ->
  In e (Queue_table db) ->
  durations_of db (Queue.doctor_id e) = [] ->
  count (filter (fun x => String.eqb (Queue.doctor_id x) (Queue.doctor_id e))
                (Queue_table db)) < 2 ^ 40 ->
  let db' := snd (complete_consultation db (Queue.id e) now) in
  exists m,
    durations_of db' (Queue.doctor_id e) = [m] /\
    1 <= m <= 1439 /\
    count (filter (fun x => String.eqb (Queue.doctor_id x) (Queue.doctor_id e))
                  (Queue_table db')) =
      count (filter (fun x => String.eqb (Queue.doctor_id x)
                                         (Queue.doctor_id e))
                    (Queue_table db)) - 1 /\
    estimate_wait_time db' (Queue.doctor_id e) =
      Ok ((count (filter (fun x => String.eqb (Queue.doctor_id x)
                                              (Queue.doctor_id e))
                         (Queue_table db)) - 1) * m).
Proof.
  intros Hn Hin Hd Hq db'. unfold db'.
  fold (Queue_by_doctor db (Queue.doctor_id e)) in *.
  rewrite (complete_consultation_found _ _ _ _ (Queue_get_unique _ _ Hn Hin)).
  set (m := Z.max 1 (((now - Queue.joined_at e) / 1000000) mod 86400 / 60)).
  assert (1 <= m <= 1439) as Hm
    by (unfold m; pose proof (seconds_range (now - Queue.joined_at e)); lia).
  set (db1 := {| User_table := User_table db |}).
  fold (Queue_by_doctor db1 (Queue.doctor_id e)).
  assert (durations_of db1 (Queue.doctor_id e) = [m]) as Hds.
  { unfold durations_of, not_None, db1. simpl.
    rewrite filter_app. simpl. rewrite String.eqb_refl.
    rewrite map_app, flat_map_app. simpl.
    unfold durations_of, not_None in Hd. now rewrite Hd. }
  assert (count (Queue_by_doctor db1 (Queue.doctor_id e)) =
          count (Queue_by_doctor db (Queue.doctor_id e)) - 1) as Hc.
  { destruct (in_split_unique _ _ Hn Hin) as (before & after & Hq0 & Hf & _).
    unfold Queue_by_doctor, db1. simpl. rewrite Hf, Hq0.
    rewrite !filter_app. simpl. rewrite String.eqb_refl.
    rewrite !count_app, count_cons. lia. }
  exists m. split; [exact Hds|]. split; [exact Hm|]. split; [exact Hc|].
  cbn [snd].
  rewrite (estimate_wait_time_eq db1 (Queue.doctor_id e))
    by (rewrite Hds; discriminate).
  rewrite Hds, Hc. change (count [m]) with 1. change (sum [m]) with (m + 0).
  replace (m + 0) with (m * 1) by lia.
  pose proof (count_nonneg (Queue_by_doctor db1 (Queue.doctor_id e))) as H0.
  assert (2 ^ 40 * 1439 < 2 ^ 53) by reflexivity.
  assert (2 ^ 40 < 2 ^ 53) by reflexivity.
  apply float_chain_exact; try lia. nia.
Qed.

(** Doctor d2 has two of the five waiting patients and no visit on record;
    the entry that joined at 250 is completed an hour and a half later, and
    the estimate for d2 becomes 90 minutes for the one patient left. *)
Lemma first_completion_sets_the_estimate_witness :
  exists m,
    durations_of (snd (complete_consultation opening_db 4 5400000250)) "d2" =
      [m] /\
    1 <= m <= 1439 /\
    count (filter (fun x => String.eqb (Queue.doctor_id x) "d2")
                  (Queue_table
                     (snd (complete_consultation opening_db 4 5400000250)))) =
      2 - 1 /\
    estimate_wait_time
      (snd (complete_consultation opening_db 4 5400000250)) "d2" =
      Ok ((2 - 1) * m).
Proof.
  apply (first_completion_sets_the_estimate
           opening_db (an_entry 4 "q2" "d2" 250 true) 5400000250).
  - unfold unique_queue_ids. simpl.
    repeat (constructor; [simpl; intuition discriminate|]). constructor.
  - simpl. tauto.
  - reflexivity.
  - vm_compute. reflexivity.
Defined.

(** ** The estimator rounds twice *)

(** *** Rounding records *)

Lemma shr_1_bits r :
  0 <= shr_m r ->
  shr_r (shr_1 r) = Z.odd (shr_m r) /\
  shr_s (shr_1 r) = shr_r r || shr_s r.
Proof.
  destruct r as [m a b]. simpl.
  destruct m as [|[p|p|]|p]; intros H; try lia; split; reflexivity.
Qed.

Lemma shr_1_represents A B r :
  represents A B r -> represents A (B * 2) (shr_1 r).
Proof.
  intros (HA & HB & Hm & Hr & Hs).
  assert (0 <= shr_m r) as Hm0 by (rewrite Hm; apply Z.div_pos; lia).
  destruct (shr_1_bits r Hm0) as [Er Es].
  pose proof (Z.mod_pos_bound A B HB) as Hrho.
  pose proof (Z.rem_mul_r A B 2 ltac:(lia) ltac:(lia)) as Hmod.
  pose proof (Zmod_odd (A / B)) as Hodd.
  repeat split; try lia.
  - rewrite shr_1_m by exact Hm0. rewrite Hm. apply Z.div_div; lia.
  - rewrite Er, Hm. intros Ho. rewrite Ho in Hodd. lia.
  - rewrite Er, Hm. intros Hle. destruct (Z.odd (A / B)); [reflexivity|]. lia.
  - rewrite Es in H. apply orb_true_iff in H.
    destruct H as [H|H]; [apply Hr in H|apply Hs in H];
      destruct (Z.odd (A / B)); lia.
  - rewrite Es in H. apply orb_true_iff in H.
    destruct H as [H|H]; [apply Hr in H|apply Hs in H];
      destruct (Z.odd (A / B)); lia.
  - intros [H1 H2]. rewrite Es. apply orb_true_iff.
    destruct (Z.leb_spec B (2 * (A mod B))) as [L|L].
    + left. now apply Hr.
    + right. apply Hs. destruct (Z.odd (A / B)); lia.
Qed.

Lemma iter_shr_1_represents n A B r :
  represents A B r -> represents A (B * 2 ^ Zpos n) (iter_pos shr_1 n r).
Proof.
  revert B r. induction n as [n IH|n IH|]; intros B r H.
  - change (iter_pos shr_1 n~1 r)
      with (iter_pos shr_1 n (iter_pos shr_1 n (shr_1 r))).
    replace (B * 2 ^ Zpos n~1) with (B * 2 * 2 ^ Zpos n * 2 ^ Zpos n)
      by (rewrite pow2_xI; ring).
    apply IH, IH, shr_1_represents, H.
  - change (iter_pos shr_1 n~0 r) with (iter_pos shr_1 n (iter_pos shr_1 n r)).
    replace (B * 2 ^ Zpos n~0) with (B * 2 ^ Zpos n * 2 ^ Zpos n)
      by (rewrite pow2_xO; ring).
    apply IH, IH, H.
  - change (iter_pos shr_1 1 r) with (shr_1 r).
    rewrite Z.pow_1_r. now apply shr_1_represents.
Qed.

Lemma round_represents A B r :
  represents A B r ->
  round_nearest_even (shr_m r) (loc_of_shr_record r) = round_half_even A B.
Proof.
  intros (HA & HB & Hm & Hr & Hs). unfold round_half_even.
  pose proof (Z.mod_pos_bound A B HB) as Hrho.
  destruct r as [m br bs]. cbn [shr_m shr_r shr_s] in *. subst m.
  assert (B <= 2 * (A mod B) -> br = true) as Hr1 by apply Hr.
  assert (br = true -> B <= 2 * (A mod B)) as Hr2 by apply Hr.
  assert (A mod B <> 0 /\ 2 * (A mod B) <> B -> bs = true) as Hs1 by apply Hs.
  assert (bs = true -> A mod B <> 0 /\ 2 * (A mod B) <> B) as Hs2 by apply Hs.
  clear Hr Hs.
  destruct (Z.compare_spec (2 * (A mod B)) B) as [E|L|G];
    destruct br, bs; cbn [loc_of_shr_record round_nearest_even];
    try reflexivity; exfalso;
    repeat match goal with
           | H : true = true -> _ |- _ => specialize (H eq_refl)
           | H : _ -> false = true |- _ =>
               assert (false = true) by (apply H; lia); discriminate
           end; lia.
Qed.

Lemma round_half_even_bounds p q :
  p / q <= round_half_even p q <= p / q + 1.
Proof.
  unfold round_half_even.
  destruct (2 * (p mod q) ?= q); [destruct (Z.even (p / q))| |]; lia.
Qed.

Lemma shr_record_of_loc_m m l : shr_m (shr_record_of_loc m l) = m.
Proof. destruct l as [|[]]; reflexivity. Qed.

Lemma loc_of_shr_record_of_loc m l :
  loc_of_shr_record (shr_record_of_loc m l) = l.
Proof. destruct l as [|[]]; reflexivity. Qed.

Lemma binary_round_aux_nearest s A B mx lx e :
  represents A B (shr_record_of_loc mx lx) ->
  53 <= Zdigits2 (A / B) ->
  -1074 <= Zdigits2 (A / B) + e - 53 <= 970 ->
  2 ^ 52 <= A / (B * 2 ^ (Zdigits2 (A / B) - 53)) < 2 ^ 53 /\
  binary_round_aux prec emax s mx e lx =
  double_of s (round_half_even A (B * 2 ^ (Zdigits2 (A / B) - 53)))
            (Zdigits2 (A / B) + e - 53).
Proof.
  intros Hrep Hd HE.
  assert (mx = A / B) as Hmx
    by (destruct Hrep as (_ & _ & H & _); now rewrite shr_record_of_loc_m in H).
  set (d := Zdigits2 (A / B)) in *.
  set (q := B * 2 ^ (d - 53)).
  set (E := d + e - 53) in *.
  pose proof Hrep as Hrep0.
  destruct Hrep as (HA & HB & Hrep').
  assert (0 < A / B) as Hpos.
  { destruct (Z.eq_dec (A / B) 0) as [Z0|N].
    - unfold d in Hd. rewrite Z0 in Hd. simpl in Hd. lia.
    - pose proof (Z.div_pos A B). lia. }
  destruct (Zdigits2_bounds (A / B) Hpos) as (_ & Hlo & Hhi). fold d in Hlo, Hhi.
  pose proof (pow2_pos (d - 53)) as Hp.
  assert (A / q = A / B / 2 ^ (d - 53)) as Hq
    by (unfold q; symmetry; apply Z.div_div; lia).
  assert (2 ^ 52 <= A / q < 2 ^ 53) as Hm1.
  { rewrite Hq. split.
    - apply Z.div_le_lower_bound; [lia|].
      rewrite <- Z.pow_add_r by lia.
      now replace (d - 53 + 52) with (d - 1) by lia.
    - apply Z.div_lt_upper_bound; [lia|].
      rewrite <- Z.pow_add_r by lia.
      now replace (d - 53 + 53) with d by lia. }
  split; [exact Hm1|].
  unfold binary_round_aux, shr_fexp. rewrite Hmx. fold d.
  rewrite fexp_eq.
  replace (Z.max (d + e - 53) (-1074) - e) with (d - 53) by lia.
  assert (exists mrs, shr (shr_record_of_loc (A / B) lx) e (d - 53) = (mrs, E)
                      /\ represents A q mrs) as (mrs & -> & Hrep1).
  { unfold shr, q. destruct (d - 53) as [|n|n] eqn:En; try lia.
    - eexists. split; [f_equal; unfold E; lia|].
      rewrite Z.pow_0_r, Z.mul_1_r. rewrite <- Hmx. exact Hrep0.
    - eexists. split; [f_equal; unfold E; lia|].
      apply iter_shr_1_represents. rewrite <- Hmx. exact Hrep0. }
  rewrite (round_represents _ _ _ Hrep1).
  set (M := round_half_even A q).
  pose proof (round_half_even_bounds A q) as HM. fold M in HM.
  unfold double_of.
  destruct (Z.ltb_spec M (2 ^ 53)) as [Hlt|Hge].
  - assert (Zdigits2 M = 53) as -> by (apply Zdigits2_unique; simpl; lia).
    rewrite fexp_eq.
    replace (Z.max (53 + E - 53) (-1074) - E) with 0 by lia.
    cbn [shr_record_of_loc shr shr_m].
    destruct M as [|p|p] eqn:EM; try lia.
    assert ((E <=? emax - prec) = true) as ->
      by (apply Z.leb_le; unfold emax, prec; lia).
    reflexivity.
  - assert (M = 2 ^ 53) as -> by lia.
    change (Zdigits2 (2 ^ 53)) with 54. rewrite fexp_eq.
    replace (Z.max (54 + E - 53) (-1074) - E) with 1 by lia.
    cbn [shr_record_of_loc shr].
    change (iter_pos shr_1 1 {| shr_m := 2 ^ 53; shr_r := false; shr_s := false |})
      with {| shr_m := 2 ^ 52; shr_r := false; shr_s := false |}.
    cbn [shr_m]. change (2 ^ 52) with (Zpos (Z.to_pos (2 ^ 52))) at 1.
    cbv iota.
    assert ((E + 1 <=? emax - prec) = true) as ->
      by (apply Z.leb_le; unfold emax, prec; lia).
    reflexivity.
Qed.

(** Two fractions with the same value have the same floor and the same
    rounding. *)
Lemma round_half_even_cross p q p' q' :
  0 < q -> 0 < q' -> p * q' = p' * q ->
  p / q = p' / q' /\ round_half_even p q = round_half_even p' q'.
Proof.
  intros Hq Hq' Hx.
  pose proof (Z.div_mod p q ltac:(lia)) as Hp.
  pose proof (Z.mod_pos_bound p q Hq) as Hr.
  set (f := p / q) in *. set (r := p mod q) in *.
  set (r' := p' - q' * f).
  assert (r' * q = q' * r) as Hrr by (unfold r'; nia).
  assert (0 <= r' < q') as Hr' by nia.
  assert (p' / q' = f) as Hf
    by (symmetry; apply (Z.div_unique_pos p' q' f r'); [lia|unfold r'; lia]).
  assert (p' mod q' = r') as Hm
    by (symmetry; apply (Z.mod_unique_pos p' q' f r'); [lia|unfold r'; lia]).
  split; [now rewrite Hf|].
  unfold round_half_even. fold f r. rewrite Hf, Hm.
  destruct (Z.compare_spec (2 * r) q) as [E|L|G];
    destruct (Z.compare_spec (2 * r') q') as [E'|L'|G'];
    try reflexivity; exfalso; nia.
Qed.

Lemma new_location_represents A B :
  0 <= A -> 0 < B ->
  represents A B (shr_record_of_loc (A / B) (new_location B (A mod B))).
Proof.
  intros HA HB. pose proof (Z.mod_pos_bound A B HB) as Hr.
  set (r := A mod B) in *.
  assert (new_location B r =
          if r =? 0 then loc_Exact else loc_Inexact (2 * r ?= B)) as ->.
  { unfold new_location, new_location_even, new_location_odd.
    destruct (Z.even B) eqn:Ev; [reflexivity|].
    destruct (r =? 0); [reflexivity|]. f_equal.
    assert (2 * r <> B) as Hne.
    { intros Hb. rewrite <- Hb, Z.even_mul in Ev. discriminate. }
    destruct (Z.compare_spec (2 * r + 1) B), (Z.compare_spec (2 * r) B);
      try reflexivity; lia. }
  unfold represents. fold r.
  split; [exact HA|]. split; [exact HB|].
  destruct (Z.eqb_spec r 0) as [Z0|N].
  - cbn [shr_record_of_loc shr_m shr_r shr_s].
    split; [reflexivity|]. split; split; try discriminate; lia.
  - destruct (Z.compare_spec (2 * r) B) as [E|L|G];
      cbn [shr_record_of_loc shr_m shr_r shr_s];
      (split; [reflexivity|]); split; split; try discriminate;
      try reflexivity; try lia.
Qed.

Lemma exact_represents A :
  0 <= A -> represents A 1 (shr_record_of_loc A loc_Exact).
Proof.
  intros HA. unfold represents. cbn [shr_record_of_loc shr_m shr_r shr_s].
  rewrite Z.div_1_r, Z.mod_1_r.
  split; [exact HA|]. split; [lia|]. split; [reflexivity|].
  split; split; try discriminate; lia.
Qed.

Lemma Zdigits2_ge z k : 2 ^ (k - 1) <= z -> 0 < k -> k <= Zdigits2 z.
Proof.
  intros Hz Hk.
  assert (0 < z) by (pose proof (pow2_pos (k - 1)); lia).
  destruct (Zdigits2_bounds z H) as (Hd & _ & Hh).
  destruct (Z.le_gt_cases k (Zdigits2 z)) as [L|G]; [exact L|].
  assert (2 ^ Zdigits2 z <= 2 ^ (k - 1)) by (apply Z.pow_le_mono_r; lia). lia.
Qed.

Lemma SFdiv_core_eq ma mb :
  let e := Z.min (fexp prec emax (Zdigits2 (Zpos ma) - Zdigits2 (Zpos mb))) 0 in
  SFdiv_core_binary prec emax (Zpos ma) 0 (Zpos mb) 0 =
  (Zpos ma * 2 ^ (- e) / Zpos mb, e,
   new_location (Zpos mb) ((Zpos ma * 2 ^ (- e)) mod Zpos mb)).
Proof.
  intros e. unfold SFdiv_core_binary.
  rewrite !Z.add_0_r. change (0 - 0) with 0. fold e.
  assert (e <= 0) as He by (unfold e; lia).
  assert (match 0 - e with
          | 0 => Zpos ma
          | Zpos _ => Z.shiftl (Zpos ma) (0 - e)
          | Zneg _ => 0
          end = Zpos ma * 2 ^ (- e)) as ->.
  { replace (0 - e) with (- e) by lia.
    destruct (- e) as [|s|s] eqn:Es; try lia.
    rewrite Z.shiftl_mul_pow2 by lia. reflexivity. }
  unfold Z.div, Z.modulo.
  destruct (Z.div_eucl (Zpos ma * 2 ^ (- e)) (Zpos mb)) as [q r].
  reflexivity.
Qed.

Lemma double_of_finite s m e :
  no_overflow (double_of s m e) = Ok (double_of s m e).
Proof. unfold double_of. now destruct (m <? 2 ^ 53). Qed.

Lemma pow2_le_mono x y : 0 <= x <= y -> 2 ^ x <= 2 ^ y.
Proof. intros. apply Z.pow_le_mono_r; lia. Qed.

(** [a / b] on ints of realistic size is the nearest double. *)
Lemma py_truediv_nearest a b :
  0 < a < 2 ^ 400 -> 0 < b < 2 ^ 400 ->
  exists m e,
    nearest_double a b 0 m e /\ -453 <= e <= 347 /\
    py_truediv a b = Ok (double_of false m e).
Proof.
  intros Ha Hb.
  destruct a as [|ma|ma]; try lia. destruct b as [|mb|mb]; try lia.
  assert (0 < Zdigits2 (Zpos ma) <= 400) as Hd1
    by (split; [simpl; lia|apply Zdigits2_le; lia]).
  assert (0 < Zdigits2 (Zpos mb) <= 400) as Hd2
    by (split; [simpl; lia|apply Zdigits2_le; lia]).
  destruct (Zdigits2_bounds (Zpos ma) ltac:(lia)) as (_ & Hlo1 & Hhi1).
  destruct (Zdigits2_bounds (Zpos mb) ltac:(lia)) as (_ & Hlo2 & Hhi2).
  unfold py_truediv. cbn [Z.eqb Z_to_SF SFdiv xorb].
  rewrite SFdiv_core_eq.
  set (d1 := Zdigits2 (Zpos ma)) in *. set (d2 := Zdigits2 (Zpos mb)) in *.
  rewrite fexp_eq.
  replace (Z.min (Z.max (d1 - d2 - 53) (-1074)) 0)
    with (Z.min (d1 - d2 - 53) 0) by lia.
  set (e0 := Z.min (d1 - d2 - 53) 0).
  set (A := Zpos ma * 2 ^ (- e0)).
  pose proof (pow2_pos (- e0) ltac:(lia)) as Hs.
  assert (0 <= A) as HA by (unfold A; lia).
  assert (2 ^ (d1 - 1 + - e0) <= A) as HAlo
    by (unfold A; rewrite Z.pow_add_r by lia; nia).
  assert (Zdigits2 A = d1 + - e0) as HdA
    by (unfold A; apply Zdigits2_shift; lia).
  assert (2 ^ 52 <= A / Zpos mb) as Hq52.
  { apply Z.div_le_lower_bound; [lia|].
    pose proof (pow2_le_mono (d2 + 52) (d1 - 1 + - e0) ltac:(lia)) as Hm.
    rewrite Z.pow_add_r in Hm by lia. nia. }
  assert (53 <= Zdigits2 (A / Zpos mb)) as Hd
    by (apply Zdigits2_ge; simpl; lia).
  assert (Zdigits2 (A / Zpos mb) <= d1 + - e0) as Hdu.
  { rewrite <- HdA. apply Zdigits2_mono. split; [lia|].
    apply Z.div_le_upper_bound; [lia|]. nia. }
  destruct (binary_round_aux_nearest false A (Zpos mb) _ _ e0
              (new_location_represents A (Zpos mb) HA ltac:(lia)) Hd
              ltac:(lia)) as [Hrange ->].
  set (d := Zdigits2 (A / Zpos mb)) in *.
  exists (round_half_even A (Zpos mb * 2 ^ (d - 53))), (d + e0 - 53).
  split; [|split; [lia|apply double_of_finite]].
  unfold nearest_double.
  set (E := d + e0 - 53).
  assert (A * (Zpos mb * 2 ^ Z.max 0 (E - 0)) =
          Zpos ma * 2 ^ Z.max 0 (0 - E) * (Zpos mb * 2 ^ (d - 53))) as Hx.
  { unfold A.
    assert (2 ^ (- e0) * 2 ^ Z.max 0 (E - 0) =
            2 ^ Z.max 0 (0 - E) * 2 ^ (d - 53)) as Hpow
      by (rewrite <- !Z.pow_add_r by lia; f_equal; lia).
    replace (Zpos ma * 2 ^ (- e0) * (Zpos mb * 2 ^ Z.max 0 (E - 0)))
      with (Zpos ma * Zpos mb * (2 ^ (- e0) * 2 ^ Z.max 0 (E - 0))) by ring.
    rewrite Hpow. ring. }
  pose proof (pow2_pos (d - 53) ltac:(lia)).
  pose proof (pow2_pos (Z.max 0 (E - 0)) ltac:(lia)).
  destruct (round_half_even_cross A (Zpos mb * 2 ^ (d - 53))
              (Zpos ma * 2 ^ Z.max 0 (0 - E))
              (Zpos mb * 2 ^ Z.max 0 (E - 0))) as [Hf Hr]; try lia.
Qed.

Lemma double_of_parts s m e :
  2 ^ 52 <= m <= 2 ^ 53 ->
  exists my ey,
    double_of s m e = S754_finite s my ey /\
    2 ^ 52 <= Zpos my < 2 ^ 53 /\
    e <= ey <= e + 1 /\
    Zpos my * 2 ^ (ey - e) = m.
Proof.
  intros Hm. unfold double_of.
  destruct (Z.ltb_spec m (2 ^ 53)) as [L|G].
  - exists (Z.to_pos m), e. rewrite Z2Pos.id by lia.
    replace (e - e) with 0 by lia. repeat split; lia.
  - exists (Z.to_pos (2 ^ 52)), (e + 1).
    replace (e + 1 - e) with 1 by lia.
    repeat split; try lia; simpl; lia.
Qed.

(** [n * x] for an int below 2^53 and a double [x] is the double nearest to
    the exact product. *)
Lemma py_int_mul_float_nearest n m e :
  0 < n < 2 ^ 53 -> 2 ^ 52 <= m <= 2 ^ 53 -> -600 <= e <= 600 ->
  exists m' e',
    nearest_double (n * m) 1 e m' e' /\
    py_int_mul_float n (double_of false m e) = Ok (double_of false m' e').
Proof.
  intros Hn Hm He.
  destruct n as [|n|n]; try lia.
  unfold py_int_mul_float. rewrite py_float_of_int_exact by lia. cbn [bind].
  destruct (double_of_parts false m e Hm) as (my & ey & -> & Hmy & Hey & Hval).
  pose proof (digits_le_53 n ltac:(lia)) as Hdn.
  unfold normal. cbn [SFmul xorb].
  rewrite Pos2Z.inj_mul, normal_mantissa by exact Hdn.
  change (Zpos (digits2_pos n) - prec) with (Zpos (digits2_pos n) - 53).
  set (dn := Zpos (digits2_pos n)) in *.
  set (A := Zpos n * 2 ^ (53 - dn) * Zpos my).
  pose proof (pow2_pos (53 - dn) ltac:(lia)) as Hp.
  assert (0 <= A) as HA by (unfold A; nia).
  destruct (Zdigits2_bounds (Zpos n) ltac:(lia)) as (_ & Hnlo & Hnhi).
  change (Zdigits2 (Zpos n)) with dn in Hnlo, Hnhi.
  assert (2 ^ 104 <= A) as HAlo.
  { unfold A.
    assert (2 ^ 52 <= Zpos n * 2 ^ (53 - dn)).
    { replace 52 with (dn - 1 + (53 - dn)) by lia.
      rewrite Z.pow_add_r by lia. nia. }
    change (2 ^ 104) with (2 ^ 52 * 2 ^ 52). nia. }
  assert (A < 2 ^ 106) as HAhi.
  { unfold A.
    assert (Zpos n * 2 ^ (53 - dn) < 2 ^ 53).
    { replace 53 with (dn + (53 - dn)) at 2 by lia.
      rewrite Z.pow_add_r by lia. nia. }
    change (2 ^ 106) with (2 ^ 53 * 2 ^ 53). nia. }
  assert (105 <= Zdigits2 A <= 106) as HdA
    by (split; [apply Zdigits2_ge; simpl; lia|apply Zdigits2_le; simpl; lia]).
  pose proof (exact_represents A HA) as Hrep.
  rewrite <- (Z.div_1_r A) in HdA.
  destruct (binary_round_aux_nearest false A 1 A loc_Exact (dn - 53 + ey)
              Hrep ltac:(lia) ltac:(lia)) as [Hrange ->].
  rewrite Z.div_1_r in *. rewrite Z.mul_1_l in *.
  set (d := Zdigits2 A) in *.
  exists (round_half_even A (2 ^ (d - 53))), (d + (dn - 53 + ey) - 53).
  split; [|reflexivity].
  unfold nearest_double.
  set (E' := d + (dn - 53 + ey) - 53).
  assert (A * (1 * 2 ^ Z.max 0 (E' - e)) =
          Zpos n * m * 2 ^ Z.max 0 (e - E') * 2 ^ (d - 53)) as Hx.
  { unfold A. rewrite <- Hval.
    assert (2 ^ (53 - dn) * 2 ^ Z.max 0 (E' - e) =
            2 ^ (ey - e) * 2 ^ Z.max 0 (e - E') * 2 ^ (d - 53)) as Hpow
      by (rewrite <- !Z.pow_add_r by lia; f_equal; lia).
    replace (Zpos n * 2 ^ (53 - dn) * Zpos my * (1 * 2 ^ Z.max 0 (E' - e)))
      with (Zpos n * Zpos my * (2 ^ (53 - dn) * 2 ^ Z.max 0 (E' - e))) by ring.
    rewrite Hpow. ring. }
  pose proof (pow2_pos (d - 53) ltac:(lia)).
  pose proof (pow2_pos (Z.max 0 (E' - e)) ltac:(lia)).
  destruct (round_half_even_cross A (2 ^ (d - 53))
              (Zpos n * m * 2 ^ Z.max 0 (e - E'))
              (1 * 2 ^ Z.max 0 (E' - e))) as [Hf Hr]; try lia.
Qed.

Lemma nearest_double_range a b k m e :
  nearest_double a b k m e -> 2 ^ 52 <= m <= 2 ^ 53.
Proof.
  unfold nearest_double. intros [Hr ->].
  pose proof (round_half_even_bounds (a * 2 ^ Z.max 0 (k - e))
                (b * 2 ^ Z.max 0 (e - k))). lia.
Qed.

Lemma py_int_of_finite my ey :
  py_int_of_float (S754_finite false my ey) = Ok (truncate (Zpos my) ey).
Proof.
  unfold truncate. cbn [py_int_of_float cond_Zopp]. f_equal.
  destruct ey as [|p|p]; reflexivity.
Qed.

Lemma py_int_of_double m e :
  2 ^ 52 <= m <= 2 ^ 53 ->
  py_int_of_float (double_of false m e) = Ok (truncate m e).
Proof.
  intros Hm.
  destruct (double_of_parts false m e Hm) as (my & ey & -> & Hmy & Hey & Hval).
  rewrite py_int_of_finite. f_equal. rewrite <- Hval. unfold truncate.
  destruct (Z.eq_dec ey e) as [->|N].
  - replace (e - e) with 0 by lia. now rewrite Z.pow_0_r, Z.mul_1_r.
  - assert (ey = e + 1) as -> by lia.
    replace (e + 1 - e) with 1 by lia. rewrite Z.pow_1_r.
    destruct (Z.ltb_spec (e + 1) 0) as [L1|G1];
      destruct (Z.ltb_spec e 0) as [L|G]; try lia.
    + replace (- e) with (- (e + 1) + 1) by lia.
      rewrite Z.pow_add_r, Z.pow_1_r by lia.
      pose proof (pow2_pos (- (e + 1)) ltac:(lia)).
      now rewrite Z.div_mul_cancel_r by lia.
    + assert (e = -1) as -> by lia. simpl Z.opp. simpl Z.add.
      rewrite Z.pow_0_r, Z.pow_1_r, Z.mul_1_r. now rewrite Z.div_mul by lia.
    + rewrite Z.pow_add_r, Z.pow_1_r by lia. ring.
Qed.

(** *** The rounding the properties speak of *)

(** No integer is nearer to [p / q] than [round_half_even p q], and a tie
    goes to the even neighbour. *)
Lemma round_half_even_nearest p q n :
  0 < q ->
  Z.abs (round_half_even p q * q - p) <= Z.abs (n * q - p).
Proof.
  intros Hq. unfold round_half_even.
  pose proof (Z.div_mod p q ltac:(lia)) as Hp.
  pose proof (Z.mod_pos_bound p q Hq) as Hr.
  set (f := p / q) in *. set (r := p mod q) in *.
  destruct (Z.le_gt_cases n f) as [Hn|Hn].
  - assert (n * q <= f * q) by nia.
    destruct (Z.compare_spec (2 * r) q); [destruct (Z.even f)| |]; nia.
  - assert ((f + 1) * q <= n * q) by nia.
    destruct (Z.compare_spec (2 * r) q); [destruct (Z.even f)| |]; nia.
Qed.

Lemma round_half_even_tie p q :
  0 < q -> 2 * (p mod q) = q -> Z.even (round_half_even p q) = true.
Proof.
  intros Hq H. unfold round_half_even. rewrite H, Z.compare_refl.
  destruct (Z.even (p / q)) eqn:E; [exact E|].
  rewrite Z.even_add, E. reflexivity.
Qed.

(** The exponent and the mantissa of the nearest double are determined by
    the number. *)
Lemma nearest_double_unique a b k m e m' e' :
  0 < b ->
  nearest_double a b k m e -> nearest_double a b k m' e' ->
  e = e' /\ m = m'.
Proof.
  intros Hb.
  assert (forall e1 e2 m1 m2,
            nearest_double a b k m1 e1 -> nearest_double a b k m2 e2 ->
            ~ e1 < e2) as Hlt.
  { intros e1 e2 m1 m2 [[_ H1] _] [[H2 _] _] L.
    set (p1 := a * 2 ^ Z.max 0 (k - e1)) in *.
    set (q1 := b * 2 ^ Z.max 0 (e1 - k)) in *.
    set (p2 := a * 2 ^ Z.max 0 (k - e2)) in *.
    set (q2 := b * 2 ^ Z.max 0 (e2 - k)) in *.
    assert (0 < q1) as Hq1
      by (unfold q1; pose proof (pow2_pos (Z.max 0 (e1 - k)) ltac:(lia)); nia).
    assert (0 < q2) as Hq2
      by (unfold q2; pose proof (pow2_pos (Z.max 0 (e2 - k)) ltac:(lia)); nia).
    assert (p1 < 2 ^ 53 * q1) as U1.
    { pose proof (Z.div_mod p1 q1 ltac:(lia)).
      pose proof (Z.mod_pos_bound p1 q1 Hq1). nia. }
    assert (2 ^ 52 * q2 <= p2) as L2.
    { pose proof (Z.div_mod p2 q2 ltac:(lia)).
      pose proof (Z.mod_pos_bound p2 q2 Hq2). nia. }
    assert (p1 * q2 = 2 ^ (e2 - e1) * (p2 * q1)) as Hx.
    { unfold p1, q1, p2, q2.
      transitivity (a * b * (2 ^ Z.max 0 (k - e1) * 2 ^ Z.max 0 (e2 - k)));
        [ring|].
      transitivity (a * b * (2 ^ (e2 - e1) *
                             (2 ^ Z.max 0 (k - e2) * 2 ^ Z.max 0 (e1 - k))));
        [|ring].
      f_equal. rewrite <- !Z.pow_add_r by lia. f_equal. lia. }
    assert (2 <= 2 ^ (e2 - e1)) as H2e.
    { change 2 with (2 ^ 1) at 1. apply Z.pow_le_mono_r; lia. }
    assert (p1 * q2 < 2 ^ 53 * q1 * q2) as A1
      by (apply Z.mul_lt_mono_pos_r; assumption).
    assert (2 ^ 52 * q2 * q1 <= p2 * q1) as A2
      by (apply Z.mul_le_mono_nonneg_r; lia).
    assert (0 <= p2 * q1) as A3 by lia.
    assert (2 * (p2 * q1) <= 2 ^ (e2 - e1) * (p2 * q1)) as A4
      by (apply Z.mul_le_mono_nonneg_r; lia).
    lia. }
  intros H1 H2.
  assert (e = e') as <-.
  { pose proof (Hlt _ _ _ _ H1 H2). pose proof (Hlt _ _ _ _ H2 H1). lia. }
  split; [reflexivity|].
  destruct H1 as [_ ->], H2 as [_ ->]. reflexivity.
Qed.

(** The estimator's arithmetic, step by step: the quotient is the nearest
    double, the product with the queue count is the nearest double of the
    exact product, and [int] takes the integer part. *)
Lemma float_chain_nearest S L N :
  0 < S < 2 ^ 400 -> 0 < L < 2 ^ 400 -> 0 < N < 2 ^ 53 ->
  exists m e m' e',
    nearest_double S L 0 m e /\
    nearest_double (N * m) 1 e m' e' /\
    (avg_duration <- py_truediv S L ;;
     estimated_time <- py_int_mul_float N avg_duration ;;
     py_int_of_float estimated_time) = Ok (truncate m' e').
Proof.
  intros HS HL HN.
  destruct (py_truediv_nearest S L HS HL) as (m & e & H1 & He & ->).
  pose proof (nearest_double_range _ _ _ _ _ H1) as Hm.
  destruct (py_int_mul_float_nearest N m e HN Hm ltac:(lia))
    as (m' & e' & H2 & E2).
  pose proof (nearest_double_range _ _ _ _ _ H2) as Hm'.
  exists m, e, m', e'. split; [exact H1|]. split; [exact H2|].
  cbn [bind]. rewrite E2. cbn [bind]. now apply py_int_of_double.
Qed.

(** C2, as amended: the estimator returns 15 when the doctor has no
    non-null historical duration, whatever the queue length. Otherwise, with
    S the sum and L the number of the non-null durations and N the number of
    stored queue entries with that doctor_id, it returns int(N * (S / L)) in
    double precision: for 0 < S < 2^400 and 0 < N < 2^53 the quotient S / L
    is rounded to the nearest double, ties to even, the product of N with
    that double is rounded to the nearest double again, and the result is the
    integer part of that. When the mean is a whole number m, and m, N and
    m * N are below 2^53, the result is exactly m * N; durations 10, 20 and
    30 with queue length 2 give 40. With a duration on record and no
    queue entry for the doctor the result is 0. *)
Theorem estimate_wait_time_rounds db doctor_id :
  (durations_of db doctor_id = [] -> estimate_wait_time db doctor_id = Ok 15) /\
  (durations_of db doctor_id <> [] ->
   0 < sum (durations_of db doctor_id) < 2 ^ 400 ->
   count (durations_of db doctor_id) < 2 ^ 400 ->
   0 < count (filter (fun e => String.eqb (Queue.doctor_id e) doctor_id)
                     (Queue_table db)) < 2 ^ 53 ->
   exists m e m' e',
     nearest_double (sum (durations_of db doctor_id))
                    (count (durations_of db doctor_id)) 0 m e /\
     nearest_double
       (count (filter (fun e => String.eqb (Queue.doctor_id e) doctor_id)
                      (Queue_table db)) * m) 1 e m' e' /\
     estimate_wait_time db doctor_id = Ok (truncate m' e')) /\
  (durations_of db doctor_id <> [] ->
   Z.abs (sum (durations_of db doctor_id)) < 2 ^ 400 ->
   count (filter (fun e => String.eqb (Queue.doctor_id e) doctor_id)
                 (Queue_table db)) = 0 ->
   estimate_wait_time db doctor_id = Ok 0) /\
  (forall m,
     durations_of db doctor_id <> [] ->
     sum (durations_of db doctor_id) =
       m * count (durations_of db doctor_id) ->
     0 <= m < 2 ^ 53 ->
     count (filter (fun e => String.eqb (Queue.doctor_id e) doctor_id)
                   (Queue_table db)) < 2 ^ 53 ->
     count (filter (fun e => String.eqb (Queue.doctor_id e) doctor_id)
                   (Queue_table db)) * m < 2 ^ 53 ->
     estimate_wait_time db doctor_id =
     Ok (count (filter (fun e => String.eqb (Queue.doctor_id e) doctor_id)
                       (Queue_table db)) * m)) /\
  (durations_of db doctor_id = [10; 20; 30] ->
   count (filter (fun e => String.eqb (Queue.doctor_id e) doctor_id)
                 (Queue_table db)) = 2 ->
   estimate_wait_time db doctor_id = Ok 40).
Proof.
  assert (0 <= count (filter (fun e => String.eqb (Queue.doctor_id e) doctor_id)
                             (Queue_table db))) as HN0
    by (unfold count; lia).
  assert (durations_of db doctor_id <> [] ->
          0 < count (durations_of db doctor_id)) as HL0.
  { intros Hne. destruct (durations_of db doctor_id); [now contradiction Hne|].
    rewrite count_cons. unfold count. lia. }
  assert (forall m,
     durations_of db doctor_id <> [] ->
     sum (durations_of db doctor_id) =
       m * count (durations_of db doctor_id) ->
     0 <= m < 2 ^ 53 ->
     count (filter (fun e => String.eqb (Queue.doctor_id e) doctor_id)
                   (Queue_table db)) < 2 ^ 53 ->
     count (filter (fun e => String.eqb (Queue.doctor_id e) doctor_id)
                   (Queue_table db)) * m < 2 ^ 53 ->
     estimate_wait_time db doctor_id =
     Ok (count (filter (fun e => String.eqb (Queue.doctor_id e) doctor_id)
                       (Queue_table db)) * m)) as Hexact.
  { intros m Hne Hsum Hm Hq Hqm.
    rewrite estimate_wait_time_eq by exact Hne. rewrite Hsum.
    apply float_chain_exact; auto. }
  split; [apply estimate_wait_time_default|].
  split; [|split; [|split; [exact Hexact|]]].
  - intros Hne HS HL HN.
    rewrite estimate_wait_time_eq by exact Hne.
    apply float_chain_nearest; auto.
  - intros Hne HS HN. rewrite estimate_wait_time_eq by exact Hne.
    specialize (HL0 Hne).
    destruct (py_truediv_bounded (sum (durations_of db doctor_id))
                (count (durations_of db doctor_id)) ltac:(lia) HS)
      as (avg & -> & Havg).
    cbn [bind]. unfold Queue_by_doctor. rewrite HN.
    destruct avg; try contradiction; reflexivity.
  - intros Hds Hq. rewrite (Hexact 20); rewrite ?Hds, ?Hq; try reflexivity;
      try discriminate; lia.
Qed.

(** Doctor d1 of the first clinic has three patients and no history. With
    seven visits of 61 minutes in total and seven patients, both roundings
    take place. A doctor with a visit on record and nobody waiting gets 0.
    In the clinic with two doctors d1 has the durations 10, 20 and 30 on
    record, besides a visit without duration and a visit of d2, and two of
    the four waiting patients: the estimate is 40. *)
Lemma estimate_wait_time_rounds_witness :
  estimate_wait_time clinic_db "d1" = Ok 15 /\
  (exists m e m' e',
     nearest_double 61 7 0 m e /\
     nearest_double (7 * m) 1 e m' e' /\
     estimate_wait_time busy_db "d1" = Ok (truncate m' e')) /\
  estimate_wait_time idle_db "d1" = Ok 0 /\
  estimate_wait_time shared_pair_db "d1" = Ok (2 * 20) /\
  estimate_wait_time shared_pair_db "d1" = Ok 40.
Proof.
  split; [|split; [|split; [|split]]].
  - apply (proj1 (estimate_wait_time_rounds clinic_db "d1")). reflexivity.
  - apply (proj1 (proj2 (estimate_wait_time_rounds busy_db "d1"))).
    + discriminate.
    + vm_compute. split; reflexivity.
    + reflexivity.
    + vm_compute. split; reflexivity.
  - apply (proj1 (proj2 (proj2 (estimate_wait_time_rounds idle_db "d1")))).
    + discriminate.
    + reflexivity.
    + reflexivity.
  - apply (proj1 (proj2 (proj2 (proj2 (estimate_wait_time_rounds
                                         shared_pair_db "d1"))))).
    + discriminate.
    + reflexivity.
    + vm_compute. split; [discriminate|reflexivity].
    + reflexivity.
    + reflexivity.
  - apply (proj2 (proj2 (proj2 (proj2 (estimate_wait_time_rounds
                                         shared_pair_db "d1")))));
      reflexivity.
Defined.

(** The two roundings of 61/7 times 7, in integers: the quotient is
    4905706736957147 * 2^-49, seven times that is rounded down to
    8584986789675007 * 2^-47, just below 61, and the integer part is 60. *)
Example sixty_one_sevenths_times_seven :
  nearest_double 61 7 0 4905706736957147 (-49) /\
  nearest_double (7 * 4905706736957147) 1 (-49) 8584986789675007 (-47) /\
  truncate 8584986789675007 (-47) = 60.
Proof.
  unfold nearest_double.
  repeat split; try reflexivity; vm_compute; discriminate.
Qed.

(** C2, as stated, fails: with seven durations adding up to 61 and seven
    patients waiting, the mean times the queue length is 61, and the
    estimator returns 60, because 61/7 is rounded to a double before it is
    multiplied by 7. *)
Lemma rounded_mean_loses_a_minute : ~ estimates_exactly busy_db "d1".
Proof.
  unfold estimates_exactly. intros H.
  assert (estimate_wait_time busy_db "d1" = Ok 60) as E by (vm_compute; reflexivity).
  rewrite E in H. vm_compute in H. discriminate.
Qed.
